(** * Single-point positioning (pntpos.cpp): a shallow embedding

    The functions of [src/gnss_preprocessor/RTKLIB/src/pntpos.cpp] as Rocq
    functions over IEEE binary64 numbers (the kernel's primitive floats).

    - C [double] is [float]; comparisons are the IEEE ones ([<?], [<=?],
      [=?]), so a NaN fails every test exactly as in C.
    - Arrays are lists read with stdpp's total lookup [l !!! i] and written
      with [<[i:=x]> l]; every index the code uses is in range when the caller
      hands over [n] records, so the out-of-range behaviour of the list
      operations is never reached from [pntpos].
    - The work buffers [v], [H], [var] hold exactly the rows [rescode] has
      written: [v[nv]=..; nv++] is an append, and [nv] is the length. The
      design matrix is kept by rows: entry [H[j+k*NX]] of the source is entry
      [j] of row [k].
    - Functions with output pointers return the written values.
    - A local or a buffer that the source reads without having written it
      (the locals [dion], [dtrp], [vion], [vtrp] of [rescode], declared
      without initialiser; the buffers [vsat_e], [resp_e], [msg_e] of
      [raim_fde], [resp] of [pntpos] and the local [e] that [resdop] hands to
      [matmul]) has an indeterminate value in C: its initial content is an
      explicit argument of the function.
    - [n] is an [int] in the source; [pntpos] tests its sign, and below
      [pntpos] it is a count, a [nat] here.
    - Functions of rtkcmn.c and the other RTKLIB units, the libm functions and
      the constants of rtklib.h are not part of this file of the source: they
      are the fields of the class [RtkLib].
    - Logging ([trace], [LOG]) and the ROS publication and CSV block of
      [pntpos] write nothing that the solver reads back; they are left out,
      but for the read of [obs[0]] in the argument of the first [trace] of
      [pntpos], which comes before the test of [n]. *)

From Stdlib Require Import ZArith List String Ascii Floats Uint63 Bool Lia DecimalString.
From stdpp Require Import base decidable list.
Import ListNotations.

Set Warnings "-inexact-float".
Local Open Scope float_scope.

Abbreviation double := float (only parsing).

#[global] Instance double_inhabited : Inhabited double := populate 0.

(** ** Enumerations of rtklib.h *)

(** Modelled from the spec: the constellation tags of rtklib.h ([SYS_???],
    not under src/). The data model of the spec names seven constellations;
    [SYS_NONE] is the 0 that [satsys] returns for an unknown satellite. *)
Inductive sys_t :=
  SYS_NONE | SYS_GPS | SYS_SBS | SYS_GLO | SYS_GAL | SYS_QZS | SYS_CMP | SYS_IRN.

(** Modelled from the spec: the ionosphere options ([IONOOPT_???]). *)
Inductive ionoopt_t :=
  IONOOPT_OFF | IONOOPT_BRDC | IONOOPT_SBAS | IONOOPT_IFLC | IONOOPT_TEC
| IONOOPT_QZS.

(** Modelled from the spec: the troposphere options ([TROPOPT_???]);
    [TROPOPT_ESTG] is named by [tropcorr]. *)
Inductive tropopt_t :=
  TROPOPT_OFF | TROPOPT_SAAS | TROPOPT_SBAS | TROPOPT_EST | TROPOPT_ESTG.

(** Modelled from the spec: positioning mode, single or one of the precise
    modes. *)
Inductive pmode_t := PMODE_SINGLE | PMODE_PRECISE.

(** Modelled from the spec: ephemeris option. *)
Inductive ephopt_t := EPHOPT_BRDC | EPHOPT_SBAS | EPHOPT_PREC.

(** Modelled from the spec: solution status; [SOLQ_NONE] is the value 0. *)
Inductive solq_t := SOLQ_NONE | SOLQ_SINGLE | SOLQ_SBAS.

#[global] Instance sys_eq_dec : EqDecision sys_t.
Proof. solve_decision. Defined.
#[global] Instance ionoopt_eq_dec : EqDecision ionoopt_t.
Proof. solve_decision. Defined.
#[global] Instance tropopt_eq_dec : EqDecision tropopt_t.
Proof. solve_decision. Defined.
#[global] Instance pmode_eq_dec : EqDecision pmode_t.
Proof. solve_decision. Defined.
#[global] Instance ephopt_eq_dec : EqDecision ephopt_t.
Proof. solve_decision. Defined.
#[global] Instance solq_eq_dec : EqDecision solq_t.
Proof. solve_decision. Defined.

(** ** Records of rtklib.h, with the fields pntpos.cpp reads or writes *)

Record gtime_t := mk_gtime { gt_time : Z; gt_sec : double }.

Record obsd_t := mk_obsd {
  obs_time : gtime_t;
  obs_sat : Z;
  obs_SNR : list Z;
  obs_code : list Z;
  obs_L : list double;
  obs_P : list double;
  obs_D : list double
}.

Record eph_t := mk_eph { eph_sat : Z; eph_tgd : list double }.
Record geph_t := mk_geph { geph_sat : Z; geph_dtaun : double }.

(** [nav->n] and [nav->ng] are the lengths of [nav_eph] and [nav_geph]. *)
Record nav_t := mk_nav {
  nav_eph : list eph_t;
  nav_geph : list geph_t;
  nav_cbias : list (list double);
  nav_ion_gps : list double;
  nav_ion_qzs : list double
}.

Record snrmask_t := mk_snrmask { snr_ena : list Z; snr_mask : list (list double) }.

Record prcopt_t := mk_prcopt {
  opt_mode : pmode_t;
  opt_ionoopt : ionoopt_t;
  opt_tropopt : tropopt_t;
  opt_sateph : ephopt_t;
  opt_elmin : double;
  opt_snrmask : snrmask_t;
  opt_err : list double;
  opt_maxgdop : double;
  opt_posopt : list Z
}.

Record sol_t := mk_sol {
  sol_time : gtime_t;
  sol_rr : list double;
  sol_qr : list double;
  sol_qv : list double;
  sol_dtr : list double;
  sol_type : Z;
  sol_stat : solq_t;
  sol_ns : Z;
  sol_age : double;
  sol_ratio : double
}.

Record ssat_t := mk_ssat {
  ssat_vs : Z;
  ssat_azel : list double;
  ssat_resp : list double;
  ssat_resc : list double;
  ssat_snr : list Z
}.

#[global] Instance gtime_inhabited : Inhabited gtime_t := populate (mk_gtime 0 0).
#[global] Instance obsd_inhabited : Inhabited obsd_t :=
  populate (mk_obsd inhabitant 0 [] [] [] [] []).
#[global] Instance ssat_inhabited : Inhabited ssat_t :=
  populate (mk_ssat 0 [] [] [] []).

(** ** The collaborators of pntpos.cpp *)

Class RtkLib := {
  (* constants of rtklib.h *)
  CLIGHT : double; OMGE : double; D2R : double; SNR_UNIT : double;
  FREQ1 : double; FREQ2 : double; FREQ5 : double; FREQ7 : double;
  FREQ9 : double; FREQ1_GLO : double; FREQ2_GLO : double;
  FREQ1_CMP : double; FREQ2_CMP : double;
  EFACT_GPS : double; EFACT_GLO : double; EFACT_SBS : double;
  MAXOBS : nat; MAXSAT : nat;
  CODE_L1C : Z; CODE_L1P : Z; CODE_L2C : Z; CODE_L2I : Z;
  (* table of rtkcmn.c: chi-square critical values, entry k is for k+1
     degrees of freedom *)
  chisqr : nat -> double;
  (* libm, printf and the C conversion to float *)
  sin : double -> double;
  cos : double -> double;
  fmt_1f : double -> string;
  cast_float : double -> double;
  (* rtkcmn.c *)
  satsys : Z -> sys_t;
  satexclude : Z -> double -> Z -> prcopt_t -> bool;
  testsnr : Z -> Z -> double -> double -> snrmask_t -> bool;
  sat2freq : Z -> Z -> nav_t -> double;
  getseleph : sys_t -> Z;
  geodist : list double -> list double -> double * list double;
  (* return value, then the pair written to azel *)
  satazel : list double -> list double -> double * list double;
  ecef2pos : list double -> list double;
  xyz2enu : list double -> list double;
  dot : list double -> list double -> nat -> double;
  norm : list double -> nat -> double;
  matmul : string -> nat -> nat -> nat -> double -> list double ->
           list double -> double -> list double -> list double;
  (* info, x, Q *)
  lsq : list (list double) -> list double -> nat -> nat ->
        Z * list double * list double;
  dops : nat -> list double -> double -> list double;
  timeadd : gtime_t -> double -> gtime_t;
  (* atmosphere models *)
  ionmodel : gtime_t -> list double -> list double -> list double -> double;
  sbsioncorr : gtime_t -> nav_t -> list double -> list double ->
               Z * double * double;
  iontec : gtime_t -> nav_t -> list double -> list double -> Z ->
           Z * double * double;
  tropmodel : gtime_t -> list double -> list double -> double -> double;
  sbstropcorr : gtime_t -> list double -> list double -> double * double;
  (* ephemeris.c: rs, dts, var, svh *)
  satposs : gtime_t -> list obsd_t -> nat -> nav_t -> ephopt_t ->
            list double * list double * list double * list Z
}.

(** ** Constants of pntpos.cpp *)

Definition SQR (x : double) : double := x * x.

Definition NX : nat := (4 + 4)%nat.
Definition MAXITR : nat := 10%nat.
Definition ERR_ION : double := 5.0.
Definition ERR_TROP : double := 3.0.
Definition ERR_SAAS : double := 0.3.
Definition ERR_BRDCI : double := 0.5.
Definition ERR_CBIAS : double := 0.3.
Definition REL_HUMI : double := 0.7.

(** [zeros(n,m)] of rtkcmn.c: a zeroed buffer. *)
Definition zeros (n m : nat) : list double := replicate (n * m) 0.

(** Conversion of an integral value to double. *)
Definition int_double (s : Z) : double := of_uint63 (Uint63.of_Z s).

(** [%d] of printf. *)
Definition fmt_d (z : Z) : string := NilZero.string_of_int (Z.to_int z).

Section CorrectionModels.
Context `{rtk : RtkLib}.

Definition MIN_EL : double := 5.0 * D2R.

(** pseudorange measurement error variance *)
Definition varerr (opt : prcopt_t) (el : double) (sys : sys_t) : double :=
  let fact := if decide (sys = SYS_GLO) then EFACT_GLO
              else if decide (sys = SYS_SBS) then EFACT_SBS else EFACT_GPS in
  let el := if el <? MIN_EL then MIN_EL else el in
  let varr := SQR (opt_err opt !!! 0%nat)
              * (SQR (opt_err opt !!! 1%nat)
                 + SQR (opt_err opt !!! 2%nat) / sin el) in
  let varr := if decide (opt_ionoopt opt = IONOOPT_IFLC)
              then varr * SQR 3.0 else varr in
  SQR fact * varr.

(** get group delay parameter (m) *)
Definition gettgd (sat : Z) (nav : nav_t) (type : nat) : double :=
  let sys := satsys sat in
  if decide (sys = SYS_GLO) then
    match find (fun g => (geph_sat g =? sat)%Z) (nav_geph nav) with
    | None => 0.0
    | Some g => - geph_dtaun g * CLIGHT
    end
  else
    match find (fun e => (eph_sat e =? sat)%Z) (nav_eph nav) with
    | None => 0.0
    | Some e => (eph_tgd e !!! type) * CLIGHT
    end.


(** test SNR mask; [azel] is the pair of the satellite *)
Definition snrmask (obs : obsd_t) (azel : list double) (opt : prcopt_t) : bool :=
  if testsnr 0 0 (azel !!! 1%nat) (int_double (obs_SNR obs !!! 0%nat) * SNR_UNIT)
       (opt_snrmask opt)
  then false
  else if decide (opt_ionoopt opt = IONOOPT_IFLC) then
    if testsnr 0 1 (azel !!! 1%nat) (int_double (obs_SNR obs !!! 1%nat) * SNR_UNIT)
         (opt_snrmask opt)
    then false else true
  else true.

(** pseudorange with code bias correction: the returned pseudorange and the
    value left in [*var] *)
Definition prange (obs : obsd_t) (nav : nav_t) (opt : prcopt_t)
  : double * double :=
  let sat := obs_sat obs in
  let sys := satsys sat in
  let P1 := obs_P obs !!! 0%nat in
  let P2 := obs_P obs !!! 1%nat in
  let code0 := obs_code obs !!! 0%nat in
  let code1 := obs_code obs !!! 1%nat in
  if (P1 =? 0.0) || (bool_decide (opt_ionoopt opt = IONOOPT_IFLC) && (P2 =? 0.0))
  then (0.0, 0.0)
  else
    (* P1-C1,P2-C2 DCB correction *)
    let gps_glo := bool_decide (sys = SYS_GPS) || bool_decide (sys = SYS_GLO) in
    let P1 := if gps_glo && (code0 =? CODE_L1C)%Z
              then P1 + (nav_cbias nav !!! Z.to_nat (sat - 1)) !!! 1%nat else P1 in
    let P2 := if gps_glo && (code1 =? CODE_L2C)%Z
              then P2 + (nav_cbias nav !!! Z.to_nat (sat - 1)) !!! 2%nat else P2 in
    if decide (opt_ionoopt opt = IONOOPT_IFLC) then
      (* dual-frequency *)
      if bool_decide (sys = SYS_GPS) || bool_decide (sys = SYS_QZS) then
        let gamma := SQR (FREQ1 / FREQ2) in
        ((P2 - gamma * P1) / (1.0 - gamma), 0.0)
      else if decide (sys = SYS_GLO) then
        let gamma := SQR (FREQ1_GLO / FREQ2_GLO) in
        ((P2 - gamma * P1) / (1.0 - gamma), 0.0)
      else if decide (sys = SYS_GAL) then
        let gamma := SQR (FREQ1 / FREQ7) in
        let P2 := if (getseleph SYS_GAL =? 0)%Z then P2
                  else P2 - (gettgd sat nav 0 - gettgd sat nav 1) in
        ((P2 - gamma * P1) / (1.0 - gamma), 0.0)
      else if decide (sys = SYS_CMP) then
        let gamma :=
          SQR ((if (code0 =? CODE_L2I)%Z then FREQ1_CMP else FREQ1) / FREQ2_CMP) in
        let b1 := if (code0 =? CODE_L2I)%Z then gettgd sat nav 0
                  else if (code0 =? CODE_L1P)%Z then gettgd sat nav 2
                  else gettgd sat nav 2 + gettgd sat nav 4 in
        let b2 := gettgd sat nav 1 in
        (((P2 - gamma * P1) - (b2 - gamma * b1)) / (1.0 - gamma), 0.0)
      else if decide (sys = SYS_IRN) then
        let gamma := SQR (FREQ5 / FREQ9) in
        ((P2 - gamma * P1) / (1.0 - gamma), 0.0)
      else (P1, 0.0)
    else
      (* single-freq (L1/E1/B1) *)
      let var := SQR ERR_CBIAS in
      if bool_decide (sys = SYS_GPS) || bool_decide (sys = SYS_QZS) then
        let b1 := gettgd sat nav 0 in
        (P1 - b1, var)
      else if decide (sys = SYS_GLO) then
        let gamma := SQR (FREQ1_GLO / FREQ2_GLO) in
        let b1 := gettgd sat nav 0 in
        (P1 - b1 / (gamma - 1.0), var)
      else if decide (sys = SYS_GAL) then
        let b1 := if (getseleph SYS_GAL =? 0)%Z then gettgd sat nav 1
                  else gettgd sat nav 0 in
        (P1 - b1, var)
      else if decide (sys = SYS_CMP) then
        let b1 := if (code0 =? CODE_L2I)%Z then gettgd sat nav 0
                  else if (code0 =? CODE_L1P)%Z then gettgd sat nav 2
                  else gettgd sat nav 2 + gettgd sat nav 4 in
        (P1 - b1, var)
      else if decide (sys = SYS_IRN) then
        let gamma := SQR (FREQ9 / FREQ5) in
        let b1 := gettgd sat nav 0 in
        (P1 - gamma * b1, var)
      else (P1, var).

(** ionospheric correction: status, delay (L1) and variance *)
Definition ionocorr (time : gtime_t) (nav : nav_t) (sat : Z)
    (pos azel : list double) (ionoopt : ionoopt_t) : Z * double * double :=
  if decide (ionoopt = IONOOPT_BRDC) then
    let ion := ionmodel time (nav_ion_gps nav) pos azel in
    (1%Z, ion, SQR (ion * ERR_BRDCI))
  else if decide (ionoopt = IONOOPT_SBAS) then sbsioncorr time nav pos azel
  else if decide (ionoopt = IONOOPT_TEC) then iontec time nav pos azel 1
  else if bool_decide (ionoopt = IONOOPT_QZS) && (0.0 <? norm (nav_ion_qzs nav) 8)
  then
    let ion := ionmodel time (nav_ion_qzs nav) pos azel in
    (1%Z, ion, SQR (ion * ERR_BRDCI))
  else (1%Z, 0.0, if decide (ionoopt = IONOOPT_OFF) then SQR ERR_ION else 0.0).

(** tropospheric correction: status, delay and variance *)
Definition tropcorr (time : gtime_t) (nav : nav_t) (pos azel : list double)
    (tropopt : tropopt_t) : Z * double * double :=
  if bool_decide (tropopt = TROPOPT_SAAS) || bool_decide (tropopt = TROPOPT_EST)
     || bool_decide (tropopt = TROPOPT_ESTG)
  then (1%Z, tropmodel time pos azel REL_HUMI,
        SQR (ERR_SAAS / (sin (azel !!! 1%nat) + 0.1)))
  else if decide (tropopt = TROPOPT_SBAS) then
    let '(trp, var) := sbstropcorr time pos azel in (1%Z, trp, var)
  else (1%Z, 0.0, if decide (tropopt = TROPOPT_OFF) then SQR ERR_TROP else 0.0).

End CorrectionModels.

(** ** Pseudorange residuals *)

Notation "x >? y" := (PrimFloat.ltb y x) (at level 70, no associativity, only parsing) : float_scope.

(** The locals [dion], [dtrp], [vion], [vtrp] of [rescode]. *)
Record rescode_locals := mk_locals {
  lc_dion : double; lc_dtrp : double; lc_vion : double; lc_vtrp : double
}.

(** What [rescode] has written so far: the rows [v], [H], [var], the output
    arrays [azel], [vsat], [resp], the counter [*ns] and [mask]. *)
Record rescode_st := mk_rst {
  r_v : list double;
  r_H : list (list double);
  r_var : list double;
  r_azel : list double;
  r_vsat : list Z;
  r_resp : list double;
  r_ns : nat;
  r_mask : list Z
}.

(** The return value [nv] of [rescode]. *)
Definition r_nv (st : rescode_st) : nat := length (r_v st).

Section ResCode.
Context `{rtk : RtkLib}.

Variables (iter : nat) (obs : list obsd_t) (n : nat)
          (rs dts vare : list double) (svh : list Z) (nav : nav_t)
          (x : list double) (opt : prcopt_t).

(** The pair [azel+i*2]. *)
Definition azel_at (azel : list double) (i : nat) : list double :=
  [azel !!! (i * 2)%nat; azel !!! (1 + i * 2)%nat].

(** Head of the loop body: [vsat[i]=0; azel[i*2]=azel[1+i*2]=resp[i]=0.0]. *)
Definition rescode_reset (i : nat) (st : rescode_st) : rescode_st :=
  mk_rst (r_v st) (r_H st) (r_var st)
         (<[(i * 2)%nat := 0.0]> (<[(1 + i * 2)%nat := 0.0]> (r_azel st)))
         (<[i := 0%Z]> (r_vsat st))
         (<[i := 0.0]> (r_resp st))
         (r_ns st) (r_mask st).

(** Design row of a satellite: [H[j+nv*NX]=j<3?-e[j]:(j==3?1.0:0.0)]. *)
Definition design_row (e : list double) : list double :=
  map (fun j => if (j <? 3)%nat then - (e !!! j)
                else if (j =? 3)%nat then 1.0 else 0.0) (seq 0 NX).

(** Tail of the loop body, from the call of [prange] on: the residual, the
    design row, the time-system offset, and the variance. [lc] holds [dion],
    [dtrp], [vion], [vtrp] as they are when the row is formed. *)
Definition rescode_row (i : nat) (sys : sys_t) (r : double) (e : list double)
    (lc : rescode_locals) (st : rescode_st) : rescode_st :=
  let dtr := x !!! 3%nat in
  let '(P, vmeas) := prange (obs !!! i) nav opt in
  if P =? 0.0 then st
  else
    let v0 := P - (r + dtr - CLIGHT * (dts !!! (i * 2)%nat)
                   + lc_dion lc + lc_dtrp lc) in
    let h0 := design_row e in
    let '(vi, h, mask) :=
      if decide (sys = SYS_GLO) then
        (v0 - x !!! 4%nat, <[4%nat := 1.0]> h0, <[1%nat := 1%Z]> (r_mask st))
      else if decide (sys = SYS_GAL) then
        (v0 - x !!! 5%nat, <[5%nat := 1.0]> h0, <[2%nat := 1%Z]> (r_mask st))
      else if decide (sys = SYS_CMP) then
        (v0 - x !!! 6%nat, <[6%nat := 1.0]> h0, <[3%nat := 1%Z]> (r_mask st))
      else if decide (sys = SYS_IRN) then
        (v0 - x !!! 7%nat, <[7%nat := 1.0]> h0, <[4%nat := 1%Z]> (r_mask st))
      else (v0, h0, <[0%nat := 1%Z]> (r_mask st)) in
    mk_rst (r_v st ++ [vi]) (r_H st ++ [h])
           (r_var st ++ [varerr opt (r_azel st !!! (1 + i * 2)%nat) sys
                         + vare !!! i + vmeas + lc_vion lc + lc_vtrp lc])
           (r_azel st)
           (<[i := 1%Z]> (r_vsat st))
           (<[i := vi]> (r_resp st))
           (S (r_ns st)) mask.

(** One pass of the loop over the observations at index [i]. The boolean says
    that the pass ended in the duplicate branch, whose [i++] skips the next
    record as well. [lc0] is the indeterminate content of the locals. *)
Definition rescode_obs (lc0 : rescode_locals) (i : nat) (st : rescode_st)
  : bool * rescode_st :=
  let rr := [x !!! 0%nat; x !!! 1%nat; x !!! 2%nat] in
  let pos := ecef2pos rr in
  let st := rescode_reset i st in
  let time := obs_time (obs !!! i) in
  let sat := obs_sat (obs !!! i) in
  let sys := satsys sat in
  if decide (sys = SYS_NONE) then (false, st)
  else if (i <? n - 1)%nat && (i <? MAXOBS - 1)%nat
          && (sat =? obs_sat (obs !!! (i + 1)%nat))%Z
  then (true, st)                       (* reject duplicated observation data *)
  else if satexclude sat (vare !!! i) (svh !!! i) opt then (false, st)
  else
    let '(r, e) := geodist (drop (i * 6) rs) rr in
    if r <=? 0.0 then (false, st)
    else if (0 <? iter)%nat then
      let '(el, az) := satazel pos e in
      let st := mk_rst (r_v st) (r_H st) (r_var st)
                  (<[(i * 2)%nat := az !!! 0%nat]>
                     (<[(1 + i * 2)%nat := az !!! 1%nat]> (r_azel st)))
                  (r_vsat st) (r_resp st) (r_ns st) (r_mask st) in
      if el <? opt_elmin opt then (false, st)     (* test elevation mask *)
      else if negb (snrmask (obs !!! i) (azel_at (r_azel st) i) opt)
      then (false, st)                            (* test SNR mask *)
      else
        let '(ok, dion, vion) :=
          ionocorr time nav sat pos (azel_at (r_azel st) i) (opt_ionoopt opt) in
        if (ok =? 0)%Z then (false, st)
        else
          let freq := sat2freq sat (obs_code (obs !!! i) !!! 0%nat) nav in
          if freq =? 0.0 then (false, st)
          else
            let dion := dion * SQR (FREQ1 / freq) in
            let vion := vion * SQR (FREQ1 / freq) in
            let '(ok, dtrp, vtrp) :=
              tropcorr time nav pos (azel_at (r_azel st) i) (opt_tropopt opt) in
            if (ok =? 0)%Z then (false, st)
            else (false, rescode_row i sys r e (mk_locals dion dtrp vion vtrp) st)
    else (false, rescode_row i sys r e lc0 st).

(** [for (i=*ns=0;i<n&&i<MAXOBS;i++)]: [fuel] bounds the number of passes. *)
Fixpoint rescode_loop (lc0 : rescode_locals) (fuel : nat) (i : nat)
    (st : rescode_st) : rescode_st :=
  match fuel with
  | O => st
  | S fuel' =>
      if (i <? n)%nat && (i <? MAXOBS)%nat then
        let '(dup, st') := rescode_obs lc0 i st in
        rescode_loop lc0 fuel' (if dup then i + 2 else i + 1)%nat st'
      else st
  end.

(** Constraint row of index [i]: residual 0, a 1 in column [i+3], variance
    0.01; skipped when [mask[i]] is set. *)
Definition constraint_row (i : nat) : list double :=
  map (fun j => if (j =? i + 3)%nat then 1.0 else 0.0) (seq 0 NX).

Definition rescode_constraint (st : rescode_st) (i : nat) : rescode_st :=
  if (r_mask st !!! i =? 0)%Z then
    mk_rst (r_v st ++ [0.0]) (r_H st ++ [constraint_row i]) (r_var st ++ [0.01])
           (r_azel st) (r_vsat st) (r_resp st) (r_ns st) (r_mask st)
  else st.

(** The state when the loop over the observations is left. Each pass advances
    [i], so [n] passes are enough. *)
Definition rescode_sats (lc0 : rescode_locals)
    (azel : list double) (vsat : list Z) (resp : list double) : rescode_st :=
  rescode_loop lc0 n 0
    (mk_rst [] [] [] azel vsat resp 0 (replicate (NX - 3) 0%Z)).

Definition rescode (lc0 : rescode_locals)
    (azel : list double) (vsat : list Z) (resp : list double) : rescode_st :=
  foldl rescode_constraint (rescode_sats lc0 azel vsat resp) (seq 0 (NX - 3)).

End ResCode.

(** ** Validation of a solution *)

Section ValSol.
Context `{rtk : RtkLib}.

(** The pairs of [azel] of the satellites with [vsat[i]] set, in order:
    the array [azels] and the count [ns] of [valsol]. *)
Definition valsol_azels (azel : list double) (vsat : list Z) (n : nat)
  : list double * nat :=
  foldl (fun '(azels, ns) i =>
           if (vsat !!! i =? 0)%Z then (azels, ns)
           else ((azels ++ azel_at azel i)%list, S ns))
        ([]%list, 0%nat) (seq 0 n).

(** [nv>nx&&vv>chisqr[nv-nx-1]] *)
Definition chisqr_gate (v : list double) (nv nx : nat) : bool :=
  (nx <? nv)%nat && (dot v v nv >? chisqr (nv - nx - 1)).

(** [dop[0]<=0.0||dop[0]>opt->maxgdop] *)
Definition gdop_gate (azel : list double) (vsat : list Z) (n : nat)
    (opt : prcopt_t) : bool :=
  let '(azels, ns) := valsol_azels azel vsat n in
  let dop := dops ns azels (opt_elmin opt) in
  (dop !!! 0%nat <=? 0.0) || (dop !!! 0%nat >? opt_maxgdop opt).

(** validate solution: the status and the content of [msg] on return *)
Definition valsol (azel : list double) (vsat : list Z) (n : nat)
    (opt : prcopt_t) (v : list double) (nv nx : nat) (msg : string)
  : Z * string :=
  let vv := dot v v nv in
  if chisqr_gate v nv nx then
    (0%Z, ("chi-square error nv=" ++ fmt_d (Z.of_nat nv) ++ " vv=" ++ fmt_1f vv
           ++ " cs=" ++ fmt_1f (chisqr (nv - nx - 1)))%string)
  else
    let '(azels, ns) := valsol_azels azel vsat n in
    let dop := dops ns azels (opt_elmin opt) in
    if gdop_gate azel vsat n opt then
      (0%Z, ("gdop error nv=" ++ fmt_d (Z.of_nat nv) ++ " gdop="
             ++ fmt_1f (dop !!! 0%nat))%string)
    else (1%Z, msg).

End ValSol.

(** ** Position estimation *)

(** What [estpos] returns and leaves in its output arguments. *)
Record estpos_res := mk_eres {
  e_stat : Z;
  e_sol : sol_t;
  e_azel : list double;
  e_vsat : list Z;
  e_resp : list double;
  e_msg : string
}.

Definition set_stat (sol : sol_t) (q : solq_t) : sol_t :=
  mk_sol (sol_time sol) (sol_rr sol) (sol_qr sol) (sol_qv sol) (sol_dtr sol)
         (sol_type sol) q (sol_ns sol) (sol_age sol) (sol_ratio sol).

Definition set_time (sol : sol_t) (t : gtime_t) : sol_t :=
  mk_sol t (sol_rr sol) (sol_qr sol) (sol_qv sol) (sol_dtr sol)
         (sol_type sol) (sol_stat sol) (sol_ns sol) (sol_age sol) (sol_ratio sol).

Section EstPos.
Context `{rtk : RtkLib}.

Variables (obs : list obsd_t) (n : nat)
          (rs dts vare : list double) (svh : list Z) (nav : nav_t)
          (opt : prcopt_t).

(** weighted by Std: [v[j]/=sig; H[k+j*NX]/=sig] with [sig=sqrt(var[j])] *)
Definition weight_v (v var : list double) : list double :=
  map (fun j => v !!! j / PrimFloat.sqrt (var !!! j)) (seq 0 (length v)).

Definition weight_H (Hm : list (list double)) (var : list double)
  : list (list double) :=
  map (fun j => map (fun k => (Hm !!! j) !!! k / PrimFloat.sqrt (var !!! j)) (seq 0 NX))
      (seq 0 (length Hm)).

(** [for (j=0;j<NX;j++) x[j]+=dx[j]] *)
Definition add_dx (m : nat) (x dx : list double) : list double :=
  map (fun j => x !!! j + dx !!! j) (seq 0 m).

(** The writes to [sol] of a converged iteration, before validation. *)
Definition estpos_commit (sol : sol_t) (x Q : list double) (ns : nat) : sol_t :=
  mk_sol (timeadd (obs_time (obs !!! 0%nat)) (- (x !!! 3%nat) / CLIGHT))
         (map (fun j => if (j <? 3)%nat then x !!! j else 0.0) (seq 0 6))
         [cast_float (Q !!! 0%nat); cast_float (Q !!! (1 + 1 * NX)%nat);
          cast_float (Q !!! (2 + 2 * NX)%nat); cast_float (Q !!! 1%nat);
          cast_float (Q !!! (2 + NX)%nat); cast_float (Q !!! 2%nat)]
         (sol_qv sol)
         (<[0%nat := x !!! 3%nat / CLIGHT]>
            (<[1%nat := x !!! 4%nat / CLIGHT]>
               (<[2%nat := x !!! 5%nat / CLIGHT]>
                  (<[3%nat := x !!! 6%nat / CLIGHT]>
                     (<[4%nat := x !!! 7%nat / CLIGHT]> (sol_dtr sol))))))
         0%Z (sol_stat sol) (Z.of_nat ns mod 256)%Z 0.0 0.0.

(** How one pass of the iteration loop of [estpos] ends. *)
Inductive estpos_step_t :=
| EstposBreak (r : estpos_res)              (* [break]: the function returns 0 *)
| EstposReturn (r : estpos_res)             (* converged: [return stat] *)
| EstposNext (x : list double) (azel : list double) (vsat : list Z)
             (resp : list double).          (* next pass *)

(** Body of [for (i=0;i<MAXITR;i++)]. *)
Definition estpos_step (lc0 : rescode_locals) (i : nat) (x : list double)
    (sol : sol_t) (azel : list double) (vsat : list Z) (resp : list double)
    (msg : string) : estpos_step_t :=
  let st := rescode i obs n rs dts vare svh nav x opt lc0 azel vsat resp in
  let nv := r_nv st in
  if (nv <? NX)%nat then
    EstposBreak (mk_eres 0 sol (r_azel st) (r_vsat st) (r_resp st)
                   ("lack of valid sats ns=" ++ fmt_d (Z.of_nat nv))%string)
  else
    let v := weight_v (r_v st) (r_var st) in
    let Hm := weight_H (r_H st) (r_var st) in
    let '(info, dx, Q) := lsq Hm v NX nv in
    if negb (info =? 0)%Z then
      EstposBreak (mk_eres 0 sol (r_azel st) (r_vsat st) (r_resp st)
                     ("lsq error info=" ++ fmt_d info)%string)
    else
      let x := add_dx NX x dx in
      if norm dx NX <? 1E-4 then
        let sol := estpos_commit sol x Q (r_ns st) in
        let '(stat, msg) :=
          valsol (r_azel st) (r_vsat st) n opt v nv NX msg in
        let sol := if (stat =? 0)%Z then sol
                   else set_stat sol (if decide (opt_sateph opt = EPHOPT_SBAS)
                                      then SOLQ_SBAS else SOLQ_SINGLE) in
        EstposReturn (mk_eres stat sol (r_azel st) (r_vsat st) (r_resp st) msg)
      else EstposNext x (r_azel st) (r_vsat st) (r_resp st).

(** The loop from pass [i] on, with [k] passes left ([k = MAXITR - i]); when
    none is left, [i>=MAXITR] and the function reports the divergence. *)
Fixpoint estpos_loop (lc0 : rescode_locals) (k i : nat) (x : list double)
    (sol : sol_t) (azel : list double) (vsat : list Z) (resp : list double)
    (msg : string) : estpos_res :=
  match k with
  | O => mk_eres 0 sol azel vsat resp
           ("iteration divergent i=" ++ fmt_d (Z.of_nat i))%string
  | S k' =>
      match estpos_step lc0 i x sol azel vsat resp msg with
      | EstposBreak r => r
      | EstposReturn r => r
      | EstposNext x' azel' vsat' resp' =>
          estpos_loop lc0 k' (S i) x' sol azel' vsat' resp' msg
      end
  end.

(** [double x[NX]={0}; for (i=0;i<3;i++) x[i]=sol->rr[i];] *)
Definition estpos_x0 (sol : sol_t) : list double :=
  map (fun j => if (j <? 3)%nat then sol_rr sol !!! j else 0.0) (seq 0 NX).

(** estimate receiver position *)
Definition estpos (lc0 : rescode_locals) (sol : sol_t) (azel : list double)
    (vsat : list Z) (resp : list double) (msg : string) : estpos_res :=
  estpos_loop lc0 MAXITR 0 (estpos_x0 sol) sol azel vsat resp msg.

End EstPos.

(** ** RAIM FDE (failure detection and exclusion) *)

(** The values [raim_fde] keeps across the candidates: the outputs [sol],
    [azel], [vsat], [resp], [msg], the locals [stat], [sat], [rms], and the
    work objects [sol_e], [azel_e], [vsat_e], [resp_e], [msg_e]. *)
Record raim_st := mk_raim {
  ra_stat : Z;
  ra_sol : sol_t;
  ra_azel : list double;
  ra_vsat : list Z;
  ra_resp : list double;
  ra_msg : string;
  ra_sat : Z;
  ra_rms : double;
  ra_sol_e : sol_t;
  ra_azel_e : list double;
  ra_vsat_e : list Z;
  ra_resp_e : list double;
  ra_msg_e : string
}.

(** [sol_t sol_e={{0}}] *)
Definition sol_zero : sol_t :=
  mk_sol (mk_gtime 0 0.0) (replicate 6 0.0) (replicate 6 0.0) (replicate 6 0.0)
         (replicate 6 0.0) 0 SOLQ_NONE 0 0.0 0.0.

Section RaimFde.
Context `{rtk : RtkLib}.

Variables (obs : list obsd_t) (n : nat)
          (rs dts vare : list double) (svh : list Z) (nav : nav_t)
          (opt : prcopt_t).

(** The indices [j] of [for (j=k=0;j<n;j++) { if (j==i) continue; .. k++ }]:
    position [k] of the list is the [j] copied to slot [k]. *)
Definition others (i : nat) : list nat :=
  filter (fun j => j <> i) (seq 0 n).

(** [matcpy(dst+w*k,src+w*j,w,1)] for every slot [k]. *)
Definition exclude_blocks (w : nat) (src : list double) (i : nat) : list double :=
  flat_map (fun j => map (fun t => src !!! (w * j + t)%nat) (seq 0 w)) (others i).

Definition exclude {A} `{Inhabited A} (src : list A) (i : nat) : list A :=
  map (fun j => src !!! j) (others i).

(** [rms_e] and [nvsat] after [for (j=nvsat=0,rms_e=0.0;j<n-1;j++)]. *)
Definition raim_sumsq (vsat_e : list Z) (resp_e : list double) : double * nat :=
  foldl (fun '(rms_e, nvsat) j =>
           if (vsat_e !!! j =? 0)%Z then (rms_e, nvsat)
           else (rms_e + SQR (resp_e !!! j), S nvsat))
        (0.0, 0%nat) (seq 0 (n - 1)).

(** save result: the copy back to slot [j] from slot [k] *)
Definition raim_save (i : nat) (azel : list double) (vsat : list Z)
    (resp : list double) (azel_e : list double) (vsat_e : list Z)
    (resp_e : list double) : list double * list Z * list double :=
  (foldl (fun '(azel, vsat, resp, k) j =>
            if decide (j = i) then (azel, vsat, resp, k)
            else (<[(2 * j + 1)%nat := azel_e !!! (2 * k + 1)%nat]>
                    (<[(2 * j)%nat := azel_e !!! (2 * k)%nat]> azel),
                  <[j := vsat_e !!! k]> vsat,
                  <[j := resp_e !!! k]> resp,
                  S k))
         (azel, vsat, resp, 0%nat) (seq 0 n)).1.

(** The outcome of the candidate [i] before the test against [rms]: [None]
    when the pass ends in one of the first two [continue], else [rms_e]; and
    what [estpos] has left in the work objects. [lc] is the indeterminate
    content of the locals of [rescode] in this call of [estpos]. *)
Definition raim_candidate (lc : rescode_locals) (i : nat) (st : raim_st)
  : option double * estpos_res :=
  let r := estpos (exclude obs i) (n - 1) (exclude_blocks 6 rs i)
                  (exclude_blocks 2 dts i) (exclude vare i) (exclude svh i)
                  nav opt lc (ra_sol_e st) (ra_azel_e st) (ra_vsat_e st)
                  (ra_resp_e st) (ra_msg_e st) in
  if (e_stat r =? 0)%Z then (None, r)
  else
    let '(sumsq, nvsat) := raim_sumsq (e_vsat r) (e_resp r) in
    if (nvsat <? 5)%nat then (None, r)
    else (Some (PrimFloat.sqrt (sumsq / int_double (Z.of_nat nvsat))), r).

(** Body of [for (i=0;i<n;i++)]. *)
Definition raim_step (lcs : nat -> rescode_locals) (st : raim_st) (i : nat)
  : raim_st :=
  let '(c, r) := raim_candidate (lcs i) i st in
  let skip := mk_raim (ra_stat st) (ra_sol st) (ra_azel st) (ra_vsat st)
                (ra_resp st) (ra_msg st) (ra_sat st) (ra_rms st)
                (e_sol r) (e_azel r) (e_vsat r) (e_resp r) (e_msg r) in
  match c with
  | None => skip
  | Some rms_e =>
      if rms_e >? ra_rms st then skip
      else
        let '(azel, vsat, resp) :=
          raim_save i (ra_azel st) (ra_vsat st) (ra_resp st)
                    (e_azel r) (e_vsat r) (e_resp r) in
        mk_raim 1 (e_sol r) azel (<[i := 0%Z]> vsat) resp (e_msg r)
                (obs_sat (obs !!! i)) rms_e
                (e_sol r) (e_azel r) (e_vsat r) (e_resp r) (e_msg r)
  end.

(** The state when [raim_fde] is entered: [stat=0], [sat=0], [rms=100.0],
    [sol_e] zeroed, [azel_e=zeros(2,n)]; [vsat_e0], [resp_e0], [msg_e0] are
    the indeterminate contents of [vsat_e], [resp_e], [msg_e]. *)
Definition raim_init (sol : sol_t) (azel : list double) (vsat : list Z)
    (resp : list double) (msg : string)
    (vsat_e0 : list Z) (resp_e0 : list double) (msg_e0 : string) : raim_st :=
  mk_raim 0 sol azel vsat resp msg 0 100.0
          sol_zero (zeros 2 n) vsat_e0 resp_e0 msg_e0.

(** The candidates [0..m-1] scanned. *)
Definition raim_scan (lcs : nat -> rescode_locals) (st : raim_st) (m : nat)
  : raim_st :=
  foldl (raim_step lcs) st (seq 0 m).

Definition raim_fde (lcs : nat -> rescode_locals)
    (vsat_e0 : list Z) (resp_e0 : list double) (msg_e0 : string)
    (sol : sol_t) (azel : list double) (vsat : list Z) (resp : list double)
    (msg : string) : raim_st :=
  raim_scan lcs (raim_init sol azel vsat resp msg vsat_e0 resp_e0 msg_e0) n.

End RaimFde.

(** ** Velocity estimation *)

Section EstVel.
Context `{rtk : RtkLib}.

Variables (obs : list obsd_t) (n : nat) (rs dts : list double) (nav : nav_t).

(** Body of the loop of [resdop]: the rows [v], [H] and the local [e]. *)
Definition resdop_obs (rr x azel : list double) (vsat : list Z) (err : double)
    (E : list double)
    (st : list double * list (list double) * list double) (i : nat)
  : list double * list (list double) * list double :=
  let '(v, Hm, e) := st in
  let freq := sat2freq (obs_sat (obs !!! i)) (obs_code (obs !!! i) !!! 0%nat) nav in
  if (obs_D (obs !!! i) !!! 0%nat =? 0.0) || (freq =? 0.0)
     || (vsat !!! i =? 0)%Z || (norm (drop (3 + i * 6) rs) 3 <=? 0.0)
  then st
  else
    (* LOS (line-of-sight) vector in ECEF *)
    let cosel := cos (azel !!! (1 + i * 2)%nat) in
    let a := [sin (azel !!! (i * 2)%nat) * cosel;
              cos (azel !!! (i * 2)%nat) * cosel;
              sin (azel !!! (1 + i * 2)%nat)] in
    let e := matmul "TN" 3 1 3 1.0 E a 0.0 e in
    (* satellite velocity relative to receiver in ECEF *)
    let vs := map (fun j => rs !!! (j + 3 + i * 6)%nat - x !!! j) (seq 0 3) in
    (* range rate with earth rotation correction *)
    let rate := dot vs e 3
                + OMGE / CLIGHT
                  * (rs !!! (4 + i * 6)%nat * rr !!! 0%nat
                     + rs !!! (1 + i * 6)%nat * x !!! 0%nat
                     - rs !!! (3 + i * 6)%nat * rr !!! 1%nat
                     - rs !!! (i * 6)%nat * x !!! 1%nat) in
    (* Std of range rate error (m/s) *)
    let sig := if err <=? 0.0 then 1.0 else err * CLIGHT / freq in
    (v ++ [(- (obs_D (obs !!! i) !!! 0%nat) * CLIGHT / freq
            - (rate + x !!! 3%nat - CLIGHT * dts !!! (1 + i * 2)%nat)) / sig],
     Hm ++ [map (fun j => (if (j <? 3)%nat then - (e !!! j) else 1.0) / sig)
                (seq 0 4)],
     e).

(** range rate residuals: the rows [v] and [H]; [nv] is their number. [e0] is
    the indeterminate content of the local [e] handed to [matmul]. *)
Definition resdop (e0 : list double) (rr x azel : list double) (vsat : list Z)
    (err : double) : list double * list (list double) :=
  let pos := ecef2pos rr in
  let E := xyz2enu pos in
  (foldl (resdop_obs rr x azel vsat err E) ([], [], e0)
         (seq 0 (n `min` MAXOBS))).1.

(** The writes to [sol] of a converged velocity iteration:
    [matcpy(sol->rr+3,x,3,1)] and the six entries of [qv]. *)
Definition estvel_commit (sol : sol_t) (x Q : list double) : sol_t :=
  mk_sol (sol_time sol)
         (<[5%nat := x !!! 2%nat]>
            (<[4%nat := x !!! 1%nat]> (<[3%nat := x !!! 0%nat]> (sol_rr sol))))
         (sol_qr sol)
         [cast_float (Q !!! 0%nat); cast_float (Q !!! 5%nat);
          cast_float (Q !!! 10%nat); cast_float (Q !!! 1%nat);
          cast_float (Q !!! 6%nat); cast_float (Q !!! 2%nat)]
         (sol_dtr sol) (sol_type sol) (sol_stat sol) (sol_ns sol)
         (sol_age sol) (sol_ratio sol).

(** How one pass of the loop of [estvel] ends. *)
Inductive estvel_step_t :=
| EstvelBreak                                 (* [break], nothing written *)
| EstvelDone (x Q : list double)              (* converged: write and [break] *)
| EstvelNext (x : list double).               (* next pass *)

(** Body of [for (i=0;i<MAXITR;i++)] of [estvel]. *)
Definition estvel_step (e0 : list double) (opt : prcopt_t) (sol : sol_t)
    (azel : list double) (vsat : list Z) (x : list double) : estvel_step_t :=
  let err := opt_err opt !!! 4%nat in
  let '(v, Hm) := resdop e0 (sol_rr sol) x azel vsat err in
  let nv := length v in
  if (nv <? 4)%nat then EstvelBreak
  else
    let '(info, dx, Q) := lsq Hm v 4 nv in
    if negb (info =? 0)%Z then EstvelBreak
    else
      let x := add_dx 4 x dx in
      if norm dx 4 <? 1E-6 then EstvelDone x Q else EstvelNext x.

(** The loop with [k] passes left. *)
Fixpoint estvel_loop (e0 : list double) (opt : prcopt_t) (k : nat) (sol : sol_t)
    (azel : list double) (vsat : list Z) (x : list double) : sol_t :=
  match k with
  | O => sol
  | S k' =>
      match estvel_step e0 opt sol azel vsat x with
      | EstvelBreak => sol
      | EstvelDone x' Q => estvel_commit sol x' Q
      | EstvelNext x' => estvel_loop e0 opt k' sol azel vsat x'
      end
  end.

(** estimate receiver velocity *)
Definition estvel (e0 : list double) (opt : prcopt_t) (sol : sol_t)
    (azel : list double) (vsat : list Z) : sol_t :=
  estvel_loop e0 opt MAXITR sol azel vsat (replicate 4 0.0).

End EstVel.

(** ** Single-point positioning *)

(** The indeterminate values one call of [pntpos] can read: the locals of
    [rescode] in its own call of [estpos] and in the call made for each RAIM
    candidate, the buffer [resp], the buffers [vsat_e], [resp_e], [msg_e] of
    [raim_fde], and the local [e] of [resdop]. *)
Record pntpos_indet := mk_indet {
  pi_lc : rescode_locals;
  pi_resp : list double;
  pi_raim_lc : nat -> rescode_locals;
  pi_vsat_e : list Z;
  pi_resp_e : list double;
  pi_msg_e : string;
  pi_e : list double
}.

(** The return value of [pntpos] and its output arguments; [azel] and [ssat]
    are [None] for a NULL pointer. *)
Record pntpos_res := mk_pres {
  p_stat : Z;
  p_sol : sol_t;
  p_azel : option (list double);
  p_ssat : option (list ssat_t);
  p_msg : string
}.

(** The state after the position part of [pntpos]. *)
Record pos_res := mk_posres {
  ps_stat : Z;
  ps_sol : sol_t;
  ps_azel : list double;
  ps_vsat : list Z;
  ps_resp : list double;
  ps_msg : string
}.

Section PntPos.
Context `{rtk : RtkLib}.

(** [opt_]: for precise positioning the broadcast ionosphere model and
    Saastamoinen are forced. *)
Definition pntpos_opt (opt : prcopt_t) : prcopt_t :=
  if decide (opt_mode opt = PMODE_SINGLE) then opt
  else mk_prcopt (opt_mode opt) IONOOPT_BRDC TROPOPT_SAAS (opt_sateph opt)
         (opt_elmin opt) (opt_snrmask opt) (opt_err opt) (opt_maxgdop opt)
         (opt_posopt opt).

(** The first loop over [ssat]. *)
Definition ssat_clear (s : ssat_t) : ssat_t :=
  mk_ssat 0 (<[1%nat := 0.0]> (<[0%nat := 0.0]> (ssat_azel s)))
          (<[0%nat := 0.0]> (ssat_resp s)) (<[0%nat := 0.0]> (ssat_resc s))
          (<[0%nat := 0%Z]> (ssat_snr s)).

(** Body of the second loop over [ssat]. *)
Definition ssat_fill (obs : list obsd_t) (azel_ : list double) (vsat : list Z)
    (resp : list double) (ssat : list ssat_t) (i : nat) : list ssat_t :=
  let k := Z.to_nat (obs_sat (obs !!! i) - 1) in
  let s := ssat !!! k in
  let s := mk_ssat (ssat_vs s)
             (<[1%nat := azel_ !!! (1 + i * 2)%nat]>
                (<[0%nat := azel_ !!! (i * 2)%nat]> (ssat_azel s)))
             (ssat_resp s) (ssat_resc s)
             (<[0%nat := obs_SNR (obs !!! i) !!! 0%nat]> (ssat_snr s)) in
  let s := if (vsat !!! i =? 0)%Z then s
           else mk_ssat 1 (ssat_azel s) (<[0%nat := resp !!! i]> (ssat_resp s))
                  (ssat_resc s) (ssat_snr s) in
  <[k := s]> ssat.

Definition pntpos_ssat (obs : list obsd_t) (n : nat) (azel_ : list double)
    (vsat : list Z) (resp : list double) (ssat : list ssat_t) : list ssat_t :=
  foldl (ssat_fill obs azel_ vsat resp)
        (foldl (fun ss i => <[i := ssat_clear (ss !!! i)]> ss) ssat (seq 0 MAXSAT))
        (seq 0 n).

(** [for (i=0;i<n*2;i++) azel[i]=azel_[i]] *)
Definition pntpos_azel (n : nat) (azel_ azel : list double) : list double :=
  foldl (fun a i => <[i := azel_ !!! i]> a) azel (seq 0 (n * 2)).

(** The position part: [satposs], [estpos] and, when [estpos] failed with at
    least six observations and [posopt[4]] set, [raim_fde]. [sol] is the
    solution after [sol->time=obs[0].time], [opt] the caller's options. *)
Definition pntpos_position (u : pntpos_indet) (obs : list obsd_t) (n : nat)
    (nav : nav_t) (opt : prcopt_t) (sol : sol_t) (msg : string) : pos_res :=
  let opt_ := pntpos_opt opt in
  let '(rs, dts, var, svh) := satposs (sol_time sol) obs n nav (opt_sateph opt_) in
  let r := estpos obs n rs dts var svh nav opt_ (pi_lc u) sol
                  (zeros 2 n) (replicate MAXOBS 0%Z) (pi_resp u) msg in
  if (e_stat r =? 0)%Z && (6 <=? n)%nat && negb (opt_posopt opt !!! 4%nat =? 0)%Z
  then
    let ra := raim_fde obs n rs dts var svh nav opt_ (pi_raim_lc u)
                (pi_vsat_e u) (pi_resp_e u) (pi_msg_e u)
                (e_sol r) (e_azel r) (e_vsat r) (e_resp r) (e_msg r) in
    mk_posres (ra_stat ra) (ra_sol ra) (ra_azel ra) (ra_vsat ra) (ra_resp ra)
              (ra_msg ra)
  else mk_posres (e_stat r) (e_sol r) (e_azel r) (e_vsat r) (e_resp r) (e_msg r).

(** single-point positioning. The first statement of the function,
    [trace(3,"pntpos  : tobs=%s n=%d\n",time_str(obs[0].time,3),n)], reads
    [obs[0]] before [n] is tested. Where [obs] holds no record that read is
    outside every object: the call has no result, [None] here. *)
Definition pntpos (u : pntpos_indet) (obs : list obsd_t) (n : Z) (nav : nav_t)
    (opt : prcopt_t) (sol : sol_t) (azel : option (list double))
    (ssat : option (list ssat_t)) (msg : string) : option pntpos_res :=
  match obs !! 0%nat with
  | None => None
  | Some _ =>
      Some
        (let sol := set_stat sol SOLQ_NONE in
         if (n <=? 0)%Z then mk_pres 0 sol azel ssat "no observation data"
         else
           let m := Z.to_nat n in
           let sol := set_time sol (obs_time (obs !!! 0%nat)) in
           let opt_ := pntpos_opt opt in
           let '(rs, dts, var, svh) :=
             satposs (sol_time sol) obs m nav (opt_sateph opt_) in
           let ps := pntpos_position u obs m nav opt sol "" in
           (* estimate receiver velocity with Doppler *)
           let sol :=
             if negb (ps_stat ps =? 0)%Z
             then estvel obs m rs dts nav (pi_e u) opt_ (ps_sol ps) (ps_azel ps)
                         (ps_vsat ps)
             else estvel obs m rs dts nav (pi_e u) opt_ (ps_sol ps) (ps_azel ps)
                         (ps_vsat ps) in
           mk_pres (ps_stat ps) sol
                   (option_map (pntpos_azel m (ps_azel ps)) azel)
                   (option_map (pntpos_ssat obs m (ps_azel ps) (ps_vsat ps)
                                            (ps_resp ps)) ssat)
                   (ps_msg ps))
  end.

End PntPos.

(** ** A simulated set of collaborators

    An instance of [RtkLib] on which the model runs: the constants of
    rtklib.h, [dot], [norm] and [geodist] as rtkcmn.c computes them, and
    simple stand-ins for the rest (a least-squares solver that reports the
    zero step, a fixed DOP, a satellite seen at the zenith, no SNR mask, no
    atmosphere model data). The theorems below hold for every instance; this
    one provides the concrete runs. *)

Module Sim.

Definition sim_dot (a b : list double) (n : nat) : double :=
  foldl (fun c i => c + a !!! i * b !!! i) 0.0 (seq 0 n).

Definition sim_norm (a : list double) (n : nat) : double :=
  PrimFloat.sqrt (sim_dot a a n).

Definition RE_WGS84 : double := 6378137.0.
Definition sim_CLIGHT : double := 299792458.0.
Definition sim_OMGE : double := 7.2921151467E-5.

Definition sim_geodist (rs rr : list double) : double * list double :=
  if sim_norm rs 3 <? RE_WGS84 then (-1.0, replicate 3 0.0)
  else
    let e := map (fun i => rs !!! i - rr !!! i) (seq 0 3) in
    let r := sim_norm e 3 in
    (r + sim_OMGE * (rs !!! 0%nat * rr !!! 1%nat - rs !!! 1%nat * rr !!! 0%nat)
         / sim_CLIGHT,
     map (fun x => x / r) e).

(** Satellite numbers: 1-32 GPS, 33-59 GLONASS, 60-95 Galileo, 96-105 QZSS,
    106-168 BeiDou, 169-182 NavIC, 183-221 SBAS. *)
Definition sim_satsys (sat : Z) : sys_t :=
  if (sat <=? 0)%Z then SYS_NONE
  else if (sat <=? 32)%Z then SYS_GPS
  else if (sat <=? 59)%Z then SYS_GLO
  else if (sat <=? 95)%Z then SYS_GAL
  else if (sat <=? 105)%Z then SYS_QZS
  else if (sat <=? 168)%Z then SYS_CMP
  else if (sat <=? 182)%Z then SYS_IRN
  else if (sat <=? 221)%Z then SYS_SBS
  else SYS_NONE.

(** The first entries of the table, then its last value. *)
Definition sim_chisqr (k : nat) : double :=
  nth k [10.8; 13.8; 16.3; 18.5; 20.5; 22.5; 24.3; 26.1; 27.9; 29.6] 149.0.

(** Odd and even polynomials for the two circular functions. *)
Definition sim_sin (x : double) : double :=
  x - x * x * x / 6.0 + x * x * x * x * x / 120.0.
Definition sim_cos (x : double) : double :=
  1.0 - x * x / 2.0 + x * x * x * x / 24.0.

#[global] Instance sim : RtkLib := {|
  CLIGHT := sim_CLIGHT; OMGE := sim_OMGE; D2R := 0.017453292519943295;
  SNR_UNIT := 0.001;
  FREQ1 := 1.57542E9; FREQ2 := 1.22760E9; FREQ5 := 1.17645E9;
  FREQ7 := 1.20714E9; FREQ9 := 2.492028E9;
  FREQ1_GLO := 1.60200E9; FREQ2_GLO := 1.24600E9;
  FREQ1_CMP := 1.561098E9; FREQ2_CMP := 1.20714E9;
  EFACT_GPS := 1.0; EFACT_GLO := 1.5; EFACT_SBS := 3.0;
  MAXOBS := 96; MAXSAT := 221;
  CODE_L1C := 1; CODE_L1P := 2; CODE_L2C := 14; CODE_L2I := 40;
  chisqr := sim_chisqr;
  sin := sim_sin; cos := sim_cos;
  fmt_1f := fun _ => "#.#"%string;
  cast_float := fun x => x;
  satsys := sim_satsys;
  satexclude := fun _ _ svh _ => negb (svh =? 0)%Z;
  testsnr := fun _ _ _ _ _ => false;
  sat2freq := fun _ _ _ => 1.57542E9;
  getseleph := fun _ => 0%Z;
  geodist := sim_geodist;
  satazel := fun _ _ => (1.5707963267948966, [0.0; 1.5707963267948966]);
  ecef2pos := fun _ => replicate 3 0.0;
  xyz2enu := fun _ => [1.0; 0.0; 0.0; 0.0; 1.0; 0.0; 0.0; 0.0; 1.0];
  dot := sim_dot;
  norm := sim_norm;
  matmul := fun _ _ _ _ _ _ B _ _ => B;
  lsq := fun _ _ n _ => (0%Z, replicate n 0.0, replicate (n * n) 0.0);
  dops := fun _ _ _ => [2.0; 1.5; 1.0; 1.0];
  timeadd := fun t sec => mk_gtime (gt_time t) (gt_sec t + sec);
  ionmodel := fun _ _ _ _ => 0.0;
  sbsioncorr := fun _ _ _ _ => (0%Z, 0.0, 0.0);
  iontec := fun _ _ _ _ _ => (0%Z, 0.0, 0.0);
  tropmodel := fun _ _ _ _ => 0.0;
  sbstropcorr := fun _ _ _ => (0.0, 0.0);
  satposs := fun _ obs n _ _ =>
    (flat_map (fun i => [26000000.0 + int_double (Z.of_nat i); 0.0; 0.0;
                         0.0; 3000.0; 0.0]) (seq 0 n),
     replicate (2 * n) 0.0, replicate n 0.0, replicate n 0%Z)
|}.

Definition t0 : gtime_t := mk_gtime 1600000000 0.0.

(** An observation of satellite [sat] with pseudorange [P1], no second
    frequency and Doppler [D1]. *)
Definition an_obs (sat : Z) (P1 D1 : double) : obsd_t :=
  mk_obsd t0 sat [45000%Z; 0%Z] [1%Z; 0%Z] [0.0; 0.0] [P1; 0.0] [D1; 0.0].

Definition nav0 : nav_t := mk_nav [] [] (replicate 221 (replicate 3 0.0))
                                  (replicate 8 0.0) (replicate 8 0.0).

Definition opt0 : prcopt_t :=
  mk_prcopt PMODE_SINGLE IONOOPT_OFF TROPOPT_OFF EPHOPT_BRDC
            0.2617993877991494 (mk_snrmask [0%Z; 0%Z] [])
            [100.0; 0.003; 0.003; 0.0; 1.0] 30.0 [0; 0; 0; 0; 1; 0]%Z.

Definition lc_zero : rescode_locals := mk_locals 0.0 0.0 0.0 0.0.

(** An epoch of [m] satellites numbered from [first]: satellite [k] stands
    where [satposs] of this instance puts it, at range [26000000 + k] of the
    origin, and its pseudorange is that range plus [res k]. *)
Definition epoch (first : Z) (m : nat) (res : nat -> double) : list obsd_t :=
  map (fun k => an_obs (first + Z.of_nat k)
                       (26000000.0 + int_double (Z.of_nat k) + res k) 100.0)
      (seq 0 m).

Definition epoch_rs (m : nat) : list double :=
  (satposs t0 [] m nav0 EPHOPT_BRDC).1.1.1.
Definition epoch_dts (m : nat) : list double := replicate (2 * m) 0.0.
Definition epoch_vare (m : nat) : list double := replicate m 0.0.
Definition epoch_svh (m : nat) : list Z := replicate m 0%Z.

(** Seven GPS satellites, the first two 3 m off, the others 1 m off. *)
Definition obs7 : list obsd_t :=
  epoch 1 7 (fun k => if (k <? 2)%nat then 3.0 else 1.0).

(** Three GPS satellites. *)
Definition obs3 : list obsd_t := epoch 1 3 (fun _ => 1.0).

(** Four GLONASS satellites. *)
Definition obs_glo : list obsd_t := epoch 33 4 (fun _ => 1.0).

(** Five GPS satellites, each 3 m off: too few for RAIM, too far off for the
    chi-square test. *)
Definition obs5 : list obsd_t := epoch 1 5 (fun _ => 3.0).

(** A solution of an earlier epoch, with a velocity covariance of 9. *)
Definition sol9 : sol_t :=
  mk_sol t0 (replicate 6 0.0) (replicate 6 0.0) (replicate 6 9.0)
         (replicate 6 0.0) 0 SOLQ_SINGLE 0 0.0 0.0.

(** One GPS satellite 1 m off, and one without a pseudorange. *)
Definition obs1 : list obsd_t := epoch 1 1 (fun _ => 1.0).
Definition obs_nop : list obsd_t := [an_obs 1 0.0 100.0].

(** Indeterminate contents that happen to be zero. *)
Definition u0 : pntpos_indet :=
  mk_indet lc_zero (replicate 7 0.0) (fun _ => lc_zero) (replicate 7 0%Z)
           (replicate 7 0.0) EmptyString (replicate 3 0.0).






(** The first iteration of [rescode] on one observation list of [m] records,
    from the zero state, entered with the locals holding [lc]. *)
Definition first_rescode (o : list obsd_t) (m : nat) (lc : rescode_locals)
  : rescode_st :=
  rescode 0 o m (epoch_rs m) (epoch_dts m) (epoch_vare m) (epoch_svh m) nav0
          (replicate 8 0.0) opt0 lc (zeros 2 m) (replicate m 0%Z)
          (replicate m 0.0).

(** Six GPS satellites, each 1 m off: [estpos] accepts the solution. *)
Definition obs6 : list obsd_t := epoch 1 6 (fun _ => 1.0).

Definition est6 : estpos_res :=
  estpos obs6 6 (epoch_rs 6) (epoch_dts 6) (epoch_vare 6) (epoch_svh 6) nav0
         opt0 lc_zero sol_zero (zeros 2 6) (replicate 6 0%Z) (replicate 6 0.0)
         EmptyString.

(** The options of [opt0] for a precise positioning mode. *)
Definition opt_precise : prcopt_t :=
  mk_prcopt PMODE_PRECISE IONOOPT_OFF TROPOPT_OFF EPHOPT_BRDC
            0.2617993877991494 (mk_snrmask [0%Z; 0%Z] [])
            [100.0; 0.003; 0.003; 0.0; 1.0] 30.0 [0; 0; 0; 0; 1; 0]%Z.


(** The solution [sol9] with a position 1000 km off along the first axis. *)
Definition sol9_far : sol_t :=
  mk_sol t0 [1000000.0; 0.0; 0.0; 0.0; 0.0; 0.0] (replicate 6 0.0)
         (replicate 6 9.0) (replicate 6 0.0) 0 SOLQ_SINGLE 0 0.0 0.0.

End Sim.

(** ** Predicates of the statements *)

(** A pass of the loop of [rescode] at index [i] that forms no row. *)
Definition pass_skips (i : nat) (st st' : rescode_st) : Prop :=
  r_v st' = r_v st /\ r_H st' = r_H st /\ r_var st' = r_var st
  /\ r_ns st' = r_ns st /\ r_mask st' = r_mask st
  /\ r_vsat st' = <[i := 0%Z]> (r_vsat st)
  /\ r_resp st' = <[i := 0.0]> (r_resp st).

(** The index of [mask] that a row of constellation [sys] sets. *)
Definition sys_mask (sys : sys_t) : nat :=
  match sys with
  | SYS_GLO => 1 | SYS_GAL => 2 | SYS_CMP => 3 | SYS_IRN => 4 | _ => 0
  end.

(** The design row of a satellite of constellation [sys] with line-of-sight
    vector [e]. *)
Definition sys_row (sys : sys_t) (e : list double) : list double :=
  match sys_mask sys with
  | O => design_row e
  | k => <[(k + 3)%nat := 1.0]> (design_row e)
  end.

(** GPS, SBAS and QZSS share the receiver clock column. *)
Definition gps_clock (sys : sys_t) : Prop :=
  sys = SYS_GPS \/ sys = SYS_SBS \/ sys = SYS_QZS.

(** A pass of the loop of [rescode] at index [i] that forms the row of a
    satellite of constellation [sys]. *)
Definition pass_adds (i : nat) (sys : sys_t) (st st' : rescode_st) : Prop :=
  exists vi e vr,
    r_v st' = r_v st ++ [vi] /\ r_H st' = r_H st ++ [sys_row sys e]
    /\ r_var st' = r_var st ++ [vr] /\ r_ns st' = S (r_ns st)
    /\ r_mask st' = <[sys_mask sys := 1%Z]> (r_mask st)
    /\ r_vsat st' = <[i := 1%Z]> (<[i := 0%Z]> (r_vsat st))
    /\ sys <> SYS_NONE.

(** Column [j] of [Hm] has an entry equal to 1. *)
Definition col_has_one (Hm : list (list double)) (j : nat) : Prop :=
  exists row, row ∈ Hm /\ row !!! j = 1.0.

(** Column [j] of [Hm] holds zeros only. *)
Definition col_all_zero (Hm : list (list double)) (j : nat) : Prop :=
  forall row, row ∈ Hm -> row !!! j = 0.0.

(** Column [j] of [Hm] has an entry that is not zero, as a test. *)
Definition col_nonzero (Hm : list (list double)) (j : nat) : bool :=
  existsb (fun row => negb (row !!! j =? 0.0)) Hm.

(** The state of [mask] against the rows formed so far: an index that is
    set has a row with a 1 in its column, and an inter-system index that is
    not set has a column of zeros. *)
Definition mask_inv (st : rescode_st) : Prop :=
  length (r_mask st) = (NX - 3)%nat
  /\ (forall k, (k < NX - 3)%nat -> r_mask st !!! k <> 0%Z ->
                col_has_one (r_H st) (k + 3))
  /\ (forall k, (1 <= k < NX - 3)%nat -> r_mask st !!! k = 0%Z ->
                col_all_zero (r_H st) (k + 3)).

(** [v], [H] and [var] have the same number of rows. *)
Definition rows_inv (st : rescode_st) : Prop :=
  length (r_H st) = length (r_v st) /\ length (r_var st) = length (r_v st).

(** The indices of [mask] that are not set. *)
Definition unseen (mask : list Z) : list nat :=
  filter (fun i => mask !!! i = 0%Z) (seq 0 (NX - 3)).

Section ClockSpec.
Context `{rtk : RtkLib}.
Variables (obs : list obsd_t) (n : nat).

(** Before the pass at index [i]: if [mask[0]] is set, an earlier pass has
    kept a satellite of GPS, SBAS or QZSS, and its flag is still up. *)
Definition clock_inv (i : nat) (st : rescode_st) : Prop :=
  (n <= length (r_vsat st))%nat
  /\ length (r_mask st) = (NX - 3)%nat
  /\ (r_mask st !!! 0%nat <> 0%Z ->
      exists j, (j < i)%nat /\ (j < n)%nat /\ r_vsat st !!! j <> 0%Z
                /\ gps_clock (satsys (obs_sat (obs !!! j)))).

End ClockSpec.

Section EstPosSpec.
Context `{rtk : RtkLib}.

Variables (obs : list obsd_t) (n : nat)
          (rs dts vare : list double) (svh : list Z) (nav : nav_t)
          (opt : prcopt_t) (lc0 : rescode_locals) (sol : sol_t)
          (azel0 : list double) (vsat0 : list Z) (resp0 : list double)
          (msg : string).

(** The passes of the iteration loop that a call of [estpos] reaches: pass
    [i] is entered with the state vector [x] and the arrays [azel], [vsat],
    [resp]. *)
Inductive estpos_reaches
  : nat -> list double -> list double -> list Z -> list double -> Prop :=
| estpos_reaches_first :
    estpos_reaches 0 (estpos_x0 sol) azel0 vsat0 resp0
| estpos_reaches_next i x azel vsat resp x' azel' vsat' resp' :
    estpos_reaches i x azel vsat resp ->
    (S i < MAXITR)%nat ->
    estpos_step obs n rs dts vare svh nav opt lc0 i x sol azel vsat resp msg
    = EstposNext x' azel' vsat' resp' ->
    estpos_reaches (S i) x' azel' vsat' resp'.

End EstPosSpec.

Section EstVelSpec.
Context `{rtk : RtkLib}.

Variables (obs : list obsd_t) (n : nat) (rs dts : list double) (nav : nav_t)
          (e0 : list double) (opt : prcopt_t) (sol : sol_t)
          (azel : list double) (vsat : list Z).

(** The passes of the loop of [estvel] that a call reaches, with the state
    vector on entry. *)
Inductive estvel_reaches : nat -> list double -> Prop :=
| estvel_reaches_first : estvel_reaches 0 (replicate 4 0.0)
| estvel_reaches_next i x x' :
    estvel_reaches i x ->
    estvel_step obs n rs dts nav e0 opt sol azel vsat x = EstvelNext x' ->
    estvel_reaches (S i) x'.

(** A pass converges: at least 4 range-rate residuals, a least-squares
    solve that reports no error, and a step shorter than 1E-6; [x'] and [Q]
    are the updated state and the covariance of that solve. *)
Definition estvel_converges (x x' Q : list double) : Prop :=
  exists v Hm dx,
    resdop obs n rs dts nav e0 (sol_rr sol) x azel vsat (opt_err opt !!! 4%nat)
    = (v, Hm)
    /\ (4 <= length v)%nat
    /\ lsq Hm v 4 (length v) = (0%Z, dx, Q)
    /\ (norm dx 4 <? 1E-6) = true
    /\ x' = add_dx 4 x dx.

(** A pass aborts: fewer than 4 residuals, or a failed solve. *)
Definition estvel_aborts (x : list double) : Prop :=
  exists v Hm,
    resdop obs n rs dts nav e0 (sol_rr sol) x azel vsat (opt_err opt !!! 4%nat)
    = (v, Hm)
    /\ ((length v < 4)%nat \/ (lsq Hm v 4 (length v)).1.1 <> 0%Z).

End EstVelSpec.

Section RaimSpec.
Context `{rtk : RtkLib}.
Variables (obs : list obsd_t) (n : nat).

(** The pass over candidate [i] commits the exclusion of satellite [i]: the
    outputs are those of the reduced solution [r] with [vsat[i]=0], and the
    best RMS becomes [rms_e]. *)
Definition raim_commits (i : nat) (rms_e : double) (r : estpos_res)
    (st st' : raim_st) : Prop :=
  ra_stat st' = 1%Z /\ ra_sat st' = obs_sat (obs !!! i)
  /\ ra_sol st' = e_sol r /\ ra_msg st' = e_msg r /\ ra_rms st' = rms_e
  /\ ra_vsat st'
     = <[i := 0%Z]> (raim_save n i (ra_azel st) (ra_vsat st) (ra_resp st)
                               (e_azel r) (e_vsat r) (e_resp r)).1.2.

(** The pass keeps the incumbent: no output and no local changes. *)
Definition raim_keeps (st st' : raim_st) : Prop :=
  ra_stat st' = ra_stat st /\ ra_sat st' = ra_sat st
  /\ ra_sol st' = ra_sol st /\ ra_msg st' = ra_msg st
  /\ ra_rms st' = ra_rms st /\ ra_vsat st' = ra_vsat st
  /\ ra_azel st' = ra_azel st /\ ra_resp st' = ra_resp st.

End RaimSpec.

(** ** Further predicates *)

(** The number of flags set among the first [m] entries of [vsat]. *)
Definition flag_count (vsat : list Z) (m : nat) : nat :=
  length (filter (fun j => vsat !!! j <> 0%Z) (seq 0 m)).

Section VisitSpec.
Context `{rtk : RtkLib}.
Variables (obs : list obsd_t) (n : nat).

(** The pass at index [i] ends in the duplicate branch. *)
Definition dup_at (i : nat) : bool :=
  negb (bool_decide (satsys (obs_sat (obs !!! i)) = SYS_NONE))
  && ((i <? n - 1)%nat && (i <? MAXOBS - 1)%nat
      && (obs_sat (obs !!! i) =? obs_sat (obs !!! (i + 1)%nat))%Z).

(** The indices at which the loop of [rescode] runs a pass, from index [i]
    on, with [fuel] passes left. *)
Fixpoint visits (fuel i : nat) : list nat :=
  match fuel with
  | O => []
  | S fuel' =>
      if (i <? n)%nat && (i <? MAXOBS)%nat
      then i :: visits fuel' (if dup_at i then i + 2 else i + 1)%nat
      else []
  end.

End VisitSpec.

Section ShapeSpec.
Variable (n : nat).

(** The shape of the state before the pass at index [i]. *)
Definition shape_inv (i : nat) (st : rescode_st) : Prop :=
  rows_inv st
  /\ Forall (fun row => length row = NX) (r_H st)
  /\ r_ns st = length (r_v st)
  /\ (r_ns st <= i)%nat /\ (i <= n)%nat
  /\ length (r_mask st) = (NX - 3)%nat
  /\ (NX - 3 <= r_ns st + length (unseen (r_mask st)))%nat
  /\ (1 <= r_ns st -> length (unseen (r_mask st)) <= 4)%nat.

End ShapeSpec.

(** The messages [estpos] leaves when it returns 0. *)
Definition estpos_failure_msg (m : string) : Prop :=
  exists rest,
    m = ("lack of valid sats ns=" ++ rest)%string
    \/ m = ("lsq error info=" ++ rest)%string
    \/ m = ("iteration divergent i=" ++ rest)%string
    \/ m = ("chi-square error" ++ rest)%string
    \/ m = ("gdop error" ++ rest)%string.

(** [opt->sateph==EPHOPT_SBAS?SOLQ_SBAS:SOLQ_SINGLE] *)
Definition solq_of (opt : prcopt_t) : solq_t :=
  if decide (opt_sateph opt = EPHOPT_SBAS) then SOLQ_SBAS else SOLQ_SINGLE.

(** The slot of the reduced arrays that holds record [j] when record [i] is
    left out, and the record held by slot [k]. *)
Definition slot_of (i j : nat) : nat := if (j <? i)%nat then j else (j - 1)%nat.
Definition record_of (i k : nat) : nat := if (k <? i)%nat then k else S k.

(** What [msg_e] of [raim_fde] can hold: its indeterminate initial content
    [msg_e0], or a message that [estpos] left for a candidate that failed. *)
Definition raim_stale_msg (msg_e0 m : string) : Prop :=
  m = msg_e0 \/ estpos_failure_msg m.

(** The records among the first [m] whose flag is set, in their order. *)
Definition flagged (vsat : list Z) (m : nat) : list nat :=
  filter (fun j => vsat !!! j <> 0%Z) (seq 0 m).

Section KeptSpec.
Context `{rtk : RtkLib}.
Variables (iter : nat) (obs : list obsd_t) (n : nat) (rs vare : list double)
          (svh : list Z) (nav : nav_t) (x : list double) (opt : prcopt_t).

(** The tests that record [i] has passed when [rescode] forms its row: those
    of every iteration and, after the first iteration, the elevation mask. *)
Definition passes_tests (i : nat) : Prop :=
  let rr := [x !!! 0%nat; x !!! 1%nat; x !!! 2%nat] in
  let g := geodist (drop (i * 6) rs) rr in
  satsys (obs_sat (obs !!! i)) <> SYS_NONE
  /\ dup_at obs n i = false
  /\ satexclude (obs_sat (obs !!! i)) (vare !!! i) (svh !!! i) opt = false
  /\ (g.1 <=? 0.0) = false
  /\ ((prange (obs !!! i) nav opt).1 =? 0.0) = false
  /\ ((0 < iter)%nat ->
      ((satazel (ecef2pos rr) g.2).1 <? opt_elmin opt) = false).

End KeptSpec.

(** * Properties *)

Section PrangeProps.
Context `{rtk : RtkLib}.

Lemma zero_eqb_zero : (0.0 =? 0.0) = true.
Proof. reflexivity. Qed.

(** Missing data: [prange] returns 0 and leaves 0 in [*var]. *)
Lemma prange_missing (o : obsd_t) (nav : nav_t) (opt : prcopt_t) :
  (obs_P o !!! 0%nat =? 0.0) = true
  \/ (opt_ionoopt opt = IONOOPT_IFLC /\ (obs_P o !!! 1%nat =? 0.0) = true) ->
  prange o nav opt = (0.0, 0.0).
Proof.
  intros Hmiss. unfold prange.
  destruct Hmiss as [H1 | [Hopt H2]].
  - now rewrite H1.
  - rewrite H2, (bool_decide_eq_true_2 _ Hopt), andb_true_r, orb_true_r.
    reflexivity.
Qed.

(** A row is formed only from a nonzero pseudorange. *)
Lemma rescode_row_zero obs nav x opt dts vare i sys r e lc st vmeas :
  prange (obs !!! i) nav opt = (0.0, vmeas) ->
  rescode_row obs dts vare nav x opt i sys r e lc st = st.
Proof.
  intros Hp. unfold rescode_row. rewrite Hp, zero_eqb_zero. reflexivity.
Qed.

End PrangeProps.

Section SkipProps.
Context `{rtk : RtkLib}.

Lemma rescode_obs_zero_prange iter obs n rs dts vare svh nav x opt lc0 i st vmeas :
  prange (obs !!! i) nav opt = (0.0, vmeas) ->
  pass_skips i st (rescode_obs iter obs n rs dts vare svh nav x opt lc0 i st).2.
Proof.
  intros Hp. unfold rescode_obs.
  repeat case_match; simpl;
    rewrite ?(rescode_row_zero _ _ _ _ _ _ _ _ _ _ _ _ _ Hp);
    repeat split; reflexivity.
Qed.

(** C7. Whenever the primary pseudorange is 0, or the iono-free combination
    is selected and the secondary pseudorange is 0, [prange] returns 0, and
    the pass of [rescode] over that observation forms no row: nothing is
    appended to [v], [H], [var], the count [ns] and [mask] are unchanged, and
    [vsat[i]] and [resp[i]] are left at 0. *)
Theorem prange_missing_data_dropped
    iter obs n rs dts vare svh nav x opt lc0 i st :
  (obs_P (obs !!! i) !!! 0%nat =? 0.0) = true
  \/ (opt_ionoopt opt = IONOOPT_IFLC
      /\ (obs_P (obs !!! i) !!! 1%nat =? 0.0) = true) ->
  prange (obs !!! i) nav opt = (0.0, 0.0)
  /\ pass_skips i st
       (rescode_obs iter obs n rs dts vare svh nav x opt lc0 i st).2.
Proof.
  intros Hmiss. pose proof (prange_missing _ nav opt Hmiss) as Hp.
  split; [exact Hp | now apply rescode_obs_zero_prange with (vmeas := 0.0)].
Qed.

End SkipProps.

Section ValSolProps.
Context `{rtk : RtkLib}.



End ValSolProps.

Section EstPosProps.
Context `{rtk : RtkLib}.

Variables (obs : list obsd_t) (n : nat)
          (rs dts vare : list double) (svh : list Z) (nav : nav_t)
          (opt : prcopt_t) (lc0 : rescode_locals) (sol : sol_t)
          (azel0 : list double) (vsat0 : list Z) (resp0 : list double)
          (msg : string).

Local Abbreviation reaches :=
  (estpos_reaches obs n rs dts vare svh nav opt lc0 sol azel0 vsat0 resp0 msg).

Lemma estpos_reaches_bound i x azel vsat resp :
  reaches i x azel vsat resp -> (i < MAXITR)%nat.
Proof. destruct 1; [unfold MAXITR; lia | assumption]. Qed.

(** From a reached pass on, the call runs the rest of the loop. *)
Lemma estpos_from_reached i x azel vsat resp :
  reaches i x azel vsat resp ->
  estpos obs n rs dts vare svh nav opt lc0 sol azel0 vsat0 resp0 msg
  = estpos_loop obs n rs dts vare svh nav opt lc0 (MAXITR - i) i x sol
                azel vsat resp msg.
Proof.
  induction 1 as [|i x azel vsat resp x' azel' vsat' resp' Hr IH Hlt Hstep].
  - reflexivity.
  - rewrite IH. replace (MAXITR - i)%nat with (S (MAXITR - S i)) by lia.
    simpl. now rewrite Hstep.
Qed.

(** C5. In every pass of the iteration loop that [estpos] reaches, if
    [rescode] returns fewer than [NX = 8] rows, [estpos] returns 0 with the
    message "lack of valid sats ns=" followed by that row count, and the
    solution is the one it was given. *)
Theorem estpos_lack_of_valid_sats i x azel vsat resp :
  reaches i x azel vsat resp ->
  let st := rescode i obs n rs dts vare svh nav x opt lc0 azel vsat resp in
  (r_nv st < NX)%nat ->
  let r := estpos obs n rs dts vare svh nav opt lc0 sol azel0 vsat0 resp0 msg in
  e_stat r = 0%Z
  /\ e_msg r = ("lack of valid sats ns=" ++ fmt_d (Z.of_nat (r_nv st)))%string
  /\ e_sol r = sol.
Proof.
  intros Hreach st Hnv r. subst r.
  rewrite (estpos_from_reached _ _ _ _ _ Hreach).
  pose proof (estpos_reaches_bound _ _ _ _ _ Hreach) as Hlt.
  replace (MAXITR - i)%nat with (S (MAXITR - S i)) by lia.
  simpl. unfold estpos_step. fold st.
  apply Nat.ltb_lt in Hnv. rewrite Hnv. simpl. auto.
Qed.

End EstPosProps.

Section EstVelProps.
Context `{rtk : RtkLib}.

Variables (obs : list obsd_t) (n : nat) (rs dts : list double) (nav : nav_t)
          (e0 : list double) (opt : prcopt_t) (sol : sol_t)
          (azel : list double) (vsat : list Z).

Local Abbreviation reaches := (estvel_reaches obs n rs dts nav e0 opt sol azel vsat).
Local Abbreviation converges := (estvel_converges obs n rs dts nav e0 opt sol azel vsat).
Local Abbreviation aborts := (estvel_aborts obs n rs dts nav e0 opt sol azel vsat).

Lemma estvel_step_done x x' Q :
  estvel_step obs n rs dts nav e0 opt sol azel vsat x = EstvelDone x' Q
  <-> converges x x' Q.
Proof.
  unfold estvel_step, converges.
  destruct (resdop _ _ _ _ _ _ _ _ _ _ _) as [v Hm].
  destruct (Nat.ltb_spec (length v) 4) as [Hlt|Hge].
  - split; [discriminate|]. intros (v' & Hm' & dx & E & Hlen & _).
    injection E as <- <-. lia.
  - destruct (lsq Hm v 4 (length v)) as [[info dx] Q0] eqn:El.
    destruct (Z.eqb_spec info 0) as [->|Hne]; simpl.
    + destruct (norm dx 4 <? 1E-6) eqn:En.
      * split.
        -- intros E. injection E as <- <-. exists v, Hm, dx. auto.
        -- intros (v' & Hm' & dx' & E & _ & El' & _ & ->).
           injection E as <- <-. rewrite El in El'. now injection El' as <- <-.
      * split; [discriminate|].
        intros (v' & Hm' & dx' & E & _ & El' & En' & _).
        injection E as <- <-. rewrite El in El'. injection El' as <- <-.
        congruence.
    + split; [discriminate|].
      intros (v' & Hm' & dx' & E & _ & El' & _).
      injection E as <- <-. rewrite El in El'. now injection El'.
Qed.

Lemma estvel_step_break x :
  estvel_step obs n rs dts nav e0 opt sol azel vsat x = EstvelBreak
  <-> aborts x.
Proof.
  unfold estvel_step, aborts.
  destruct (resdop _ _ _ _ _ _ _ _ _ _ _) as [v Hm].
  destruct (Nat.ltb_spec (length v) 4) as [Hlt|Hge].
  - split; [|reflexivity]. intros _. exists v, Hm. auto.
  - destruct (lsq Hm v 4 (length v)) as [[info dx] Q0] eqn:El.
    destruct (Z.eqb_spec info 0) as [->|Hne]; simpl.
    + destruct (norm dx 4 <? 1E-6); (split; [discriminate|]);
        intros (v' & Hm' & E & [Hlt|Hne]); injection E as <- <-;
        try lia; rewrite El in Hne; now simpl in Hne.
    + split; [|reflexivity]. intros _. exists v, Hm. split; [reflexivity|].
      right. now rewrite El.
Qed.

(** The rest of the loop after a reached pass. *)
Lemma estvel_from_reached i x :
  reaches i x -> (i <= MAXITR)%nat ->
  estvel obs n rs dts nav e0 opt sol azel vsat
  = estvel_loop obs n rs dts nav e0 opt (MAXITR - i) sol azel vsat x.
Proof.
  induction 1 as [|i x x' Hr IH Hstep]; intros Hle.
  - reflexivity.
  - rewrite IH by lia. replace (MAXITR - i)%nat with (S (MAXITR - S i)) by lia.
    simpl. now rewrite Hstep.
Qed.

Lemma estvel_loop_cases k : forall i x,
  reaches i x -> (i + k = MAXITR)%nat ->
  let sol' := estvel_loop obs n rs dts nav e0 opt k sol azel vsat x in
  sol' = sol
  \/ exists j y y' Q,
       reaches j y /\ (j < MAXITR)%nat /\ converges y y' Q
       /\ sol' = estvel_commit sol y' Q.
Proof.
  induction k as [|k IH]; intros i x Hr Hk; simpl.
  - now left.
  - destruct (estvel_step obs n rs dts nav e0 opt sol azel vsat x) as [|x' Q|x'] eqn:Es.
    + now left.
    + right. exists i, x, x', Q. repeat split; try assumption; try lia.
      now apply estvel_step_done.
    + apply (IH (S i) x'); [econstructor; eassumption | lia].
Qed.

(** C3. [estvel] writes [sol->rr[3..5]] and [sol->qv[0..5]] only in a pass
    that converges (at least 4 Doppler residuals, a successful least-squares
    solve and a step shorter than 1E-6), and then it writes exactly these
    entries; when a reached pass aborts (fewer than 4 residuals or a failed
    solve), or all [MAXITR = 10] passes are used up, the solution is left as
    it was. The status of the position solution plays no part. *)
Theorem estvel_writes_only_on_convergence :
  let sol' := estvel obs n rs dts nav e0 opt sol azel vsat in
  (sol' = sol
   \/ exists i x x' Q,
        reaches i x /\ (i < MAXITR)%nat /\ converges x x' Q
        /\ sol' = estvel_commit sol x' Q)
  /\ (forall i x, reaches i x -> (i < MAXITR)%nat ->
                  aborts x -> sol' = sol)
  /\ (forall x, reaches MAXITR x -> sol' = sol)
  /\ (forall x Q,
        let c := estvel_commit sol x Q in
        sol_time c = sol_time sol /\ sol_qr c = sol_qr sol
        /\ sol_dtr c = sol_dtr sol /\ sol_type c = sol_type sol
        /\ sol_stat c = sol_stat sol /\ sol_ns c = sol_ns sol
        /\ sol_age c = sol_age sol /\ sol_ratio c = sol_ratio sol
        /\ (forall j, (j < 3)%nat -> sol_rr c !!! j = sol_rr sol !!! j)).
Proof.
  intros sol'. repeat split.
  - apply (estvel_loop_cases MAXITR 0); [constructor | lia].
  - intros i x Hr Hlt Hab. subst sol'.
    rewrite (estvel_from_reached _ _ Hr) by lia.
    replace (MAXITR - i)%nat with (S (MAXITR - S i)) by lia. simpl.
    apply estvel_step_break in Hab. now rewrite Hab.
  - intros x Hr. subst sol'. rewrite (estvel_from_reached _ _ Hr) by lia.
    now rewrite Nat.sub_diag.
  - intros j Hj. simpl.
    rewrite !list_lookup_total_insert_ne by lia. reflexivity.
Qed.

End EstVelProps.

(** ** Rows and columns of the design matrix *)

Section RescodeProps.
Context `{rtk : RtkLib}.

Variables (iter : nat) (obs : list obsd_t) (n : nat)
          (rs dts vare : list double) (svh : list Z) (nav : nav_t)
          (x : list double) (opt : prcopt_t) (lc0 : rescode_locals).

Lemma rescode_row_effect i sys r e lc st :
  sys <> SYS_NONE ->
  let st' := rescode_row obs dts vare nav x opt i sys r e lc st in
  st' = st
  \/ exists vi vr,
       r_v st' = r_v st ++ [vi] /\ r_H st' = r_H st ++ [sys_row sys e]
       /\ r_var st' = r_var st ++ [vr] /\ r_ns st' = S (r_ns st)
       /\ r_mask st' = <[sys_mask sys := 1%Z]> (r_mask st)
       /\ r_vsat st' = <[i := 1%Z]> (r_vsat st)
       /\ r_azel st' = r_azel st.
Proof.
  intros Hsys st'. subst st'. unfold rescode_row.
  destruct (prange (obs !!! i) nav opt) as [P vmeas].
  destruct (P =? 0.0); [now left|]. right.
  repeat case_match; simplify_eq; simpl; eexists _, _;
    repeat split; try reflexivity.
  all: destruct sys; try congruence; reflexivity.
Qed.

Lemma rescode_obs_effect i st :
  let st' := (rescode_obs iter obs n rs dts vare svh nav x opt lc0 i st).2 in
  pass_skips i st st' \/ pass_adds i (satsys (obs_sat (obs !!! i))) st st'.
Proof.
  intros st'. subst st'. unfold rescode_obs.
  set (sys := satsys (obs_sat (obs !!! i))).
  repeat case_match; simpl;
    try (left; repeat split; reflexivity);
    match goal with
    | |- context [rescode_row _ _ _ _ _ _ _ _ ?r ?e ?lc ?s] =>
        destruct (rescode_row_effect i sys r e lc s ltac:(assumption))
          as [-> | (vi & vr & Hv & HH & Hvar & Hns & Hm & Hvs & Haz)]
    end;
    try (left; repeat split; reflexivity);
    right; exists vi; eexists _, vr;
    rewrite Hv, HH, Hvar, Hns, Hm, Hvs; repeat split; try reflexivity; assumption.
Qed.

End RescodeProps.


Section MaskProps.
Context `{rtk : RtkLib}.

Variables (iter : nat) (obs : list obsd_t) (n : nat)
          (rs dts vare : list double) (svh : list Z) (nav : nav_t)
          (x : list double) (opt : prcopt_t) (lc0 : rescode_locals).

Lemma sys_mask_bound sys : (sys_mask sys < NX - 3)%nat.
Proof. destruct sys; simpl; unfold NX; lia. Qed.

Lemma sys_row_own_column sys e : sys_row sys e !!! (sys_mask sys + 3)%nat = 1.0.
Proof. destruct sys; reflexivity. Qed.

Lemma sys_row_other_column sys e k :
  (1 <= k < NX - 3)%nat -> k <> sys_mask sys ->
  sys_row sys e !!! (k + 3)%nat = 0.0.
Proof.
  intros [H1 H2] Hne. unfold NX in H2.
  destruct k as [|[|[|[|[|k]]]]]; try lia;
    destruct sys; simpl in Hne; try congruence; reflexivity.
Qed.

Lemma constraint_row_spec i j :
  (j < NX)%nat ->
  constraint_row i !!! j = if decide (j = i + 3)%nat then 1.0 else 0.0.
Proof.
  intros Hj. unfold constraint_row.
  rewrite list_lookup_total_alt.
  change (map ?f ?l) with (f <$> l).
  rewrite list_lookup_fmap, lookup_seq_lt by assumption. simpl.
  destruct (Nat.eqb_spec j (i + 3)); case_decide; congruence.
Qed.

Lemma mask_inv_init azel vsat resp :
  mask_inv (mk_rst [] [] [] azel vsat resp 0 (replicate (NX - 3) 0%Z)).
Proof.
  repeat split.
  - intros k Hk Hne. exfalso. apply Hne. simpl in *. unfold NX in Hk.
    do 5 (destruct k as [|k]; [reflexivity|]). lia.
  - intros k _ _ row Hin. simpl in Hin. now apply elem_of_nil in Hin.
Qed.

Lemma mask_inv_pass i sys st st' :
  mask_inv st -> pass_skips i st st' \/ pass_adds i sys st st' -> mask_inv st'.
Proof.
  intros (Hlen & Hone & Hzero) [Hs | Ha].
  - destruct Hs as (_ & HH & _ & _ & Hm & _). unfold mask_inv.
    rewrite HH, Hm. auto.
  - destruct Ha as (vi & e & vr & _ & HH & _ & _ & Hm & _).
    pose proof (sys_mask_bound sys) as Hb.
    unfold mask_inv. rewrite HH, Hm, length_insert. repeat split.
    + assumption.
    + intros k Hk Hne. destruct (decide (k = sys_mask sys)) as [->|Hk'].
      * exists (sys_row sys e). split; [|apply sys_row_own_column].
        apply elem_of_app. right. now apply list_elem_of_singleton.
      * rewrite list_lookup_total_insert_ne in Hne by congruence.
        destruct (Hone k Hk Hne) as (row & Hin & Hr).
        exists row. split; [|assumption]. apply elem_of_app. now left.
    + intros k Hk Hz row Hin. destruct (decide (k = sys_mask sys)) as [->|Hk'].
      * rewrite list_lookup_total_insert_eq in Hz by lia. discriminate.
      * rewrite list_lookup_total_insert_ne in Hz by congruence.
        apply elem_of_app in Hin as [Hin | Hin].
        -- now apply (Hzero k Hk Hz).
        -- apply list_elem_of_singleton in Hin as ->.
           now apply sys_row_other_column.
Qed.

Lemma rescode_loop_mask_inv fuel : forall i st,
  mask_inv st ->
  mask_inv (rescode_loop iter obs n rs dts vare svh nav x opt lc0 fuel i st).
Proof.
  induction fuel as [|fuel IH]; intros i st Hinv; simpl; [assumption|].
  destruct ((i <? n)%nat && (i <? MAXOBS)%nat); [|assumption].
  pose proof (rescode_obs_effect iter obs n rs dts vare svh nav x opt lc0 i st)
    as Heff.
  destruct (rescode_obs iter obs n rs dts vare svh nav x opt lc0 i st)
    as [dup st'].
  apply IH. eapply mask_inv_pass; eassumption.
Qed.

(** The constraint rows leave everything but [v], [H], [var] alone and
    append one row per index of [mask] that is not set. *)
Lemma rescode_constraint_fold (l : list nat) : forall st,
  let out := foldl rescode_constraint st l in
  let un := filter (fun i => r_mask st !!! i = 0%Z) l in
  r_v out = r_v st ++ map (fun _ => 0.0) un
  /\ r_H out = r_H st ++ map constraint_row un
  /\ r_var out = r_var st ++ map (fun _ => 0.01) un
  /\ r_mask out = r_mask st /\ r_vsat out = r_vsat st
  /\ r_azel out = r_azel st /\ r_resp out = r_resp st /\ r_ns out = r_ns st.
Proof.
  induction l as [|i l IH]; intros st; simpl.
  - rewrite !app_nil_r. auto 10.
  - rewrite filter_cons. specialize (IH (rescode_constraint st i)).
    simpl in IH. unfold rescode_constraint in *.
    destruct (Z.eqb_spec (r_mask st !!! i) 0) as [E|E].
    + rewrite decide_True by assumption. simpl in *.
      destruct IH as (-> & -> & -> & -> & -> & -> & -> & ->).
      rewrite <- !app_assoc. simpl. auto 10.
    + rewrite decide_False by assumption. assumption.
Qed.

End MaskProps.

Section ConstraintProps.
Context `{rtk : RtkLib}.

Variables (iter : nat) (obs : list obsd_t) (n : nat)
          (rs dts vare : list double) (svh : list Z) (nav : nav_t)
          (x : list double) (opt : prcopt_t) (lc0 : rescode_locals)
          (azel : list double) (vsat : list Z) (resp : list double).

(** C4, as the code has it. After the loop over the observations, [rescode]
    appends, in increasing [i], one constraint row for each of the five
    indices [i] of [mask] that is not set: residual 0, a design row whose only
    nonzero entry is a 1 in column [i+3], variance 0.01. An inter-system index
    (columns 4..7) is not set exactly when no satellite row has an entry in
    its column. In the returned design matrix each of the clock and offset
    columns 3..7 therefore has an entry equal to 1. Nothing is said about the
    position columns 0..2: they hold the line-of-sight components of the
    satellite rows only. *)
Theorem rescode_constraint_rows :
  let st := rescode_sats iter obs n rs dts vare svh nav x opt lc0 azel vsat resp in
  let out := rescode iter obs n rs dts vare svh nav x opt lc0 azel vsat resp in
  let un := unseen (r_mask st) in
  r_v out = r_v st ++ map (fun _ => 0.0) un
  /\ r_H out = r_H st ++ map constraint_row un
  /\ r_var out = r_var st ++ map (fun _ => 0.01) un
  /\ r_ns out = r_ns st
  /\ (forall i j, (j < NX)%nat ->
        constraint_row i !!! j = if decide (j = i + 3)%nat then 1.0 else 0.0)
  /\ (forall k, (1 <= k < NX - 3)%nat ->
        (k ∈ un <-> col_all_zero (r_H st) (k + 3)))
  /\ (forall j, (3 <= j < NX)%nat -> col_has_one (r_H out) j).
Proof.
  intros st out un.
  pose proof (rescode_constraint_fold (seq 0 (NX - 3)) st)
    as (Hv & HH & Hvar & _ & _ & _ & _ & Hns).
  change (foldl rescode_constraint st (seq 0 (NX - 3))) with out in *.
  change (filter _ (seq 0 (NX - 3))) with un in *.
  assert (Hinv : mask_inv st).
  { apply rescode_loop_mask_inv, mask_inv_init. }
  destruct Hinv as (Hlen & Hone & Hzero).
  assert (Hun : forall k, (k < NX - 3)%nat ->
                          (k ∈ un <-> r_mask st !!! k = 0%Z)).
  { intros k Hk. unfold un, unseen. rewrite list_elem_of_filter, elem_of_seq.
    split; [tauto|]. intros; split; [assumption|lia]. }
  repeat split; try assumption.
  - intros i j. apply constraint_row_spec.
  - intros Hin. apply Hzero; [assumption|]. apply Hun; [lia|assumption].
  - intros Hz. apply Hun; [lia|].
    destruct (decide (r_mask st !!! k = 0%Z)) as [|Hne]; [assumption|].
    destruct (Hone k ltac:(lia) Hne) as (row & Hin & Hr).
    rewrite (Hz row Hin) in Hr. discriminate.
  - intros j [Hj1 Hj2]. rewrite HH.
    replace j with ((j - 3) + 3)%nat by lia.
    assert (Hk : (j - 3 < NX - 3)%nat) by lia.
    destruct (decide (r_mask st !!! (j - 3)%nat = 0%Z)) as [Hz|Hne].
    + exists (constraint_row (j - 3)). split.
      * apply elem_of_app. right. apply list_elem_of_fmap_2. now apply Hun.
      * rewrite constraint_row_spec by lia. now rewrite decide_True.
    + destruct (Hone _ Hk Hne) as (row & Hin & Hr).
      exists row. split; [|assumption]. apply elem_of_app. now left.
Qed.

End ConstraintProps.

Section ClockProps.
Context `{rtk : RtkLib}.

Variables (iter : nat) (obs : list obsd_t) (n : nat)
          (rs dts vare : list double) (svh : list Z) (nav : nav_t)
          (x : list double) (opt : prcopt_t) (lc0 : rescode_locals).

Local Abbreviation clock_inv := (clock_inv obs n).

Lemma gps_clock_mask sys : sys <> SYS_NONE -> sys_mask sys = 0%nat -> gps_clock sys.
Proof. unfold gps_clock. destruct sys; simpl; intros; try congruence; auto. Qed.

Lemma clock_inv_pass i i' st st' :
  (i < n)%nat -> (i < i')%nat -> clock_inv i st ->
  pass_skips i st st' \/ pass_adds i (satsys (obs_sat (obs !!! i))) st st' ->
  clock_inv i' st'.
Proof.
  intros Hi Hi' (Hlen & Hml & Hc) [Hs | Ha].
  - destruct Hs as (_ & _ & _ & _ & Hm & Hvs & _). unfold clock_inv.
    rewrite Hm, Hvs, length_insert. repeat split; try assumption.
    intros Hne. destruct (Hc Hne) as (j & Hj & Hjn & Hv & Hg).
    exists j. rewrite list_lookup_total_insert_ne by lia.
    repeat split; try assumption; lia.
  - destruct Ha as (vi & e & vr & _ & _ & _ & _ & Hm & Hvs & Hsys).
    unfold clock_inv. rewrite Hm, Hvs, !length_insert.
    repeat split; try assumption.
    intros Hne.
    destruct (decide (sys_mask (satsys (obs_sat (obs !!! i))) = 0%nat)) as [E|E].
    + exists i. rewrite list_lookup_total_insert_eq
        by (rewrite length_insert; lia).
      repeat split; try assumption; try discriminate.
      now apply gps_clock_mask.
    + rewrite list_lookup_total_insert_ne in Hne by assumption.
      destruct (Hc Hne) as (j & Hj & Hjn & Hv & Hg).
      exists j. rewrite !list_lookup_total_insert_ne by lia.
      repeat split; try assumption; lia.
Qed.

Lemma rescode_loop_clock_inv fuel : forall i st,
  clock_inv i st ->
  exists i', clock_inv i'
               (rescode_loop iter obs n rs dts vare svh nav x opt lc0 fuel i st).
Proof.
  induction fuel as [|fuel IH]; intros i st Hinv; simpl; [now exists i|].
  destruct (Nat.ltb_spec i n) as [Hi|Hi]; simpl; [|now exists i].
  destruct (i <? MAXOBS)%nat; [|now exists i].
  pose proof (rescode_obs_effect iter obs n rs dts vare svh nav x opt lc0 i st)
    as Heff.
  destruct (rescode_obs iter obs n rs dts vare svh nav x opt lc0 i st)
    as [dup st'].
  apply IH. eapply clock_inv_pass; [exact Hi| |exact Hinv|exact Heff].
  destruct dup; lia.
Qed.

Lemma rows_inv_pass i sys st st' :
  rows_inv st -> pass_skips i st st' \/ pass_adds i sys st st' -> rows_inv st'.
Proof.
  intros [H1 H2] [Hs | Ha]; unfold rows_inv.
  - destruct Hs as (-> & -> & -> & _). auto.
  - destruct Ha as (vi & e & vr & -> & -> & -> & _).
    rewrite !length_app. simpl. lia.
Qed.

Lemma rescode_loop_rows_inv fuel : forall i st,
  rows_inv st ->
  rows_inv (rescode_loop iter obs n rs dts vare svh nav x opt lc0 fuel i st).
Proof.
  induction fuel as [|fuel IH]; intros i st Hinv; simpl; [assumption|].
  destruct ((i <? n)%nat && (i <? MAXOBS)%nat); [|assumption].
  pose proof (rescode_obs_effect iter obs n rs dts vare svh nav x opt lc0 i st)
    as Heff.
  destruct (rescode_obs iter obs n rs dts vare svh nav x opt lc0 i st)
    as [dup st'].
  apply IH. eapply rows_inv_pass; eassumption.
Qed.

Variables (azel : list double) (vsat : list Z) (resp : list double).

(** C10. Index 0 of [mask] is the one that rows of GPS, SBAS and QZSS set
    (such a row has its only clock entry in column 3), and it governs column
    3, the receiver clock. In every call, given flags for all [n]
    observations, in which no satellite of GPS, SBAS or QZSS is left flagged
    as contributing a residual row, index 0 is not set when the loop over the
    observations ends, and the first row appended after the satellite rows is
    the constraint of column 3: residual 0, design row (0,0,0,1,0,0,0,0),
    variance 0.01. *)
Theorem rescode_clock_constraint :
  (n <= length vsat)%nat ->
  let st := rescode_sats iter obs n rs dts vare svh nav x opt lc0 azel vsat resp in
  let out := rescode iter obs n rs dts vare svh nav x opt lc0 azel vsat resp in
  (forall j, (j < n)%nat -> r_vsat out !!! j <> 0%Z ->
             ~ gps_clock (satsys (obs_sat (obs !!! j)))) ->
  (forall i sys r e lc s, gps_clock sys ->
     let s' := rescode_row obs dts vare nav x opt i sys r e lc s in
     s' = s \/ (r_mask s' = <[0%nat := 1%Z]> (r_mask s)
                /\ r_H s' = r_H s ++ [design_row e]))
  /\ r_mask st !!! 0%nat = 0%Z
  /\ (r_nv st < r_nv out)%nat
  /\ r_v out !!! r_nv st = 0.0
  /\ r_H out !!! r_nv st = [0.0; 0.0; 0.0; 1.0; 0.0; 0.0; 0.0; 0.0]
  /\ r_var out !!! r_nv st = 0.01.
Proof.
  intros Hlen st out Hno.
  pose proof (rescode_constraint_fold (seq 0 (NX - 3)) st)
    as (Hv & HH & Hvar & _ & Hvs & _).
  change (foldl rescode_constraint st (seq 0 (NX - 3))) with out in *.
  assert (Hrows : rows_inv st).
  { apply rescode_loop_rows_inv. split; reflexivity. }
  destruct Hrows as [HlH Hlvar].
  assert (Hclock : exists i', clock_inv i' st).
  { apply rescode_loop_clock_inv. repeat split; simpl; try assumption.
    intros Hne. now exfalso. }
  destruct Hclock as (i' & _ & _ & Hc).
  assert (Hm0 : r_mask st !!! 0%nat = 0%Z).
  { destruct (decide (r_mask st !!! 0%nat = 0%Z)) as [|Hne]; [assumption|].
    destruct (Hc Hne) as (j & _ & Hjn & Hv' & Hg).
    exfalso. apply (Hno j Hjn); [now rewrite Hvs | assumption]. }
  assert (Hun : filter (fun i => r_mask st !!! i = 0%Z) (seq 0 (NX - 3))
                = 0%nat :: filter (fun i => r_mask st !!! i = 0%Z) (seq 1 4)).
  { change (seq 0 (NX - 3)) with (0%nat :: seq 1 4).
    rewrite filter_cons. now rewrite decide_True. }
  rewrite Hun in Hv, HH, Hvar. simpl in Hv, HH, Hvar.
  split.
  { intros i sys r e lc s Hg s'.
    assert (Hne : sys <> SYS_NONE)
      by (destruct Hg as [->|[->| ->]]; discriminate).
    destruct (rescode_row_effect obs dts vare nav x opt i sys r e lc s Hne)
      as [Heq | (vi & vr & _ & HH' & _ & _ & Hm' & _)]; [now left|right].
    subst s'. rewrite Hm', HH'.
    destruct Hg as [->|[->| ->]]; split; reflexivity. }
  split; [assumption|]. unfold r_nv.
  split; [rewrite Hv, length_app; simpl; lia|].
  rewrite Hv, HH, Hvar. repeat split.
  - now rewrite list_lookup_total_middle.
  - rewrite <- HlH. now rewrite list_lookup_total_middle.
  - rewrite <- Hlvar. now rewrite list_lookup_total_middle.
Qed.

End ClockProps.

(** ** Comparison of doubles *)



Section RaimProps.
Context `{rtk : RtkLib}.

Variables (obs : list obsd_t) (n : nat)
          (rs dts vare : list double) (svh : list Z) (nav : nav_t)
          (opt : prcopt_t) (lcs : nat -> rescode_locals).

Local Abbreviation raim_commits := (raim_commits obs n).

Lemma raim_scan_succ (st : raim_st) (m : nat) :
  raim_scan obs n rs dts vare svh nav opt lcs st (S m)
  = raim_step obs n rs dts vare svh nav opt lcs
      (raim_scan obs n rs dts vare svh nav opt lcs st m) m.
Proof. unfold raim_scan. now rewrite seq_S, foldl_app. Qed.


End RaimProps.

(** ** The first iteration of [rescode] *)

Section FirstIteration.
Context `{rtk : RtkLib}.

Variables (obs : list obsd_t) (n : nat)
          (rs dts vare : list double) (svh : list Z) (nav : nav_t)
          (x : list double) (opt : prcopt_t).

(** X1. With [iter = 0] none of the gates of the later iterations is consulted:
    an observation that passes the tests common to all iterations goes
    straight to the residual, formed with the locals as they are. *)
Lemma rescode_obs_first_iteration lc0 i st r e :
  satsys (obs_sat (obs !!! i)) <> SYS_NONE ->
  ((i <? n - 1)%nat && (i <? MAXOBS - 1)%nat
   && (obs_sat (obs !!! i) =? obs_sat (obs !!! (i + 1)%nat))%Z) = false ->
  satexclude (obs_sat (obs !!! i)) (vare !!! i) (svh !!! i) opt = false ->
  geodist (drop (i * 6) rs) [x !!! 0%nat; x !!! 1%nat; x !!! 2%nat] = (r, e) ->
  (r <=? 0.0) = false ->
  rescode_obs 0 obs n rs dts vare svh nav x opt lc0 i st
  = (false, rescode_row obs dts vare nav x opt i
              (satsys (obs_sat (obs !!! i))) r e lc0 (rescode_reset i st)).
Proof.
  intros Hsys Hdup Hexc Hgeo Hr. unfold rescode_obs.
  rewrite decide_False by assumption.
  rewrite Hdup, Hexc, Hgeo, Hr. reflexivity.
Qed.

(** The residual of a row of GPS, SBAS or QZSS: the delays [dion] and [dtrp]
    enter it as the locals hold them. *)
Lemma rescode_row_residual i sys r e lc st P vmeas :
  gps_clock sys ->
  prange (obs !!! i) nav opt = (P, vmeas) -> (P =? 0.0) = false ->
  r_v (rescode_row obs dts vare nav x opt i sys r e lc st)
  = r_v st ++ [P - (r + x !!! 3%nat - CLIGHT * dts !!! (i * 2)%nat
                    + lc_dion lc + lc_dtrp lc)].
Proof.
  intros Hg Hp Hnz. unfold rescode_row. rewrite Hp, Hnz.
  destruct Hg as [->|[->| ->]]; reflexivity.
Qed.

(** After the first iteration the locals are written before they are read. *)
Lemma rescode_obs_later_iterations iter lc0 lc1 i st :
  (0 < iter)%nat ->
  rescode_obs iter obs n rs dts vare svh nav x opt lc0 i st
  = rescode_obs iter obs n rs dts vare svh nav x opt lc1 i st.
Proof.
  intros Hit. unfold rescode_obs.
  apply Nat.ltb_lt in Hit. rewrite Hit. reflexivity.
Qed.

Lemma rescode_loop_later_iterations iter lc0 lc1 fuel : forall i st,
  (0 < iter)%nat ->
  rescode_loop iter obs n rs dts vare svh nav x opt lc0 fuel i st
  = rescode_loop iter obs n rs dts vare svh nav x opt lc1 fuel i st.
Proof.
  induction fuel as [|fuel IH]; intros i st Hit; simpl; [reflexivity|].
  rewrite (rescode_obs_later_iterations iter lc0 lc1 i st Hit).
  destruct ((i <? n)%nat && (i <? MAXOBS)%nat); [|reflexivity].
  destruct (rescode_obs iter obs n rs dts vare svh nav x opt lc1 i st).
  now apply IH.
Qed.

(** X2. After the first iteration the content that the locals [dion], [dtrp],
    [vion], [vtrp] had on entry plays no part in what [rescode] returns. *)
Lemma rescode_later_iterations iter lc0 lc1 azel vsat resp :
  (0 < iter)%nat ->
  rescode iter obs n rs dts vare svh nav x opt lc0 azel vsat resp
  = rescode iter obs n rs dts vare svh nav x opt lc1 azel vsat resp.
Proof.
  intros Hit. unfold rescode, rescode_sats.
  now rewrite (rescode_loop_later_iterations iter lc0 lc1 n 0 _ Hit).
Qed.

End FirstIteration.

Section LoopFuel.
Context `{rtk : RtkLib}.

Variables (iter : nat) (obs : list obsd_t) (n : nat)
          (rs dts vare : list double) (svh : list Z) (nav : nav_t)
          (x : list double) (opt : prcopt_t) (lc0 : rescode_locals).

(** The loop over the observations is over within [n] passes: a pass more
    changes nothing. *)
Lemma rescode_loop_enough_fuel fuel : forall i st,
  (n - i <= fuel)%nat ->
  rescode_loop iter obs n rs dts vare svh nav x opt lc0 (S fuel) i st
  = rescode_loop iter obs n rs dts vare svh nav x opt lc0 fuel i st.
Proof.
  induction fuel as [|fuel IH]; intros i st Hle.
  - simpl. destruct (Nat.ltb_spec i n); [lia|reflexivity].
  - change (rescode_loop iter obs n rs dts vare svh nav x opt lc0 (S (S fuel)) i st)
      with (if (i <? n)%nat && (i <? MAXOBS)%nat
            then let '(dup, st') := rescode_obs iter obs n rs dts vare svh nav x opt lc0 i st in
                 rescode_loop iter obs n rs dts vare svh nav x opt lc0 (S fuel)
                   (if dup then i + 2 else i + 1)%nat st'
            else st).
    change (rescode_loop iter obs n rs dts vare svh nav x opt lc0 (S fuel) i st)
      with (if (i <? n)%nat && (i <? MAXOBS)%nat
            then let '(dup, st') := rescode_obs iter obs n rs dts vare svh nav x opt lc0 i st in
                 rescode_loop iter obs n rs dts vare svh nav x opt lc0 fuel
                   (if dup then i + 2 else i + 1)%nat st'
            else st).
    destruct ((i <? n)%nat && (i <? MAXOBS)%nat); [|reflexivity].
    destruct (rescode_obs iter obs n rs dts vare svh nav x opt lc0 i st)
      as [dup st'].
    apply IH. destruct dup; lia.
Qed.

End LoopFuel.

Section LaterIterations.
Context `{rtk : RtkLib}.

Variables (obs : list obsd_t) (n : nat)
          (rs dts vare : list double) (svh : list Z) (nav : nav_t)
          (x : list double) (opt : prcopt_t).

(** X3. After the first iteration every gate is applied to an observation that
    passes the tests common to all iterations: the elevation mask, the SNR
    mask, the ionosphere model, the carrier frequency and the troposphere
    model, in this order; an observation that fails one forms no row. One
    that passes all forms its row with the ionospheric delay and variance
    scaled by [SQR(FREQ1/freq)], whatever the locals held on entry. *)
Lemma rescode_obs_later_iteration_gates iter lc0 i st r e el az :
  (0 < iter)%nat ->
  satsys (obs_sat (obs !!! i)) <> SYS_NONE ->
  ((i <? n - 1)%nat && (i <? MAXOBS - 1)%nat
   && (obs_sat (obs !!! i) =? obs_sat (obs !!! (i + 1)%nat))%Z) = false ->
  satexclude (obs_sat (obs !!! i)) (vare !!! i) (svh !!! i) opt = false ->
  geodist (drop (i * 6) rs) [x !!! 0%nat; x !!! 1%nat; x !!! 2%nat] = (r, e) ->
  (r <=? 0.0) = false ->
  satazel (ecef2pos [x !!! 0%nat; x !!! 1%nat; x !!! 2%nat]) e = (el, az) ->
  let pos := ecef2pos [x !!! 0%nat; x !!! 1%nat; x !!! 2%nat] in
  let st0 := rescode_reset i st in
  let st1 := mk_rst (r_v st0) (r_H st0) (r_var st0)
               (<[(i * 2)%nat := az !!! 0%nat]>
                  (<[(1 + i * 2)%nat := az !!! 1%nat]> (r_azel st0)))
               (r_vsat st0) (r_resp st0) (r_ns st0) (r_mask st0) in
  let az_i := azel_at (r_azel st1) i in
  let ion := ionocorr (obs_time (obs !!! i)) nav (obs_sat (obs !!! i)) pos az_i
                      (opt_ionoopt opt) in
  let freq := sat2freq (obs_sat (obs !!! i)) (obs_code (obs !!! i) !!! 0%nat) nav in
  let trp := tropcorr (obs_time (obs !!! i)) nav pos az_i (opt_tropopt opt) in
  rescode_obs iter obs n rs dts vare svh nav x opt lc0 i st
  = (false,
     if (el <? opt_elmin opt) || negb (snrmask (obs !!! i) az_i opt)
        || (ion.1.1 =? 0)%Z || (freq =? 0.0) || (trp.1.1 =? 0)%Z
     then st1
     else rescode_row obs dts vare nav x opt i (satsys (obs_sat (obs !!! i)))
            r e (mk_locals (ion.1.2 * SQR (FREQ1 / freq)) trp.1.2
                           (ion.2 * SQR (FREQ1 / freq)) trp.2) st1).
Proof.
  intros Hit Hsys Hdup Hexc Hgeo Hr Haz pos st0 st1 az_i ion freq trp.
  unfold rescode_obs. cbv zeta.
  rewrite decide_False by assumption.
  rewrite Hdup, Hexc, Hgeo, Hr.
  apply Nat.ltb_lt in Hit. rewrite Hit, Haz.
  fold pos. fold st0. fold st1. fold az_i. fold ion. fold freq.
  destruct (el <? opt_elmin opt); [reflexivity|].
  destruct (snrmask (obs !!! i) az_i opt); [|reflexivity]. simpl.
  destruct ion as [[ok dion] vion]. simpl.
  destruct (ok =? 0)%Z; [reflexivity|]. simpl.
  destruct (freq =? 0.0); [reflexivity|]. simpl.
  fold trp. destruct trp as [[ok' dtrp] vtrp]. simpl.
  destruct (ok' =? 0)%Z; reflexivity.
Qed.

End LaterIterations.

(** ** The shape of the rows *)

Section ShapeProps.
Context `{rtk : RtkLib}.

Variables (iter : nat) (obs : list obsd_t) (n : nat)
          (rs dts vare : list double) (svh : list Z) (nav : nav_t)
          (x : list double) (opt : prcopt_t) (lc0 : rescode_locals).

Lemma design_row_length e : length (design_row e) = NX.
Proof. unfold design_row. now rewrite length_map, length_seq. Qed.

Lemma sys_row_length sys e : length (sys_row sys e) = NX.
Proof.
  unfold sys_row. destruct (sys_mask sys);
    rewrite ?length_insert; apply design_row_length.
Qed.

Lemma constraint_row_length i : length (constraint_row i) = NX.
Proof. unfold constraint_row. now rewrite length_map, length_seq. Qed.

(** Setting one index of [mask] removes at most that index from the ones
    that are not set, and leaves at most four. *)
Lemma unseen_insert mask m :
  length mask = (NX - 3)%nat -> (m < NX - 3)%nat ->
  (length (unseen mask) <= S (length (unseen (<[m := 1%Z]> mask)))
   /\ length (unseen (<[m := 1%Z]> mask)) <= length (unseen mask)
   /\ length (unseen (<[m := 1%Z]> mask)) <= 4)%nat.
Proof.
  intros Hlen Hm.
  destruct mask as [|a [|b [|c [|d [|e [|f mask]]]]]]; try discriminate.
  unfold NX in Hm.
  destruct m as [|[|[|[|[|m]]]]]; try lia;
    unfold unseen; simpl; rewrite !filter_cons, filter_nil; simpl;
    repeat case_decide; simpl; try lia; try congruence.
Qed.

Lemma unseen_bound mask : (length (unseen mask) <= NX - 3)%nat.
Proof.
  unfold unseen. etransitivity; [apply length_filter|].
  now rewrite length_seq.
Qed.

Local Abbreviation shape_inv := (shape_inv n).

Lemma shape_inv_pass i i' st st' sys :
  (i < i')%nat -> (i' <= n)%nat -> shape_inv i st ->
  pass_skips i st st' \/ pass_adds i sys st st' ->
  shape_inv i' st'.
Proof.
  intros Hi Hi' (Hrows & Hw & Hns & Hle & Hin & Hml & Hlo & Hhi) Heff.
  pose proof (rows_inv_pass i sys st st' Hrows Heff)
    as Hrows'.
  destruct Heff as [Hs | Ha].
  - destruct Hs as (Hv & HH & _ & Hn & Hm & _).
    split; [exact Hrows'|]. rewrite HH, Hn, Hm, Hv.
    repeat split; try assumption; lia.
  - destruct Ha as (vi & e & vr & Hv & HH & _ & Hn & Hm & _).
    pose proof (unseen_insert (r_mask st) (sys_mask sys) Hml
                  (sys_mask_bound sys)) as (U1 & U2 & U3).
    split; [exact Hrows'|]. rewrite HH, Hn, Hm, Hv, length_insert, length_app.
    simpl. repeat split; try assumption; try (unfold NX in *; lia).
    apply Forall_app. split; [assumption|].
    constructor; [apply sys_row_length | constructor].
Qed.

Lemma shape_inv_init azel vsat resp :
  shape_inv 0 (mk_rst [] [] [] azel vsat resp 0 (replicate (NX - 3) 0%Z)).
Proof.
  repeat split; simpl; try constructor; try lia.
Qed.

Lemma rescode_loop_shape fuel : forall i st,
  shape_inv i st ->
  exists i', shape_inv i'
               (rescode_loop iter obs n rs dts vare svh nav x opt lc0 fuel i st).
Proof.
  induction fuel as [|fuel IH]; intros i st Hinv; simpl; [now exists i|].
  destruct (Nat.ltb_spec i n) as [Hi|Hi]; simpl; [|now exists i].
  destruct (i <? MAXOBS)%nat; [|now exists i].
  pose proof (rescode_obs_effect iter obs n rs dts vare svh nav x opt lc0 i st)
    as Heff.
  assert (Hdup : (rescode_obs iter obs n rs dts vare svh nav x opt lc0 i st).1
                 = true -> (i + 2 <= n)%nat).
  { unfold rescode_obs. repeat case_match; simpl; try discriminate.
    intros _.
    match goal with
    | H : _ && _ && _ = true |- _ =>
        apply andb_true_iff in H as [H _]; apply andb_true_iff in H as [H _];
        apply Nat.ltb_lt in H
    end. lia. }
  destruct (rescode_obs iter obs n rs dts vare svh nav x opt lc0 i st)
    as [dup st'].
  apply IH. simpl in Hdup.
  eapply shape_inv_pass; [| |exact Hinv|exact Heff];
    destruct dup; try lia; specialize (Hdup eq_refl); lia.
Qed.

(** The number of rows: [*ns] satellite rows, at most [n], and the
    constraint rows. *)
Lemma rescode_rows (azel : list double) (vsat : list Z) (resp : list double) :
  let st := rescode_sats iter obs n rs dts vare svh nav x opt lc0 azel vsat resp in
  let out := rescode iter obs n rs dts vare svh nav x opt lc0 azel vsat resp in
  r_ns out = r_nv st
  /\ r_nv out = (r_ns out + length (unseen (r_mask st)))%nat
  /\ (r_ns out <= n)%nat
  /\ (NX - 3 <= r_nv out)%nat
  /\ (r_nv out <= Nat.max n 1 + 4)%nat.
Proof.
  intros st out.
  pose proof (rescode_constraint_fold (seq 0 (NX - 3)) st)
    as (Hv & _ & _ & _ & _ & _ & _ & Hns).
  change (foldl rescode_constraint st (seq 0 (NX - 3))) with out in Hv, Hns.
  change (filter _ (seq 0 (NX - 3))) with (unseen (r_mask st)) in Hv.
  destruct (rescode_loop_shape n 0 _ (shape_inv_init azel vsat resp))
    as (i' & _ & _ & Hn & Hle & Hin & Hml & Hlo & Hhi).
  fold (rescode_sats iter obs n rs dts vare svh nav x opt lc0 azel vsat resp)
    in *. fold st in Hn, Hle, Hml, Hlo, Hhi.
  pose proof (unseen_bound (r_mask st)) as Hub.
  unfold r_nv. rewrite Hv, Hns, !length_app, !length_map.
  unfold NX in *. repeat split; lia.
Qed.

(** X4. The rows [rescode] returns are well formed: [v], [H] and [var] have
    [nv] entries each and every row of [H] has [NX] entries. [*ns] is the
    number of satellite rows, at most [n], and [nv] is [*ns] plus the number
    of constraint rows; [nv] is at least 5 and, for at least one
    observation, at most [n + 4], the size [estpos] allocates for the
    buffers. *)
Theorem rescode_shape (azel : list double) (vsat : list Z) (resp : list double) :
  let st := rescode_sats iter obs n rs dts vare svh nav x opt lc0 azel vsat resp in
  let out := rescode iter obs n rs dts vare svh nav x opt lc0 azel vsat resp in
  length (r_H out) = r_nv out /\ length (r_var out) = r_nv out
  /\ Forall (fun row => length row = NX) (r_H out)
  /\ r_ns out = r_nv st
  /\ r_nv out = (r_ns out + length (unseen (r_mask st)))%nat
  /\ (r_ns out <= n)%nat
  /\ (NX - 3 <= r_nv out)%nat
  /\ (r_nv out <= Nat.max n 1 + 4)%nat.
Proof.
  intros st out.
  pose proof (rescode_constraint_fold (seq 0 (NX - 3)) st)
    as (Hv & HH & Hvar & _).
  change (foldl rescode_constraint st (seq 0 (NX - 3))) with out
    in Hv, HH, Hvar.
  destruct (rescode_loop_shape n 0 _ (shape_inv_init azel vsat resp))
    as (i' & (Hr1 & Hr2) & Hw & _).
  fold (rescode_sats iter obs n rs dts vare svh nav x opt lc0 azel vsat resp)
    in *. fold st in Hr1, Hr2, Hw.
  split; [unfold r_nv; rewrite Hv, HH, !length_app, !length_map; lia|].
  split; [unfold r_nv; rewrite Hv, Hvar, !length_app, !length_map; lia|].
  split; [|apply rescode_rows].
  rewrite HH. apply Forall_app. split; [assumption|].
  apply Forall_forall. intros row Hin'.
  apply list_elem_of_fmap in Hin' as (k & -> & _).
  apply constraint_row_length.
Qed.

End ShapeProps.

(** ** The records [rescode] looks at and their flags *)

Section FlagProps.
Context `{rtk : RtkLib}.

Variables (iter : nat) (obs : list obsd_t) (n : nat)
          (rs dts vare : list double) (svh : list Z) (nav : nav_t)
          (x : list double) (opt : prcopt_t) (lc0 : rescode_locals).


Lemma flag_count_succ (vsat : list Z) (m : nat) :
  flag_count vsat (S m)
  = (flag_count vsat m + if decide (vsat !!! m <> 0%Z) then 1 else 0)%nat.
Proof.
  unfold flag_count. rewrite seq_S, filter_app, length_app. simpl.
  rewrite filter_cons, filter_nil. now case_decide.
Qed.

Lemma flag_count_ext (vs vs' : list Z) (m : nat) :
  (forall j, (j < m)%nat -> vs !!! j = vs' !!! j) ->
  flag_count vs m = flag_count vs' m.
Proof.
  induction m as [|m IH]; intros Heq; [reflexivity|].
  rewrite !flag_count_succ, IH, (Heq m) by (intros; auto with lia).
  reflexivity.
Qed.

Lemma flag_count_zero_tail (vs : list Z) (i m : nat) :
  (i <= m)%nat -> (forall j, (i <= j < m)%nat -> vs !!! j = 0%Z) ->
  flag_count vs m = flag_count vs i.
Proof.
  induction m as [|m IH]; intros Hle Hz.
  - now replace i with 0%nat by lia.
  - destruct (decide (i = S m)) as [->|Hne]; [reflexivity|].
    rewrite flag_count_succ, IH by (try lia; intros; apply Hz; lia).
    rewrite decide_False; [lia|]. intros Hnz. apply Hnz, Hz. lia.
Qed.

(** The flag of a pass tells the duplicate branch, which forms no row. *)
Lemma rescode_obs_flag i st :
  let p := rescode_obs iter obs n rs dts vare svh nav x opt lc0 i st in
  p.1 = dup_at obs n i /\ (p.1 = true -> pass_skips i st p.2).
Proof.
  unfold rescode_obs, dup_at.
  destruct (decide (satsys (obs_sat (obs !!! i)) = SYS_NONE)) as [E|E].
  - rewrite (bool_decide_eq_true_2 _ E). simpl. split; [reflexivity|discriminate].
  - rewrite (bool_decide_eq_false_2 _ E). simpl.
    destruct ((i <? n - 1)%nat && (i <? MAXOBS - 1)%nat
              && (obs_sat (obs !!! i) =? obs_sat (obs !!! (i + 1)%nat))%Z).
    + simpl. split; [reflexivity|]. intros _. repeat split.
    + repeat case_match; simpl; (split; [reflexivity|discriminate]).
Qed.

Lemma visits_bounds fuel : forall i j,
  j ∈ visits obs n fuel i -> (i <= j)%nat /\ (j < n)%nat /\ (j < MAXOBS)%nat.
Proof.
  induction fuel as [|fuel IH]; intros i j Hin; simpl in Hin.
  - now apply elem_of_nil in Hin.
  - destruct (Nat.ltb_spec i n); simpl in Hin;
      [|now apply elem_of_nil in Hin].
    destruct (Nat.ltb_spec i MAXOBS); [|now apply elem_of_nil in Hin].
    apply elem_of_cons in Hin as [->|Hin]; [lia|].
    apply IH in Hin. destruct (dup_at obs n i); lia.
Qed.

Lemma visits_skip_duplicate fuel : forall i j,
  j ∈ visits obs n fuel i -> dup_at obs n j = true -> S j ∉ visits obs n fuel i.
Proof.
  induction fuel as [|fuel IH]; intros i j Hin Hd; simpl in *.
  - now apply elem_of_nil in Hin.
  - destruct ((i <? n)%nat && (i <? MAXOBS)%nat);
      [|now apply elem_of_nil in Hin].
    apply elem_of_cons in Hin as [->|Hin].
    + rewrite Hd. apply not_elem_of_cons. split; [lia|].
      intros Hin. apply visits_bounds in Hin. lia.
    + apply not_elem_of_cons. split.
      * apply visits_bounds in Hin. destruct (dup_at obs n i); lia.
      * now apply IH.
Qed.

(** What the loop over the observations does to the flags. *)
Lemma rescode_loop_flags fuel : forall i st,
  let out := rescode_loop iter obs n rs dts vare svh nav x opt lc0 fuel i st in
  length (r_vsat out) = length (r_vsat st)
  /\ (forall j, j ∉ visits obs n fuel i -> r_vsat out !!! j = r_vsat st !!! j)
  /\ (forall j, j ∈ visits obs n fuel i -> (j < length (r_vsat st))%nat ->
        (r_vsat out !!! j = 0%Z \/ r_vsat out !!! j = 1%Z)
        /\ (dup_at obs n j = true -> r_vsat out !!! j = 0%Z)).
Proof.
  induction fuel as [|fuel IH]; intros i st; simpl.
  - split; [reflexivity|]. split; [reflexivity|].
    intros j Hin. now apply elem_of_nil in Hin.
  - destruct ((i <? n)%nat && (i <? MAXOBS)%nat).
    2:{ split; [reflexivity|]. split; [reflexivity|].
        intros j Hin. now apply elem_of_nil in Hin. }
    pose proof (rescode_obs_effect iter obs n rs dts vare svh nav x opt lc0 i st)
      as Heff.
    pose proof (rescode_obs_flag i st) as [Hflag Hskip].
    destruct (rescode_obs iter obs n rs dts vare svh nav x opt lc0 i st)
      as [dup st']. simpl in *. subst dup.
    destruct (IH (if dup_at obs n i then i + 2 else i + 1)%nat st')
      as (Hlen & Hout & Hin).
    assert (Hvs : r_vsat st' = <[i := 0%Z]> (r_vsat st)
                  \/ r_vsat st' = <[i := 1%Z]> (<[i := 0%Z]> (r_vsat st))).
    { destruct Heff as [(_ & _ & _ & _ & _ & Hv & _)
                       |(? & ? & ? & _ & _ & _ & _ & _ & Hv & _)]; auto. }
    assert (Hlen' : length (r_vsat st') = length (r_vsat st)).
    { destruct Hvs as [-> | ->]; now rewrite ?length_insert. }
    assert (Hframe : forall j, j <> i -> r_vsat st' !!! j = r_vsat st !!! j).
    { intros j Hj. destruct Hvs as [-> | ->];
        now rewrite ?list_lookup_total_insert_ne by congruence. }
    assert (Hnot : i ∉ visits obs n fuel (if dup_at obs n i then i + 2 else i + 1)%nat).
    { intros Hi. apply visits_bounds in Hi. destruct (dup_at obs n i); lia. }
    split; [congruence|]. split.
    + intros j Hj. apply not_elem_of_cons in Hj as [Hne Hj].
      rewrite Hout by assumption. now apply Hframe.
    + intros j Hj Hjl. apply elem_of_cons in Hj as [->|Hj].
      * rewrite Hout by assumption. split.
        -- destruct Hvs as [-> | ->]; [left|right];
             rewrite list_lookup_total_insert_eq;
             rewrite ?length_insert; auto.
        -- intros Hd. destruct (Hskip Hd) as (_ & _ & _ & _ & _ & Hv & _).
           rewrite Hv. now rewrite list_lookup_total_insert_eq.
      * apply Hin; [assumption|lia].
Qed.

(** The count of the flags follows [*ns]. *)
Lemma rescode_loop_flag_count fuel : forall i st,
  (n - i <= fuel)%nat -> (i <= n)%nat -> (n <= length (r_vsat st))%nat ->
  (forall j, (i <= j < n)%nat -> j ∉ visits obs n fuel i -> r_vsat st !!! j = 0%Z) ->
  r_ns st = flag_count (r_vsat st) i ->
  let out := rescode_loop iter obs n rs dts vare svh nav x opt lc0 fuel i st in
  r_ns out = flag_count (r_vsat out) n.
Proof.
  induction fuel as [|fuel IH]; intros i st Hfuel Hin Hlen Hz Hns; simpl.
  - now replace n with i by lia.
  - destruct (Nat.ltb_spec i n) as [Hi|Hi]; simpl.
    2:{ now replace n with i by lia. }
    simpl in Hz. apply Nat.ltb_lt in Hi as Hi'. rewrite Hi' in Hz. simpl in Hz.
    destruct (Nat.ltb_spec i MAXOBS) as [Hm|Hm].
    2:{ rewrite Hns. symmetry. apply flag_count_zero_tail; [lia|].
        intros j Hj. apply Hz; [lia|]. intros H'. now apply elem_of_nil in H'. }
    pose proof (rescode_obs_effect iter obs n rs dts vare svh nav x opt lc0 i st)
      as Heff.
    pose proof (rescode_obs_flag i st) as [Hflag Hskip].
    destruct (rescode_obs iter obs n rs dts vare svh nav x opt lc0 i st)
      as [dup st']. simpl in *. subst dup.
    assert (Hd2 : dup_at obs n i = true -> (i + 2 <= n)%nat).
    { unfold dup_at. rewrite !andb_true_iff, Nat.ltb_lt. lia. }
    assert (Hnext : S i ∉ visits obs n fuel (i + 2)%nat).
    { intros H'. apply visits_bounds in H'. lia. }
    apply IH.
    + destruct (dup_at obs n i); lia.
    + destruct (dup_at obs n i); [apply Hd2; reflexivity | lia].
    + destruct Heff as [(_ & _ & _ & _ & _ & -> & _)
                       |(? & ? & ? & _ & _ & _ & _ & _ & -> & _)];
        now rewrite ?length_insert.
    + intros j Hj Hnv.
      assert (Hji : j <> i) by (destruct (dup_at obs n i); lia).
      assert (Hold : r_vsat st !!! j = 0%Z).
      { apply Hz; [destruct (dup_at obs n i); lia|].
        apply not_elem_of_cons. split; assumption. }
      destruct Heff as [(_ & _ & _ & _ & _ & -> & _)
                       |(? & ? & ? & _ & _ & _ & _ & _ & -> & _)];
        now rewrite ?list_lookup_total_insert_ne by congruence.
    + assert (Hbelow : forall vs b, flag_count (<[i := b]> vs) i = flag_count vs i).
      { intros vs b. apply flag_count_ext. intros j Hj.
        apply list_lookup_total_insert_ne. lia. }
      destruct (dup_at obs n i) eqn:Hd.
      * destruct (Hskip eq_refl) as (_ & _ & _ & Hn' & _ & Hv & _).
        rewrite Hn', Hv. replace (i + 2)%nat with (S (S i)) by lia.
        rewrite !flag_count_succ, Hbelow.
        rewrite list_lookup_total_insert_eq by lia.
        rewrite list_lookup_total_insert_ne by lia.
        rewrite (Hz (S i)).
        -- rewrite !decide_False by (intros H'; now apply H'). lia.
        -- specialize (Hd2 eq_refl). lia.
        -- apply not_elem_of_cons. split; [lia|assumption].
      * replace (i + 1)%nat with (S i) by lia. rewrite flag_count_succ.
        destruct Heff as [(_ & _ & _ & Hn' & _ & Hv & _)
                         |(? & ? & ? & _ & _ & _ & Hn' & _ & Hv & _)];
          rewrite Hn', Hv.
        -- rewrite Hbelow, list_lookup_total_insert_eq by lia.
           rewrite decide_False by (intros H'; now apply H'). lia.
        -- rewrite !Hbelow, list_lookup_total_insert_eq
             by (rewrite length_insert; lia).
           rewrite decide_True by discriminate. lia.
Qed.

Variables (azel : list double) (vsat : list Z) (resp : list double).

(** X5. Which records [rescode] looks at depends on the satellite numbers
    alone. The flag of a record it looks at becomes 0 or 1; when the next
    record has the same satellite number the flag is 0 and that next record
    is not looked at. The flag of a record it does not look at keeps the
    value it had before the call. *)
Theorem rescode_duplicates_dropped :
  let out := rescode iter obs n rs dts vare svh nav x opt lc0 azel vsat resp in
  length (r_vsat out) = length vsat
  /\ (forall j, j ∉ visits obs n n 0 -> r_vsat out !!! j = vsat !!! j)
  /\ (forall j, j ∈ visits obs n n 0 -> (j < length vsat)%nat ->
        (r_vsat out !!! j = 0%Z \/ r_vsat out !!! j = 1%Z)
        /\ (dup_at obs n j = true ->
            r_vsat out !!! j = 0%Z /\ (S j ∉ visits obs n n 0)
            /\ r_vsat out !!! (S j) = vsat !!! (S j))).
Proof.
  intros out.
  pose proof (rescode_constraint_fold (seq 0 (NX - 3))
                (rescode_sats iter obs n rs dts vare svh nav x opt lc0 azel
                              vsat resp)) as (_ & _ & _ & _ & Hvs & _).
  change (foldl rescode_constraint _ (seq 0 (NX - 3))) with out in Hvs.
  rewrite Hvs. unfold rescode_sats.
  destruct (rescode_loop_flags n 0
              (mk_rst [] [] [] azel vsat resp 0 (replicate (NX - 3) 0%Z)))
    as (Hlen & Hout & Hin).
  simpl in Hlen, Hout, Hin.
  split; [assumption|]. split; [assumption|].
  intros j Hj Hjl. destruct (Hin j Hj Hjl) as [H01 Hd].
  split; [assumption|]. intros Hdup.
  pose proof (visits_skip_duplicate n 0 j Hj Hdup) as Hnv.
  split; [now apply Hd|]. split; [assumption|]. now apply Hout.
Qed.

(** When flags are given for all [n] observations and the flags of the
    records [rescode] does not look at are 0, the number of flags set on
    return is [*ns]. *)
Lemma rescode_flag_count :
  (n <= length vsat)%nat ->
  (forall j, (j < n)%nat -> j ∉ visits obs n n 0 -> vsat !!! j = 0%Z) ->
  let out := rescode iter obs n rs dts vare svh nav x opt lc0 azel vsat resp in
  r_ns out = flag_count (r_vsat out) n.
Proof.
  intros Hlen Hz out.
  pose proof (rescode_constraint_fold (seq 0 (NX - 3))
                (rescode_sats iter obs n rs dts vare svh nav x opt lc0 azel
                              vsat resp)) as (_ & _ & _ & _ & Hvs & _ & _ & Hns).
  change (foldl rescode_constraint _ (seq 0 (NX - 3))) with out in Hvs, Hns.
  rewrite Hvs, Hns. unfold rescode_sats.
  apply rescode_loop_flag_count; simpl; try lia; try reflexivity.
  intros j Hj. apply Hz. lia.
Qed.

(** The condition on the flags of the records not looked at is kept. *)
Lemma rescode_flags_kept :
  (n <= length vsat)%nat ->
  (forall j, (j < n)%nat -> j ∉ visits obs n n 0 -> vsat !!! j = 0%Z) ->
  let out := rescode iter obs n rs dts vare svh nav x opt lc0 azel vsat resp in
  (n <= length (r_vsat out))%nat
  /\ (forall j, (j < n)%nat -> j ∉ visits obs n n 0 -> r_vsat out !!! j = 0%Z).
Proof.
  intros Hlen Hz out.
  pose proof (rescode_constraint_fold (seq 0 (NX - 3))
                (rescode_sats iter obs n rs dts vare svh nav x opt lc0 azel
                              vsat resp)) as (_ & _ & _ & _ & Hvs & _).
  change (foldl rescode_constraint _ (seq 0 (NX - 3))) with out in Hvs.
  rewrite Hvs. unfold rescode_sats.
  destruct (rescode_loop_flags n 0
              (mk_rst [] [] [] azel vsat resp 0 (replicate (NX - 3) 0%Z)))
    as (Hl & Hout & _).
  split; [rewrite Hl; simpl; lia|].
  intros j Hj Hnv. rewrite (Hout j Hnv). simpl. now apply Hz.
Qed.

End FlagProps.

(** ** The outcome of [estpos] *)

Section EstPosOutcome.
Context `{rtk : RtkLib}.

Variables (obs : list obsd_t) (n : nat)
          (rs dts vare : list double) (svh : list Z) (nav : nav_t)
          (opt : prcopt_t) (lc0 : rescode_locals) (sol : sol_t) (msg : string).

Lemma estpos_failure_msg_nonempty m : estpos_failure_msg m -> m <> EmptyString.
Proof. intros (rest & [->|[->|[->|[->| ->]]]]); discriminate. Qed.

Lemma valsol_cases azel vsat v nv nx m :
  valsol azel vsat n opt v nv nx m = (1%Z, m)
  \/ exists rest,
       valsol azel vsat n opt v nv nx m = (0%Z, ("chi-square error" ++ rest)%string)
       \/ valsol azel vsat n opt v nv nx m = (0%Z, ("gdop error" ++ rest)%string).
Proof.
  unfold valsol. destruct (chisqr_gate v nv nx).
  - right. eexists. left. reflexivity.
  - destruct (valsol_azels azel vsat n) as [azels ns].
    destruct (gdop_gate azel vsat n opt).
    + right. eexists. right. reflexivity.
    + now left.
Qed.

(** What one pass of the loop of [estpos] leaves. *)
Lemma estpos_step_inv i x azel vsat resp :
  let st := rescode i obs n rs dts vare svh nav x opt lc0 azel vsat resp in
  match estpos_step obs n rs dts vare svh nav opt lc0 i x sol azel vsat resp msg with
  | EstposBreak r =>
      e_stat r = 0%Z /\ e_sol r = sol /\ e_azel r = r_azel st
      /\ e_vsat r = r_vsat st /\ e_resp r = r_resp st
      /\ (((r_nv st < NX)%nat
           /\ e_msg r = ("lack of valid sats ns=" ++ fmt_d (Z.of_nat (r_nv st)))%string)
          \/ ((NX <= r_nv st)%nat
              /\ exists info, info <> 0%Z
                   /\ e_msg r = ("lsq error info=" ++ fmt_d info)%string))
  | EstposReturn r =>
      (NX <= r_nv st)%nat /\ e_azel r = r_azel st
      /\ e_vsat r = r_vsat st /\ e_resp r = r_resp st
      /\ exists x' Q,
           (e_stat r = 1%Z /\ e_msg r = msg
            /\ e_sol r = set_stat (estpos_commit obs sol x' Q (r_ns st)) (solq_of opt))
           \/ (e_stat r = 0%Z
               /\ e_sol r = estpos_commit obs sol x' Q (r_ns st)
               /\ exists rest, e_msg r = ("chi-square error" ++ rest)%string
                               \/ e_msg r = ("gdop error" ++ rest)%string)
  | EstposNext x' a v rp =>
      (NX <= r_nv st)%nat /\ a = r_azel st /\ v = r_vsat st /\ rp = r_resp st
  end.
Proof.
  intros st. unfold estpos_step. fold st.
  destruct (Nat.ltb_spec (r_nv st) NX) as [Hlt|Hge].
  - cbn [e_stat e_sol e_azel e_vsat e_resp e_msg].
    split; [reflexivity|]. split; [reflexivity|]. split; [reflexivity|].
    split; [reflexivity|]. split; [reflexivity|].
    left. split; [assumption|reflexivity].
  - destruct (lsq _ _ NX (r_nv st)) as [[info dx] Q].
    destruct (Z.eqb_spec info 0) as [->|Hne]; cbn [negb].
    + destruct (norm dx NX <? 1E-4).
      * destruct (valsol_cases (r_azel st) (r_vsat st)
                    (weight_v (r_v st) (r_var st)) (r_nv st) NX msg)
          as [Hv | (rest & [Hv | Hv])]; rewrite Hv;
          cbn [e_stat e_sol e_azel e_vsat e_resp e_msg Z.eqb];
          (split; [assumption|]); (split; [reflexivity|]);
          (split; [reflexivity|]); (split; [reflexivity|]); eexists _, _.
        -- left. split; [reflexivity|]. split; reflexivity.
        -- right. split; [reflexivity|]. split; [reflexivity|].
           exists rest. now left.
        -- right. split; [reflexivity|]. split; [reflexivity|].
           exists rest. now right.
      * split; [assumption|]. split; [reflexivity|]. split; reflexivity.
    + cbn [e_stat e_sol e_azel e_vsat e_resp e_msg].
      split; [reflexivity|]. split; [reflexivity|]. split; [reflexivity|].
      split; [reflexivity|]. split; [reflexivity|].
      right. split; [assumption|]. now exists info.
Qed.

(** What a call of the loop leaves, for flags that satisfy a condition [I]
    which [rescode] keeps. *)
Lemma estpos_loop_outcome (I : list Z -> list double -> Prop) :
  (forall i x azel vsat resp, I vsat resp ->
     let st := rescode i obs n rs dts vare svh nav x opt lc0 azel vsat resp in
     I (r_vsat st) (r_resp st)) ->
  forall k i x azel vsat resp, I vsat resp ->
  let r := estpos_loop obs n rs dts vare svh nav opt lc0 k i x sol azel vsat resp msg in
  I (e_vsat r) (e_resp r)
  /\ ((e_stat r = 1%Z /\ e_msg r = msg
       /\ exists j y a v rp x' Q,
            I v rp
            /\ let st := rescode j obs n rs dts vare svh nav y opt lc0 a v rp in
               e_vsat r = r_vsat st /\ (NX <= r_nv st)%nat
               /\ e_sol r = set_stat (estpos_commit obs sol x' Q (r_ns st))
                                     (solq_of opt))
      \/ (e_stat r = 0%Z /\ estpos_failure_msg (e_msg r)
          /\ (e_sol r = sol
              \/ exists x' Q ns, e_sol r = estpos_commit obs sol x' Q ns))).
Proof.
  intros HI. induction k as [|k IH]; intros i x azel vsat resp Hv;
    cbn [estpos_loop e_vsat e_resp e_stat e_msg e_sol].
  - split; [assumption|]. right. split; [reflexivity|]. split; [|now left].
    eexists. right. right. left. reflexivity.
  - pose proof (estpos_step_inv i x azel vsat resp) as Hs.
    pose proof (HI i x azel vsat resp Hv) as Hv'.
    destruct (estpos_step obs n rs dts vare svh nav opt lc0 i x sol azel vsat
                          resp msg) as [r|r|x' a v rp].
    + destruct Hs as (Hst & Hsol & _ & Hvs & Hrp & Hm).
      rewrite Hvs, Hrp. split; [assumption|]. right.
      split; [assumption|]. split; [|now left].
      destruct Hm as [[_ ->] | [_ (info & _ & ->)]]; eexists; eauto.
    + destruct Hs as (Hnv & _ & Hvs & Hrp & x' & Q & Hc).
      rewrite Hvs, Hrp. split; [assumption|].
      destruct Hc as [(Hst & Hm & Hsol) | (Hst & Hsol & rest & Hm)].
      * left. split; [assumption|]. split; [assumption|].
        exists i, x, azel, vsat, resp, x', Q. split; [assumption|].
        simpl. auto.
      * right. split; [assumption|]. split; [|right; eauto].
        destruct Hm as [-> | ->]; eexists; eauto 10.
    + destruct Hs as (_ & -> & -> & ->). now apply IH.
Qed.

Lemma estpos_loop_succ k i x azel vsat resp :
  estpos_loop obs n rs dts vare svh nav opt lc0 (S k) i x sol azel vsat resp msg
  = match estpos_step obs n rs dts vare svh nav opt lc0 i x sol azel vsat resp msg with
    | EstposBreak r => r
    | EstposReturn r => r
    | EstposNext x' azel' vsat' resp' =>
        estpos_loop obs n rs dts vare svh nav opt lc0 k (S i) x' sol azel' vsat'
                    resp' msg
    end.
Proof. reflexivity. Qed.

(** Too few rows in the first pass. *)
Lemma estpos_first_pass_short azel vsat resp :
  let st := rescode 0 obs n rs dts vare svh nav (estpos_x0 sol) opt lc0 azel
                    vsat resp in
  (r_nv st < NX)%nat ->
  estpos obs n rs dts vare svh nav opt lc0 sol azel vsat resp msg
  = mk_eres 0 sol (r_azel st) (r_vsat st) (r_resp st)
            ("lack of valid sats ns=" ++ fmt_d (Z.of_nat (r_nv st)))%string.
Proof.
  intros st Hnv. unfold estpos. change MAXITR with (S 9).
  rewrite estpos_loop_succ. unfold estpos_step. fold st.
  apply Nat.ltb_lt in Hnv. now rewrite Hnv.
Qed.

(** The failures of the loop, by their message. *)
Lemma estpos_loop_failure k : forall i x azel vsat resp,
  let r := estpos_loop obs n rs dts vare svh nav opt lc0 k i x sol azel vsat resp msg in
  e_stat r = 0%Z ->
  (e_sol r = sol
   /\ ((exists nv, (nv < NX)%nat
          /\ e_msg r = ("lack of valid sats ns=" ++ fmt_d (Z.of_nat nv))%string)
       \/ (exists info, info <> 0%Z
             /\ e_msg r = ("lsq error info=" ++ fmt_d info)%string)
       \/ e_msg r = ("iteration divergent i=" ++ fmt_d (Z.of_nat (i + k)))%string))
  \/ ((exists x' Q ns, e_sol r = estpos_commit obs sol x' Q ns)
      /\ exists rest, e_msg r = ("chi-square error" ++ rest)%string
                      \/ e_msg r = ("gdop error" ++ rest)%string).
Proof.
  induction k as [|k IH]; intros i x azel vsat resp;
    cbn [estpos_loop e_vsat e_resp e_stat e_msg e_sol].
  - intros _. left. split; [reflexivity|]. right. right.
    now rewrite Nat.add_0_r.
  - pose proof (estpos_step_inv i x azel vsat resp) as Hs.
    destruct (estpos_step obs n rs dts vare svh nav opt lc0 i x sol azel vsat
                          resp msg) as [r|r|x' a v rp].
    + destruct Hs as (_ & Hsol & _ & _ & _ & Hm). intros _. left.
      split; [assumption|].
      destruct Hm as [[Hlt ->] | [_ (info & Hne & ->)]]; [left|right; left]; eauto.
    + destruct Hs as (_ & _ & _ & _ & x' & Q & Hc). intros Hst.
      destruct Hc as [(Hst' & _) | (_ & Hsol & Hm)]; [congruence|].
      right. split; [eauto|assumption].
    + intros Hst. replace (i + S k)%nat with (S i + k)%nat by lia.
      now apply IH.
Qed.

Lemma estpos_commit_stat x Q ns : sol_stat (estpos_commit obs sol x Q ns) = sol_stat sol.
Proof. reflexivity. Qed.

(** X6. [estpos] returns 0 or 1. It returns 1 only from a pass that
    converged and that [valsol] accepted: the message is then untouched and
    the status of the solution is [SOLQ_SBAS] for SBAS ephemerides, else
    [SOLQ_SINGLE]. When it returns 0 the status of the solution is unchanged
    and the message, never empty, tells what is left in the solution: after
    "lack of valid sats ns=" with a row count below [NX], "lsq error info="
    with the code of [lsq], or "iteration divergent i=10", the solution is the
    one it was given; after the two messages of [valsol] the position, clock,
    covariance and count of the rejected pass stay written. *)
Theorem estpos_outcome (azel : list double) (vsat : list Z) (resp : list double) :
  let r := estpos obs n rs dts vare svh nav opt lc0 sol azel vsat resp msg in
  (e_stat r = 1%Z /\ e_msg r = msg /\ sol_stat (e_sol r) = solq_of opt
   /\ exists x Q ns, e_sol r = set_stat (estpos_commit obs sol x Q ns) (solq_of opt))
  \/ (e_stat r = 0%Z /\ estpos_failure_msg (e_msg r) /\ e_msg r <> EmptyString
      /\ sol_stat (e_sol r) = sol_stat sol
      /\ ((e_sol r = sol
           /\ ((exists nv, (nv < NX)%nat
                  /\ e_msg r
                     = ("lack of valid sats ns=" ++ fmt_d (Z.of_nat nv))%string)
               \/ (exists info, info <> 0%Z
                     /\ e_msg r = ("lsq error info=" ++ fmt_d info)%string)
               \/ e_msg r = "iteration divergent i=10"%string))
          \/ ((exists x Q ns, e_sol r = estpos_commit obs sol x Q ns)
              /\ exists rest, e_msg r = ("chi-square error" ++ rest)%string
                              \/ e_msg r = ("gdop error" ++ rest)%string))).
Proof.
  intros r. subst r. unfold estpos.
  pose proof (estpos_loop_failure MAXITR 0 (estpos_x0 sol) azel vsat resp) as Hf.
  destruct (estpos_loop_outcome (fun _ _ => True) (fun _ _ _ _ _ _ => I)
              MAXITR 0 (estpos_x0 sol) azel vsat resp I)
    as (_ & [(Hst & Hm & j & y & a & v & rp & x' & Q & _ & _ & _ & Hsol)
            |(Hst & Hm & Hsol)]).
  - left. rewrite Hsol. repeat split; eauto.
  - right. split; [assumption|]. split; [assumption|].
    split; [now apply estpos_failure_msg_nonempty|].
    split; [destruct Hsol as [-> | (x' & Q & ns & ->)]; reflexivity|].
    exact (Hf Hst).
Qed.

End EstPosOutcome.

Section EstPosCount.
Context `{rtk : RtkLib}.

Variables (obs : list obsd_t) (n : nat)
          (rs dts vare : list double) (svh : list Z) (nav : nav_t)
          (opt : prcopt_t) (lc0 : rescode_locals) (sol : sol_t) (msg : string).

(** X7. When [estpos] is given a flag for each of the [n] observations, zero
    for the records the loop of [rescode] does not look at, and returns 1, the
    count it stores in [sol->ns] is the number of flags it leaves set, as an
    unsigned char. *)
Theorem estpos_ns_counts_flags (azel : list double) (vsat : list Z)
    (resp : list double) :
  (n <= length vsat)%nat ->
  (forall j, (j < n)%nat -> j ∉ visits obs n n 0 -> vsat !!! j = 0%Z) ->
  let r := estpos obs n rs dts vare svh nav opt lc0 sol azel vsat resp msg in
  e_stat r = 1%Z ->
  sol_ns (e_sol r) = (Z.of_nat (flag_count (e_vsat r) n) mod 256)%Z.
Proof.
  intros Hlen Hz r Hstat. subst r. unfold estpos in *.
  destruct (estpos_loop_outcome obs n rs dts vare svh nav opt lc0 sol msg
              (fun v _ => (n <= length v)%nat
                          /\ forall j, (j < n)%nat -> j ∉ visits obs n n 0 ->
                                       v !!! j = 0%Z)
              (fun i x a v rp Hv =>
                 rescode_flags_kept i obs n rs dts vare svh nav x opt lc0 a v rp
                                    (proj1 Hv) (proj2 Hv))
              MAXITR 0%nat (estpos_x0 sol) azel vsat resp (conj Hlen Hz))
    as (_ & [(_ & _ & j & y & a & v & rp & x' & Q & [Hl' Hz'] & Hvs & _ & Hsol)
            |(Hst & _)]).
  - rewrite Hsol, Hvs.
    rewrite <- (rescode_flag_count j obs n rs dts vare svh nav y opt lc0 a v rp
                  Hl' Hz').
    reflexivity.
  - rewrite Hst in Hstat. discriminate.
Qed.

End EstPosCount.

(** ** Exclusion of one record and the copy back *)

Lemma map_lookup_total {A B} `{Inhabited A, Inhabited B} (f : A -> B)
    (l : list A) (k : nat) :
  (k < length l)%nat -> map f l !!! k = f (l !!! k).
Proof.
  revert k. induction l as [|a l IH]; intros k Hk; simpl in Hk; [lia|].
  destruct k as [|k]; [reflexivity|]. simpl. apply IH. lia.
Qed.

Lemma filter_ne_seq_above (i m a : nat) :
  (i < a)%nat -> filter (fun j => j <> i) (seq a m) = seq a m.
Proof.
  revert a. induction m as [|m IH]; intros a Ha; [reflexivity|].
  simpl. rewrite filter_cons, decide_True by lia. f_equal. apply IH. lia.
Qed.

Lemma filter_ne_seq (i m a : nat) :
  (a <= i < a + m)%nat ->
  filter (fun j => j <> i) (seq a m) = seq a (i - a) ++ seq (S i) (a + m - S i).
Proof.
  revert a. induction m as [|m IH]; intros a Ha; [lia|].
  simpl. rewrite filter_cons. destruct (decide (a = i)) as [->|Hne].
  - rewrite decide_False by (intros Hn; now apply Hn).
    rewrite filter_ne_seq_above by lia.
    replace (i - i)%nat with 0%nat by lia.
    replace (i + S m - S i)%nat with m by lia. reflexivity.
  - rewrite decide_True by assumption.
    rewrite IH by lia.
    replace (i - a)%nat with (S (i - S a)) by lia.
    cbn [seq app]. f_equal. f_equal. f_equal. lia.
Qed.

Lemma others_length (n i : nat) : (i < n)%nat -> length (others n i) = (n - 1)%nat.
Proof.
  intros Hi. unfold others. rewrite filter_ne_seq by lia.
  rewrite length_app, !length_seq. lia.
Qed.

Lemma others_lookup (n i k : nat) :
  (i < n)%nat -> (k < n - 1)%nat -> others n i !!! k = record_of i k.
Proof.
  intros Hi Hk. unfold others, record_of. rewrite filter_ne_seq by lia.
  destruct (Nat.ltb_spec k i) as [Hlt|Hge].
  - rewrite lookup_total_app_l by (rewrite length_seq; lia).
    rewrite lookup_total_seq_lt by lia. lia.
  - rewrite lookup_total_app_r by (rewrite length_seq; lia).
    rewrite length_seq, lookup_total_seq_lt by lia. lia.
Qed.

Lemma flat_map_blocks_lookup {A} `{Inhabited A} (g : nat -> nat -> A) (w : nat)
    (l : list nat) : forall k t,
  (k < length l)%nat -> (t < w)%nat ->
  flat_map (fun j => map (g j) (seq 0 w)) l !!! (w * k + t)%nat = g (l !!! k) t.
Proof.
  induction l as [|a l IH]; intros k t Hk Ht; simpl in Hk; [lia|].
  simpl. destruct k as [|k].
  - rewrite lookup_total_app_l by (rewrite length_map, length_seq; lia).
    replace (w * 0 + t)%nat with t by lia.
    rewrite map_lookup_total by (rewrite length_seq; lia).
    now rewrite lookup_total_seq_lt by lia.
  - rewrite lookup_total_app_r by (rewrite length_map, length_seq; nia).
    rewrite length_map, length_seq.
    replace (w * S k + t - w)%nat with (w * k + t)%nat by nia.
    apply IH; lia.
Qed.

Lemma slot_record (i k : nat) : slot_of i (record_of i k) = k.
Proof.
  unfold slot_of, record_of.
  destruct (Nat.ltb_spec k i) as [Hlt|Hge].
  - destruct (Nat.ltb_spec k i); lia.
  - destruct (Nat.ltb_spec (S k) i); lia.
Qed.

Lemma record_slot (i j : nat) : j <> i -> record_of i (slot_of i j) = j.
Proof.
  unfold slot_of, record_of. intros Hne.
  destruct (Nat.ltb_spec j i) as [Hlt|Hge].
  - destruct (Nat.ltb_spec j i); lia.
  - destruct (Nat.ltb_spec (j - 1) i); lia.
Qed.

Section ExcludeProps.
Variables (n i : nat).
Hypothesis Hi : (i < n)%nat.

(** X8. The arrays handed to [estpos] for candidate [i] hold the [n-1] other
    records in their order: slot [k] holds record [k] below [i] and record
    [k+1] from [i] on, for the single entries of [obs], [vare], [svh] and for
    the blocks of 6 and 2 doubles of [rs] and [dts]. *)
Theorem exclude_slots {A} `{Inhabited A} (src : list A) (blocks : list double)
    (w : nat) :
  length (exclude n src i) = (n - 1)%nat
  /\ length (exclude_blocks n w blocks i) = (w * (n - 1))%nat
  /\ forall k, (k < n - 1)%nat ->
       exclude n src i !!! k = src !!! record_of i k
       /\ forall t, (t < w)%nat ->
            exclude_blocks n w blocks i !!! (w * k + t)%nat
            = blocks !!! (w * record_of i k + t)%nat.
Proof.
  unfold exclude, exclude_blocks.
  split; [rewrite length_map; now apply others_length|].
  split.
  - rewrite <- (others_length n i Hi).
    induction (others n i) as [|a l IH]; simpl; [lia|].
    rewrite length_app, length_map, length_seq, IH. lia.
  - intros k Hk. split.
    + rewrite map_lookup_total by (rewrite others_length; lia).
      now rewrite others_lookup.
    + intros t Ht.
      rewrite (flat_map_blocks_lookup (fun j t => blocks !!! (w * j + t)%nat))
        by (try rewrite others_length; lia).
      now rewrite others_lookup.
Qed.

End ExcludeProps.

Section RaimSaveProps.
Variables (n i : nat) (azel azel_e : list double) (vsat vsat_e : list Z)
          (resp resp_e : list double).

(** The copy back after the records below [m]. *)
Lemma raim_save_fold (m : nat) :
  let r := foldl (fun '(azel, vsat, resp, k) j =>
                    if decide (j = i) then (azel, vsat, resp, k)
                    else (<[(2 * j + 1)%nat := azel_e !!! (2 * k + 1)%nat]>
                            (<[(2 * j)%nat := azel_e !!! (2 * k)%nat]> azel),
                          <[j := vsat_e !!! k]> vsat,
                          <[j := resp_e !!! k]> resp,
                          S k))
                 (azel, vsat, resp, 0%nat) (seq 0 m) in
  r.2 = (if (i <? m)%nat then m - 1 else m)%nat
  /\ length r.1.1.1 = length azel
  /\ length r.1.1.2 = length vsat
  /\ length r.1.2 = length resp
  /\ (forall j, r.1.1.2 !!! j
                = if decide ((j < m)%nat /\ j <> i /\ (j < length vsat)%nat)
                  then vsat_e !!! slot_of i j else vsat !!! j)
  /\ (forall j, r.1.2 !!! j
                = if decide ((j < m)%nat /\ j <> i /\ (j < length resp)%nat)
                  then resp_e !!! slot_of i j else resp !!! j)
  /\ (forall j t, (t < 2)%nat ->
        r.1.1.1 !!! (2 * j + t)%nat
        = if decide ((j < m)%nat /\ j <> i /\ (2 * j + t < length azel)%nat)
          then azel_e !!! (2 * slot_of i j + t)%nat
          else azel !!! (2 * j + t)%nat).
Proof.
  induction m as [|m IH].
  - cbn [seq foldl fst snd]. split; [reflexivity|].
    split; [reflexivity|]. split; [reflexivity|]. split; [reflexivity|].
    split; [|split]; intros; rewrite decide_False by lia; reflexivity.
  - rewrite seq_S, foldl_app. cbn zeta in IH.
    destruct (foldl _ _ (seq 0 m)) as [[[a v] rp] k].
    cbn [fst snd] in IH. destruct IH as (Hk & Hla & Hlv & Hlr & Hv & Hr & Ha).
    cbn [foldl Nat.add]. destruct (decide (m = i)) as [->|Hne].
    + cbn [fst snd]. rewrite Hk.
      split; [destruct (Nat.ltb_spec i i), (Nat.ltb_spec i (S i)); lia|].
      split; [assumption|]. split; [assumption|]. split; [assumption|].
      split; [|split]; intros j; intros.
      * rewrite Hv. repeat case_decide; try reflexivity; lia.
      * rewrite Hr. repeat case_decide; try reflexivity; lia.
      * rewrite Ha by assumption. repeat case_decide; try reflexivity; lia.
    + cbn [fst snd].
      assert (Hs : k = slot_of i m).
      { rewrite Hk. unfold slot_of.
        destruct (Nat.ltb_spec i m), (Nat.ltb_spec m i); lia. }
      split; [rewrite Hk; destruct (Nat.ltb_spec i m), (Nat.ltb_spec i (S m)); lia|].
      split; [now rewrite !length_insert|].
      split; [now rewrite length_insert|].
      split; [now rewrite length_insert|].
      split; [|split]; intros j; intros.
      * rewrite list_lookup_total_insert, Hv, Hlv, Hs.
        repeat case_decide; try reflexivity; try lia.
        destruct H as [-> _]. reflexivity.
      * rewrite list_lookup_total_insert, Hr, Hlr, Hs.
        repeat case_decide; try reflexivity; try lia.
        destruct H as [-> _]. reflexivity.
      * rewrite !list_lookup_total_insert, length_insert, Ha, Hla, Hs
          by assumption.
        repeat case_decide; try reflexivity; try lia.
        -- replace t with 1%nat by lia. now replace j with m by lia.
        -- replace t with 0%nat by lia. replace j with m by lia.
           now replace (2 * slot_of i m + 0)%nat with (2 * slot_of i m)%nat by lia.
Qed.

(** X9. The copy back from the reduced arrays writes record [j] from the
    slot that held record [j] when record [i] was left out: the two index
    maps of [raim_fde] agree. The entries of record [i] and the lengths of the
    arrays are left as they were. *)
Theorem raim_save_slots {A} `{Inhabited A} (src : list A) :
  (i < n)%nat ->
  let '(azel', vsat', resp') :=
    raim_save n i azel vsat resp azel_e vsat_e resp_e in
  length azel' = length azel /\ length vsat' = length vsat
  /\ length resp' = length resp
  /\ vsat' !!! i = vsat !!! i /\ resp' !!! i = resp !!! i
  /\ azel' !!! (2 * i)%nat = azel !!! (2 * i)%nat
  /\ azel' !!! (2 * i + 1)%nat = azel !!! (2 * i + 1)%nat
  /\ forall j, (j < n)%nat -> j <> i ->
       exclude n src i !!! slot_of i j = src !!! j
       /\ ((j < length vsat)%nat -> vsat' !!! j = vsat_e !!! slot_of i j)
       /\ ((j < length resp)%nat -> resp' !!! j = resp_e !!! slot_of i j)
       /\ ((2 * j + 1 < length azel)%nat ->
           azel' !!! (2 * j)%nat = azel_e !!! (2 * slot_of i j)%nat
           /\ azel' !!! (2 * j + 1)%nat = azel_e !!! (2 * slot_of i j + 1)%nat).
Proof.
  intros Hi. unfold raim_save.
  pose proof (raim_save_fold n) as Hf. cbn zeta in Hf.
  destruct (foldl _ _ (seq 0 n)) as [[[a v] rp] k].
  cbn [fst snd] in *. destruct Hf as (_ & Hla & Hlv & Hlr & Hv & Hr & Ha).
  split; [assumption|]. split; [assumption|]. split; [assumption|].
  split; [rewrite Hv; rewrite decide_False by lia; reflexivity|].
  split; [rewrite Hr; rewrite decide_False by lia; reflexivity|].
  split.
  { replace (2 * i)%nat with (2 * i + 0)%nat at 1 by lia.
    rewrite Ha by lia. rewrite decide_False by lia. f_equal. lia. }
  split; [rewrite Ha by lia; rewrite decide_False by lia; reflexivity|].
  intros j Hj Hne.
  assert (Hslot : (slot_of i j < n - 1)%nat).
  { unfold slot_of. destruct (Nat.ltb_spec j i); lia. }
  split.
  { unfold exclude. rewrite map_lookup_total by (rewrite others_length; lia).
    rewrite others_lookup by lia. now rewrite record_slot. }
  split; [intros Hl; rewrite Hv; rewrite decide_True by lia; reflexivity|].
  split; [intros Hl; rewrite Hr; rewrite decide_True by lia; reflexivity|].
  intros Hl. split.
  - replace (2 * j)%nat with (2 * j + 0)%nat at 1 by lia.
    rewrite Ha by lia. rewrite decide_True by lia. f_equal. lia.
  - rewrite Ha by lia. rewrite decide_True by lia. reflexivity.
Qed.

End RaimSaveProps.

(** ** The outcome of RAIM FDE *)

Section RaimOutcome.
Context `{rtk : RtkLib}.

Variables (obs : list obsd_t) (n : nat)
          (rs dts vare : list double) (svh : list Z) (nav : nav_t)
          (opt : prcopt_t) (lcs : nat -> rescode_locals).

Lemma raim_sumsq_count_fold (vsat_e : list Z) (resp_e : list double)
    (l : list nat) : forall acc : double * nat,
  Nat.le (foldl (fun '(rms_e, nvsat) j =>
                   if (vsat_e !!! j =? 0)%Z then (rms_e, nvsat)
                   else (rms_e + SQR (resp_e !!! j), S nvsat)) acc l).2
         (acc.2 + length l)%nat.
Proof.
  induction l as [|j l IH]; intros [s c]; simpl; [lia|].
  destruct (vsat_e !!! j =? 0)%Z.
  - etransitivity; [apply IH|]. simpl. lia.
  - etransitivity; [apply IH|]. simpl. lia.
Qed.

(** No more flags are counted than there are slots. *)
Lemma raim_sumsq_count (vsat_e : list Z) (resp_e : list double) :
  ((raim_sumsq n vsat_e resp_e).2 <= n - 1)%nat.
Proof.
  unfold raim_sumsq.
  etransitivity; [apply raim_sumsq_count_fold|].
  rewrite length_seq. simpl. lia.
Qed.

(** A candidate qualifies only when [estpos] returned 1 for it and at least
    5 of its [n-1] satellites are flagged: [estpos] has then left [msg_e] as
    it was, and the status of [sol_e] is that of a solution. *)
Lemma raim_candidate_some (lc : rescode_locals) (i : nat) (st : raim_st)
    (rms_e : double) :
  (raim_candidate obs n rs dts vare svh nav opt lc i st).1 = Some rms_e ->
  let r := (raim_candidate obs n rs dts vare svh nav opt lc i st).2 in
  (6 <= n)%nat /\ e_stat r = 1%Z /\ e_msg r = ra_msg_e st
  /\ sol_stat (e_sol r) = solq_of opt.
Proof.
  unfold raim_candidate, estpos.
  destruct (estpos_loop_outcome (exclude n obs i) (n - 1)
              (exclude_blocks n 6 rs i) (exclude_blocks n 2 dts i)
              (exclude n vare i) (exclude n svh i) nav opt lc (ra_sol_e st)
              (ra_msg_e st) (fun _ _ => True) (fun _ _ _ _ _ _ => I)
              MAXITR 0%nat (estpos_x0 (ra_sol_e st)) (ra_azel_e st)
              (ra_vsat_e st) (ra_resp_e st) I)
    as (_ & [(Hst & Hm & j & y & a & v & rp & x' & Q & _ & _ & _ & Hsol)
            |(Hst & _)]);
    rewrite Hst; cbn [Z.eqb fst snd]; [|discriminate].
  pose proof (raim_sumsq_count
                (e_vsat (estpos_loop (exclude n obs i) (n - 1)
                   (exclude_blocks n 6 rs i) (exclude_blocks n 2 dts i)
                   (exclude n vare i) (exclude n svh i) nav opt lc MAXITR 0
                   (estpos_x0 (ra_sol_e st)) (ra_sol_e st) (ra_azel_e st)
                   (ra_vsat_e st) (ra_resp_e st) (ra_msg_e st)))
                (e_resp (estpos_loop (exclude n obs i) (n - 1)
                   (exclude_blocks n 6 rs i) (exclude_blocks n 2 dts i)
                   (exclude n vare i) (exclude n svh i) nav opt lc MAXITR 0
                   (estpos_x0 (ra_sol_e st)) (ra_sol_e st) (ra_azel_e st)
                   (ra_vsat_e st) (ra_resp_e st) (ra_msg_e st)))) as Hc.
  destruct (raim_sumsq n _ _) as [sumsq nvsat]. cbn [snd] in Hc.
  destruct (Nat.ltb_spec nvsat 5) as [Hlt|Hge]; cbn [fst snd]; [discriminate|].
  intros _. split; [lia|]. split; [assumption|]. split; [assumption|].
  now rewrite Hsol.
Qed.

(** The message [estpos] leaves for a candidate is the one it found, or one
    of its failure messages. *)
Lemma raim_candidate_msg (lc : rescode_locals) (i : nat) (st : raim_st) :
  let r := (raim_candidate obs n rs dts vare svh nav opt lc i st).2 in
  e_msg r = ra_msg_e st \/ estpos_failure_msg (e_msg r).
Proof.
  unfold raim_candidate, estpos.
  destruct (estpos_loop_outcome (exclude n obs i) (n - 1)
              (exclude_blocks n 6 rs i) (exclude_blocks n 2 dts i)
              (exclude n vare i) (exclude n svh i) nav opt lc (ra_sol_e st)
              (ra_msg_e st) (fun _ _ => True) (fun _ _ _ _ _ _ => I)
              MAXITR 0%nat (estpos_x0 (ra_sol_e st)) (ra_azel_e st)
              (ra_vsat_e st) (ra_resp_e st) I)
    as (_ & [(Hst & Hm & _)|(Hst & Hm & _)]);
    rewrite Hst; cbn [Z.eqb fst snd]; [|now right].
  destruct (raim_sumsq n _ _) as [sumsq nvsat].
  destruct (nvsat <? 5)%nat; cbn [snd]; now left.
Qed.

(** What one pass over a candidate does to the state. *)
Lemma raim_step_cases (st : raim_st) (i : nat) :
  let c := raim_candidate obs n rs dts vare svh nav opt (lcs i) i st in
  let st' := raim_step obs n rs dts vare svh nav opt lcs st i in
  ra_msg_e st' = e_msg c.2
  /\ (raim_keeps st st'
      \/ exists rms_e, c.1 = Some rms_e /\ raim_commits obs n i rms_e c.2 st st'
                       /\ length (ra_vsat st') = length (ra_vsat st)).
Proof.
  intros c st'. subst st'. unfold raim_step. fold c.
  destruct c as [[rms_e|] r]; cbn [fst snd].
  - destruct (rms_e >? ra_rms st).
    + split; [reflexivity|]. left. repeat split.
    + pose proof (raim_save_fold i (ra_azel st) (e_azel r) (ra_vsat st)
                    (e_vsat r) (ra_resp st) (e_resp r) n)
        as (_ & _ & Hlv & _).
      unfold raim_commits.
      destruct (raim_save n i _ _ _ _ _ _) as [[a v] rp] eqn:Es.
      assert (Hv : length v = length (ra_vsat st)).
      { unfold raim_save in Es. rewrite <- Hlv.
        destruct (foldl _ _ (seq 0 n)) as [[[a' v'] rp'] k].
        cbn [fst snd] in *. now injection Es as _ <- _. }
      cbn [ra_msg_e ra_stat ra_sat ra_sol ra_msg ra_rms ra_vsat fst snd].
      split; [reflexivity|]. right. exists rms_e.
      split; [reflexivity|]. split; [|now rewrite length_insert].
      split; [reflexivity|]. split; [reflexivity|]. split; [reflexivity|].
      split; [reflexivity|]. split; reflexivity.
  - split; [reflexivity|]. left. repeat split.
Qed.

Variables (vsat_e0 : list Z) (resp_e0 : list double) (msg_e0 : string)
          (sol : sol_t) (azel : list double) (vsat : list Z)
          (resp : list double) (msg : string).

(** The state of the scan after the candidates below [m]. *)
Lemma raim_scan_inv (m : nat) :
  let st := raim_scan obs n rs dts vare svh nav opt lcs
              (raim_init n sol azel vsat resp msg vsat_e0 resp_e0 msg_e0) m in
  raim_stale_msg msg_e0 (ra_msg_e st)
  /\ length (ra_vsat st) = length vsat
  /\ ((ra_stat st = 0%Z /\ ra_sat st = 0%Z /\ ra_sol st = sol
       /\ ra_azel st = azel /\ ra_vsat st = vsat /\ ra_resp st = resp
       /\ ra_msg st = msg)
      \/ (ra_stat st = 1%Z /\ (6 <= n)%nat
          /\ sol_stat (ra_sol st) = solq_of opt
          /\ raim_stale_msg msg_e0 (ra_msg st)
          /\ exists i, (i < m)%nat /\ ra_sat st = obs_sat (obs !!! i)
                       /\ ((i < length vsat)%nat -> ra_vsat st !!! i = 0%Z))).
Proof.
  induction m as [|m IH].
  - cbn. split; [now left|]. split; [reflexivity|]. left. repeat split.
  - rewrite raim_scan_succ. cbn zeta in IH.
    set (st := raim_scan obs n rs dts vare svh nav opt lcs _ m) in *.
    destruct IH as (Hme & Hlen & Hout).
    pose proof (raim_step_cases st m) as (Hme' & Hstep).
    pose proof (raim_candidate_msg (lcs m) m st) as Hcm.
    cbn zeta in Hme', Hstep, Hcm.
    assert (Hstale : raim_stale_msg msg_e0
              (e_msg (raim_candidate obs n rs dts vare svh nav opt (lcs m) m st).2)).
    { destruct Hcm as [-> | Hf]; [assumption | now right]. }
    split; [now rewrite Hme'|].
    destruct Hstep as [(Hs & Hsat & Hsol & Hmsg & _ & Hv & Ha & Hr)
                      |(rms_e & Hc & (Hs & Hsat & Hsol & Hmsg & _ & Hv) & Hl)].
    + split; [now rewrite Hv|].
      rewrite Hs, Hsat, Hsol, Hmsg, Hv, Ha, Hr.
      destruct Hout as [H0 | (H1 & Hn & Hq & Hm' & i & Hi & Hsi & Hvi)];
        [now left|].
      right. split; [assumption|]. split; [assumption|]. split; [assumption|].
      split; [assumption|]. exists i. split; [lia|]. now split.
    + split; [now rewrite Hl|].
      destruct (raim_candidate_some (lcs m) m st rms_e Hc)
        as (Hn & _ & Hmsg' & Hq).
      right. split; [assumption|]. split; [assumption|].
      split; [now rewrite Hsol|].
      split; [rewrite Hmsg, Hmsg'; assumption|].
      exists m. split; [lia|]. split; [assumption|].
      intros Hm. rewrite Hv in Hl |- *. rewrite length_insert in Hl.
      apply list_lookup_total_insert_eq. lia.
Qed.

(** X10. The outcome of [raim_fde]. Either it returns 0 and has left [sol],
    [azel], [vsat], [resp] and [msg] as it found them; or it returns 1 (which
    needs at least 6 observations), the excluded satellite is one of the
    records, the flag of that record is 0, the status of the solution is that
    of a valid one, and the message it has copied out is not one written for
    the candidate it kept: it is the indeterminate initial content of [msg_e]
    or the failure message that [estpos] left for an earlier candidate. *)
Theorem raim_fde_outcome :
  let ra := raim_fde obs n rs dts vare svh nav opt lcs vsat_e0 resp_e0 msg_e0
                     sol azel vsat resp msg in
  length (ra_vsat ra) = length vsat
  /\ ((ra_stat ra = 0%Z /\ ra_sol ra = sol /\ ra_azel ra = azel
       /\ ra_vsat ra = vsat /\ ra_resp ra = resp /\ ra_msg ra = msg)
      \/ (ra_stat ra = 1%Z /\ (6 <= n)%nat
          /\ sol_stat (ra_sol ra) = solq_of opt
          /\ raim_stale_msg msg_e0 (ra_msg ra)
          /\ exists i, (i < n)%nat /\ ra_sat ra = obs_sat (obs !!! i)
                       /\ ((i < length vsat)%nat -> ra_vsat ra !!! i = 0%Z))).
Proof.
  intros ra. subst ra. unfold raim_fde.
  destruct (raim_scan_inv n) as (_ & Hlen & [H0 | H1]).
  - split; [assumption|]. left.
    destruct H0 as (? & _ & ? & ? & ? & ? & ?). auto 10.
  - split; [assumption|]. now right.
Qed.

End RaimOutcome.

(** ** Range-rate residuals and the velocity *)

Section ResdopProps.
Context `{rtk : RtkLib}.

Variables (obs : list obsd_t) (n : nat) (rs dts : list double) (nav : nav_t)
          (e0 : list double).

Lemma flag_count_filter (vsat : list Z) (m : nat) :
  flag_count vsat m = length (filter (fun j => vsat !!! j <> 0%Z) (seq 0 m)).
Proof. reflexivity. Qed.

Lemma resdop_obs_cases (rr x azel : list double) (vsat : list Z) (err : double)
    (E : list double) (st : list double * list (list double) * list double)
    (i : nat) :
  let st' := resdop_obs obs rs dts nav rr x azel vsat err E st i in
  st' = st
  \/ (vsat !!! i <> 0%Z
      /\ exists vi row e', length row = 4%nat
           /\ st' = (st.1.1 ++ [vi], st.1.2 ++ [row], e')).
Proof.
  destruct st as [[v Hm] e]. unfold resdop_obs.
  destruct ((obs_D (obs !!! i) !!! 0%nat =? 0.0)
            || (sat2freq (obs_sat (obs !!! i))
                  (obs_code (obs !!! i) !!! 0%nat) nav =? 0.0));
    cbn [orb]; [now left|].
  destruct (Z.eqb_spec (vsat !!! i) 0) as [Hz|Hnz]; cbn [orb]; [now left|].
  destruct (norm (drop (3 + i * 6) rs) 3 <=? 0.0); [now left|].
  right. split; [assumption|]. eexists _, _, _. split; [|reflexivity].
  reflexivity.
Qed.

Lemma resdop_fold (rr x azel : list double) (vsat : list Z) (err : double)
    (E : list double) (l : list nat) : forall st,
  let st' := foldl (resdop_obs obs rs dts nav rr x azel vsat err E) st l in
  (length st.1.1 = length st.1.2 ->
   Forall (fun row => length row = 4%nat) st.1.2 ->
   length st'.1.1 = length st'.1.2
   /\ Forall (fun row => length row = 4%nat) st'.1.2)
  /\ (length st'.1.1
      <= length st.1.1 + length (filter (fun j => vsat !!! j <> 0%Z) l))%nat.
Proof.
  induction l as [|i l IH]; intros st; cbn [foldl].
  - cbn [filter]. split; [auto|]. simpl. lia.
  - rewrite filter_cons.
    destruct (IH (resdop_obs obs rs dts nav rr x azel vsat err E st i))
      as [Hs Hc].
    destruct (resdop_obs_cases rr x azel vsat err E st i)
      as [Heq | (Hnz & vi & row & e' & Hrow & Heq)];
      cbn zeta in Heq; rewrite Heq in *.
    + split; [exact Hs|]. etransitivity; [exact Hc|].
      case_decide; simpl; lia.
    + cbn [fst snd] in *. split.
      * intros Hl HF. apply Hs.
        -- rewrite !length_app. simpl. lia.
        -- apply Forall_app. split; [assumption|].
           constructor; [assumption|constructor].
      * etransitivity; [exact Hc|]. rewrite length_app.
        rewrite decide_True by assumption. simpl. lia.
Qed.

(** X11. [resdop] forms as many rows of [H] as residuals, each of the 4
    entries of the velocity states, and at most one for each of the first
    [min(n,MAXOBS)] records whose flag is set. *)
Theorem resdop_shape (rr x azel : list double) (vsat : list Z) (err : double) :
  let r := resdop obs n rs dts nav e0 rr x azel vsat err in
  length r.1 = length r.2
  /\ Forall (fun row => length row = 4%nat) r.2
  /\ (length r.1 <= flag_count vsat (n `min` MAXOBS))%nat
  /\ (length r.1 <= n)%nat.
Proof.
  unfold resdop.
  destruct (resdop_fold rr x azel vsat err (xyz2enu (ecef2pos rr))
              (seq 0 (n `min` MAXOBS)) ([], [], e0)) as [Hs Hc].
  destruct (Hs eq_refl (Forall_nil_2 _)) as [Hl HF].
  cbn [fst snd length] in *.
  split; [assumption|]. split; [assumption|].
  split; [exact Hc|].
  etransitivity; [exact Hc|].
  etransitivity; [apply length_filter|]. rewrite length_seq. lia.
Qed.

Variables (opt : prcopt_t) (sol : sol_t) (azel : list double) (vsat : list Z).

Lemma resdop_rows (rr x : list double) (err : double) :
  (length (resdop obs n rs dts nav e0 rr x azel vsat err).1
   <= flag_count vsat (n `min` MAXOBS))%nat.
Proof.
  unfold resdop.
  destruct (resdop_fold rr x azel vsat err (xyz2enu (ecef2pos rr))
              (seq 0 (n `min` MAXOBS)) ([], [], e0)) as [_ Hc].
  exact Hc.
Qed.

(** With fewer than 4 rows in the first pass, [estvel] ends its loop there. *)
Lemma estvel_few_rows :
  Nat.lt (length (resdop obs n rs dts nav e0 (sol_rr sol) (replicate 4 0.0)
                         azel vsat (opt_err opt !!! 4%nat)).1) 4 ->
  estvel obs n rs dts nav e0 opt sol azel vsat = sol.
Proof.
  intros Hfew. unfold estvel. change MAXITR with (S 9).
  change (estvel_loop obs n rs dts nav e0 opt (S 9) sol azel vsat
                      (replicate 4 0.0))
    with (match estvel_step obs n rs dts nav e0 opt sol azel vsat
                            (replicate 4 0.0) with
          | EstvelBreak => sol
          | EstvelDone x' Q => estvel_commit sol x' Q
          | EstvelNext x' =>
              estvel_loop obs n rs dts nav e0 opt 9 sol azel vsat x'
          end).
  unfold estvel_step.
  destruct (resdop _ _ _ _ _ _ _ _ _ _ _) as [v Hm]. cbn [fst] in Hfew.
  destruct (Nat.ltb_spec (length v) 4) as [_|Hge]; [reflexivity|lia].
Qed.

(** [estvel] leaves the solution as it was or writes the velocity and its
    covariance. *)
Lemma estvel_loop_keeps (k : nat) : forall x,
  let sol' := estvel_loop obs n rs dts nav e0 opt k sol azel vsat x in
  sol' = sol \/ exists x' Q, sol' = estvel_commit sol x' Q.
Proof.
  induction k as [|k IH]; intros x; cbn [estvel_loop]; [now left|].
  destruct (estvel_step _ _ _ _ _ _ _ _ _ _ _) as [|x' Q|x'].
  - now left.
  - right. now exists x', Q.
  - apply IH.
Qed.

Lemma estvel_stat :
  sol_stat (estvel obs n rs dts nav e0 opt sol azel vsat) = sol_stat sol.
Proof.
  unfold estvel.
  destruct (estvel_loop_keeps MAXITR (replicate 4 0.0)) as [-> | (x' & Q & ->)];
    reflexivity.
Qed.

(** X12. With fewer than 4 flags set among the first [min(n,MAXOBS)]
    records, [estvel] leaves the solution as it was: the velocity and its
    covariance are those of the caller. *)
Theorem estvel_needs_four_flags :
  (flag_count vsat (n `min` MAXOBS) < 4)%nat ->
  estvel obs n rs dts nav e0 opt sol azel vsat = sol.
Proof.
  intros Hfew. apply estvel_few_rows.
  eapply Nat.le_lt_trans; [apply resdop_rows|assumption].
Qed.

End ResdopProps.

(** ** The contract of [pntpos] *)

Lemma flag_count_le (vsat : list Z) (m : nat) : (flag_count vsat m <= m)%nat.
Proof.
  unfold flag_count. etransitivity; [apply length_filter|].
  now rewrite length_seq.
Qed.

Section PntPosContract.
Context `{rtk : RtkLib}.

Lemma solq_of_pntpos_opt (opt : prcopt_t) : solq_of (pntpos_opt opt) = solq_of opt.
Proof.
  unfold solq_of, pntpos_opt. now destruct (decide (opt_mode opt = PMODE_SINGLE)).
Qed.

Variables (u : pntpos_indet) (obs : list obsd_t) (nav : nav_t) (opt : prcopt_t).

(** What the position part leaves. *)
Lemma pntpos_position_outcome (n : nat) (sol : sol_t) (msg : string) :
  let ps := pntpos_position u obs n nav opt sol msg in
  (ps_stat ps = 0%Z /\ sol_stat (ps_sol ps) = sol_stat sol
   /\ estpos_failure_msg (ps_msg ps)
   /\ (ps_sol ps = sol
       \/ exists x Q ns, ps_sol ps = estpos_commit obs sol x Q ns))
  \/ (ps_stat ps = 1%Z /\ sol_stat (ps_sol ps) = solq_of opt
      /\ (ps_msg ps = msg
          \/ ((6 <= n)%nat /\ opt_posopt opt !!! 4%nat <> 0%Z
              /\ raim_stale_msg (pi_msg_e u) (ps_msg ps)))).
Proof.
  unfold pntpos_position.
  destruct (satposs _ _ _ _ _) as [[[rs dts] var] svh].
  unfold estpos.
  destruct (estpos_loop_outcome obs n rs dts var svh nav (pntpos_opt opt)
              (pi_lc u) sol msg (fun _ _ => True) (fun _ _ _ _ _ _ => I)
              MAXITR 0%nat (estpos_x0 sol) (zeros 2 n) (replicate MAXOBS 0%Z)
              (pi_resp u) I)
    as (_ & [(Hst & Hm & j & y & a & v & rp & x' & Q & _ & _ & _ & Hsol)
            |(Hst & Hm & Hsol)]).
  - rewrite Hst. cbn [Z.eqb andb ps_stat ps_sol ps_msg].
    right. split; [reflexivity|]. rewrite Hsol, solq_of_pntpos_opt.
    split; [reflexivity|]. now left.
  - assert (Hq : sol_stat (e_sol (estpos_loop obs n rs dts var svh nav
                    (pntpos_opt opt) (pi_lc u) MAXITR 0 (estpos_x0 sol) sol
                    (zeros 2 n) (replicate MAXOBS 0%Z) (pi_resp u) msg))
                 = sol_stat sol).
    { destruct Hsol as [-> | (x' & Q & ns & ->)]; reflexivity. }
    destruct ((e_stat _ =? 0)%Z && (6 <=? n)%nat
              && negb (opt_posopt opt !!! 4%nat =? 0)%Z) eqn:Ec.
    + apply andb_true_iff in Ec as [Ec Hp]. apply andb_true_iff in Ec as [_ Hn].
      apply Nat.leb_le in Hn. apply negb_true_iff, Z.eqb_neq in Hp.
      cbn [ps_stat ps_sol ps_msg]. unfold raim_fde.
      destruct (raim_scan_inv obs n rs dts var svh nav (pntpos_opt opt)
                  (pi_raim_lc u) (pi_vsat_e u) (pi_resp_e u) (pi_msg_e u)
                  (e_sol (estpos_loop obs n rs dts var svh nav
                     (pntpos_opt opt) (pi_lc u) MAXITR 0 (estpos_x0 sol) sol
                     (zeros 2 n) (replicate MAXOBS 0%Z) (pi_resp u) msg))
                  (e_azel (estpos_loop obs n rs dts var svh nav
                     (pntpos_opt opt) (pi_lc u) MAXITR 0 (estpos_x0 sol) sol
                     (zeros 2 n) (replicate MAXOBS 0%Z) (pi_resp u) msg))
                  (e_vsat (estpos_loop obs n rs dts var svh nav
                     (pntpos_opt opt) (pi_lc u) MAXITR 0 (estpos_x0 sol) sol
                     (zeros 2 n) (replicate MAXOBS 0%Z) (pi_resp u) msg))
                  (e_resp (estpos_loop obs n rs dts var svh nav
                     (pntpos_opt opt) (pi_lc u) MAXITR 0 (estpos_x0 sol) sol
                     (zeros 2 n) (replicate MAXOBS 0%Z) (pi_resp u) msg))
                  (e_msg (estpos_loop obs n rs dts var svh nav
                     (pntpos_opt opt) (pi_lc u) MAXITR 0 (estpos_x0 sol) sol
                     (zeros 2 n) (replicate MAXOBS 0%Z) (pi_resp u) msg))
                  n)
        as (_ & _ & [(H0 & _ & Hs0 & _ & _ & _ & Hm0)
                    |(H1 & _ & Hq1 & Hm1 & _)]).
      * left. rewrite H0, Hs0, Hm0. auto.
      * right. rewrite H1, Hq1, solq_of_pntpos_opt.
        split; [reflexivity|]. split; [reflexivity|]. right. auto.
    + cbn [ps_stat ps_sol ps_msg]. left. auto.
Qed.

Lemma lookup_head_none (l : list obsd_t) : l !! 0%nat = None -> l = [].
Proof. now destruct l. Qed.

Lemma lookup_head_some (l : list obsd_t) (o : obsd_t) :
  l !! 0%nat = Some o -> l <> [].
Proof. now destruct l. Qed.

Variables (sol : sol_t) (azel : option (list double))
          (ssat : option (list ssat_t)) (msg : string).

(** C6. The first statement of [pntpos] reads [obs[0]] for its trace line,
    before [n] is tested. Called with [n <= 0] on an [obs] that holds no
    record, the call has no result: the read is outside every object. Where
    [obs] holds a record, [pntpos] returns 0, sets the message to "no
    observation data" and the status of the solution to [SOLQ_NONE]; no other
    field of the solution is written, and [azel] and [ssat] are untouched. *)
Theorem pntpos_no_observation_data (n : Z) :
  (n <= 0)%Z ->
  match pntpos u obs n nav opt sol azel ssat msg with
  | None => obs = []
  | Some r =>
      obs <> []
      /\ p_stat r = 0%Z
      /\ p_msg r = "no observation data"%string
      /\ sol_stat (p_sol r) = SOLQ_NONE
      /\ p_sol r = set_stat sol SOLQ_NONE
      /\ p_azel r = azel /\ p_ssat r = ssat
  end.
Proof.
  intros Hn. unfold pntpos.
  destruct (obs !! 0%nat) as [o|] eqn:E0; [|now apply lookup_head_none].
  split; [eapply lookup_head_some; eassumption|].
  apply Z.leb_le in Hn. rewrite Hn. cbn [p_stat p_sol p_msg p_azel p_ssat].
  auto 10.
Qed.

(** C2. Called with [n > 0] on an [obs] that holds a record, [pntpos] runs
    [estvel] after the position part whatever the status [stat] of that part
    is, 1 or 0 (the latter also after a failed RAIM FDE), on the solution,
    the azimuth/elevation array and the flags that the position part has
    left; the returned status is that of the position part. The rows of the
    first pass are those of [resdop] at [sol->rr] of that solution: with
    fewer than 4 of them, or a failed solve, the solution of the position
    part is returned as it is, and with a solve whose step is shorter than
    1E-6 the velocity and its covariance of that solve are written into it.
    In every case the returned solution is that of the position part or a
    velocity written into it by a pass that converged on rows of [resdop] at
    that [sol->rr]. When the position part has failed, that solution has the
    status [SOLQ_NONE] and is the solution [estpos] was given, whose position
    is the caller's, or one with the position of a pass [valsol] rejected. *)
Theorem pntpos_always_runs_estvel (n : Z) :
  (0 < n)%Z ->
  let m := Z.to_nat n in
  let sol1 := set_time (set_stat sol SOLQ_NONE) (obs_time (obs !!! 0%nat)) in
  let opt_ := pntpos_opt opt in
  let sat := satposs (sol_time sol1) obs m nav (opt_sateph opt_) in
  let ps := pntpos_position u obs m nav opt sol1 "" in
  let first := resdop obs m sat.1.1.1 sat.1.1.2 nav (pi_e u) (sol_rr (ps_sol ps))
                      (replicate 4 0.0) (ps_azel ps) (ps_vsat ps)
                      (opt_err opt_ !!! 4%nat) in
  match pntpos u obs n nav opt sol azel ssat msg with
  | None => obs = []
  | Some r =>
      obs <> []
      /\ p_stat r = ps_stat ps
      /\ p_sol r = estvel obs m sat.1.1.1 sat.1.1.2 nav (pi_e u) opt_
                          (ps_sol ps) (ps_azel ps) (ps_vsat ps)
      /\ (ps_stat ps = 0%Z ->
          sol_stat (ps_sol ps) = SOLQ_NONE
          /\ (ps_sol ps = sol1
              \/ exists x Q ns, ps_sol ps = estpos_commit obs sol1 x Q ns))
      /\ ((length first.1 < 4)%nat -> p_sol r = ps_sol ps)
      /\ (forall info dx Q,
            (4 <= length first.1)%nat ->
            lsq first.2 first.1 4 (length first.1) = (info, dx, Q) ->
            (info <> 0%Z -> p_sol r = ps_sol ps)
            /\ (info = 0%Z -> (norm dx 4 <? 1E-6) = true ->
                p_sol r = estvel_commit (ps_sol ps)
                            (add_dx 4 (replicate 4 0.0) dx) Q))
      /\ (p_sol r = ps_sol ps
          \/ exists i x x' Q,
               estvel_reaches obs m sat.1.1.1 sat.1.1.2 nav (pi_e u) opt_
                              (ps_sol ps) (ps_azel ps) (ps_vsat ps) i x
               /\ (i < MAXITR)%nat
               /\ estvel_converges obs m sat.1.1.1 sat.1.1.2 nav (pi_e u) opt_
                                   (ps_sol ps) (ps_azel ps) (ps_vsat ps) x x' Q
               /\ p_sol r = estvel_commit (ps_sol ps) x' Q)
  end.
Proof.
  intros Hn m sol1 opt_ sat ps first. unfold pntpos.
  destruct (obs !! 0%nat) as [o|] eqn:E0; [|now apply lookup_head_none].
  split; [eapply lookup_head_some; eassumption|].
  destruct (Z.leb_spec n 0) as [Hle|_]; [lia|].
  fold m. fold sol1. fold opt_. fold sat. fold ps.
  assert (Hv : (if negb (ps_stat ps =? 0)%Z
                then estvel obs m sat.1.1.1 sat.1.1.2 nav (pi_e u) opt_
                            (ps_sol ps) (ps_azel ps) (ps_vsat ps)
                else estvel obs m sat.1.1.1 sat.1.1.2 nav (pi_e u) opt_
                            (ps_sol ps) (ps_azel ps) (ps_vsat ps))
               = estvel obs m sat.1.1.1 sat.1.1.2 nav (pi_e u) opt_
                        (ps_sol ps) (ps_azel ps) (ps_vsat ps))
    by (now destruct (negb (ps_stat ps =? 0)%Z)).
  subst first. revert Hv. destruct sat as [[[rs dts] var] svh]. cbn [fst snd].
  intros Hv. cbn [p_stat p_sol]. rewrite Hv.
  split; [reflexivity|]. split; [reflexivity|]. split.
  { intros Hst.
    destruct (pntpos_position_outcome m sol1 EmptyString)
      as [(_ & Hq & _ & Hsol) | (H1 & _)].
    - fold ps in Hq, Hsol. split; [exact Hq|exact Hsol].
    - fold ps in H1. congruence. }
  assert (Hstep : estvel obs m rs dts nav (pi_e u) opt_ (ps_sol ps) (ps_azel ps)
                         (ps_vsat ps)
                  = match estvel_step obs m rs dts nav (pi_e u) opt_ (ps_sol ps)
                                      (ps_azel ps) (ps_vsat ps)
                                      (replicate 4 0.0) with
                    | EstvelBreak => ps_sol ps
                    | EstvelDone x' Q => estvel_commit (ps_sol ps) x' Q
                    | EstvelNext x' =>
                        estvel_loop obs m rs dts nav (pi_e u) opt_ 9 (ps_sol ps)
                                    (ps_azel ps) (ps_vsat ps) x'
                    end) by reflexivity.
  split.
  { intros Hfew. rewrite Hstep. unfold estvel_step.
    destruct (resdop _ _ _ _ _ _ _ _ _ _ _) as [v Hm]. cbn [fst] in Hfew.
    destruct (Nat.ltb_spec (length v) 4) as [_|Hge]; [reflexivity|lia]. }
  split.
  { intros info dx Q Hrows Hlsq. rewrite Hstep. unfold estvel_step.
    destruct (resdop _ _ _ _ _ _ _ _ _ _ _) as [v Hm]. cbn [fst snd] in *.
    destruct (Nat.ltb_spec (length v) 4) as [Hlt|_]; [lia|].
    rewrite Hlsq. split.
    - intros Hne. apply Z.eqb_neq in Hne. now rewrite Hne.
    - intros -> Hnorm. cbn [Z.eqb negb]. now rewrite Hnorm. }
  unfold estvel. apply (estvel_loop_cases obs m rs dts nav (pi_e u) opt_
                          (ps_sol ps) (ps_azel ps) (ps_vsat ps) MAXITR 0);
    [constructor | lia].
Qed.

(** X13. The contract of [pntpos] on status and message, for an [obs] that
    holds a record (without one the call has no result). It returns 0 or 1.
    When it returns 0 the status of the solution is [SOLQ_NONE] and the
    message is "no observation data" or one of the failure messages of
    [estpos]. When it returns 1 the status of the solution is [SOLQ_SBAS] for
    SBAS ephemerides and [SOLQ_SINGLE] otherwise, and the message is empty
    unless the solution comes from RAIM FDE, in which case it is whatever
    [msg_e] of [raim_fde] held before the candidate that was kept. *)
Theorem pntpos_status_contract (n : Z) :
  match pntpos u obs n nav opt sol azel ssat msg with
  | None => obs = []
  | Some r =>
      obs <> []
      /\ ((p_stat r = 0%Z /\ sol_stat (p_sol r) = SOLQ_NONE
           /\ (p_msg r = "no observation data"%string
               \/ estpos_failure_msg (p_msg r)))
          \/ (p_stat r = 1%Z /\ (0 < n)%Z /\ sol_stat (p_sol r) = solq_of opt
              /\ (p_msg r = EmptyString
                  \/ ((6 <= n)%Z /\ opt_posopt opt !!! 4%nat <> 0%Z
                      /\ raim_stale_msg (pi_msg_e u) (p_msg r)))))
  end.
Proof.
  unfold pntpos.
  destruct (obs !! 0%nat) as [o|] eqn:E0; [|now apply lookup_head_none].
  split; [eapply lookup_head_some; eassumption|].
  destruct (Z.leb_spec n 0) as [Hle|Hgt].
  - left. cbn [p_stat p_sol p_msg]. split; [reflexivity|].
    split; [reflexivity|]. now left.
  - destruct (satposs _ _ _ _ _) as [[[rs dts] var] svh].
    cbn [p_stat p_sol p_msg].
    assert (Hsol : forall b : bool,
              sol_stat (if b
                        then estvel obs (Z.to_nat n) rs dts nav (pi_e u)
                               (pntpos_opt opt)
                               (ps_sol (pntpos_position u obs (Z.to_nat n) nav opt
                                  (set_time (set_stat sol SOLQ_NONE)
                                     (obs_time (obs !!! 0%nat))) EmptyString))
                               (ps_azel (pntpos_position u obs (Z.to_nat n) nav opt
                                  (set_time (set_stat sol SOLQ_NONE)
                                     (obs_time (obs !!! 0%nat))) EmptyString))
                               (ps_vsat (pntpos_position u obs (Z.to_nat n) nav opt
                                  (set_time (set_stat sol SOLQ_NONE)
                                     (obs_time (obs !!! 0%nat))) EmptyString))
                        else estvel obs (Z.to_nat n) rs dts nav (pi_e u)
                               (pntpos_opt opt)
                               (ps_sol (pntpos_position u obs (Z.to_nat n) nav opt
                                  (set_time (set_stat sol SOLQ_NONE)
                                     (obs_time (obs !!! 0%nat))) EmptyString))
                               (ps_azel (pntpos_position u obs (Z.to_nat n) nav opt
                                  (set_time (set_stat sol SOLQ_NONE)
                                     (obs_time (obs !!! 0%nat))) EmptyString))
                               (ps_vsat (pntpos_position u obs (Z.to_nat n) nav opt
                                  (set_time (set_stat sol SOLQ_NONE)
                                     (obs_time (obs !!! 0%nat))) EmptyString)))
              = sol_stat (ps_sol (pntpos_position u obs (Z.to_nat n) nav opt
                                  (set_time (set_stat sol SOLQ_NONE)
                                     (obs_time (obs !!! 0%nat))) EmptyString))).
    { intros []; apply estvel_stat. }
    rewrite Hsol.
    destruct (pntpos_position_outcome (Z.to_nat n)
                (set_time (set_stat sol SOLQ_NONE) (obs_time (obs !!! 0%nat)))
                EmptyString)
      as [(Hst & Hq & Hm & _) | (Hst & Hq & Hm)].
    + left. rewrite Hst, Hq. auto.
    + right. rewrite Hst, Hq. split; [reflexivity|]. split; [assumption|].
      split; [reflexivity|].
      destruct Hm as [Hm | (Hn & Hp & Hm)]; [now left|].
      right. split; [lia|]. auto.
Qed.

(** X14. With 1 to 3 observations, on an [obs] that holds a record (without
    one the call has no result), [pntpos] returns 0: [rescode] forms at most
    7 rows, fewer than the 8 unknowns. The message reports the number of rows
    of the first pass, constraint rows included, as [ns]; RAIM FDE is not
    tried and [estvel] finds fewer than 4 range rates, so nothing of the
    solution is written but the status and the time. *)
Theorem pntpos_needs_four_observations (n : Z) :
  (0 < n <= 3)%Z ->
  let m := Z.to_nat n in
  let sol1 := set_time (set_stat sol SOLQ_NONE) (obs_time (obs !!! 0%nat)) in
  let sat := satposs (sol_time sol1) obs m nav (opt_sateph (pntpos_opt opt)) in
  let nv := r_nv (rescode 0 obs m sat.1.1.1 sat.1.1.2 sat.1.2 sat.2 nav
                          (estpos_x0 sol1) (pntpos_opt opt) (pi_lc u)
                          (zeros 2 m) (replicate MAXOBS 0%Z) (pi_resp u)) in
  match pntpos u obs n nav opt sol azel ssat msg with
  | None => obs = []
  | Some r =>
      obs <> []
      /\ p_stat r = 0%Z
      /\ p_sol r = sol1
      /\ (5 <= nv <= 7)%nat
      /\ p_msg r = ("lack of valid sats ns=" ++ fmt_d (Z.of_nat nv))%string
  end.
Proof.
  intros Hn m sol1 sat nv. unfold pntpos.
  destruct (obs !! 0%nat) as [o|] eqn:E0; [|now apply lookup_head_none].
  split; [eapply lookup_head_some; eassumption|].
  destruct (Z.leb_spec n 0) as [Hle|_]; [lia|].
  unfold pntpos_position. fold m. fold sol1. fold sat.
  subst nv. destruct sat as [[[rs dts] var] svh]. cbn [fst snd].
  pose proof (rescode_rows 0 obs m rs dts var svh nav (estpos_x0 sol1)
                (pntpos_opt opt) (pi_lc u) (zeros 2 m)
                (replicate MAXOBS 0%Z) (pi_resp u))
    as (_ & _ & _ & Hlo & Hhi).
  cbn zeta in Hlo, Hhi.
  assert (Hm : (m <= 3)%nat) by (subst m; lia).
  assert (Hm1 : (1 <= m)%nat) by (subst m; lia).
  rewrite estpos_first_pass_short by (unfold NX in *; lia).
  cbn [e_stat e_sol e_azel e_vsat e_resp e_msg Z.eqb andb].
  destruct (Nat.leb_spec 6 m) as [H6|_]; [lia|].
  cbn [andb ps_stat ps_sol ps_azel ps_vsat ps_resp ps_msg Z.eqb negb
       p_stat p_sol p_msg].
  split; [reflexivity|]. split.
  - apply estvel_few_rows.
    eapply Nat.le_lt_trans; [apply resdop_rows|].
    eapply Nat.le_lt_trans; [apply flag_count_le|]. lia.
  - split; [unfold NX in *; lia|]. reflexivity.
Qed.

(** X15. For precise positioning the ionosphere and troposphere options of
    the caller play no part: the broadcast model and Saastamoinen are used
    whatever they are. *)
Theorem pntpos_precise_options (n : Z) (io : ionoopt_t) (tr : tropopt_t) :
  opt_mode opt <> PMODE_SINGLE ->
  pntpos u obs n nav
         (mk_prcopt (opt_mode opt) io tr (opt_sateph opt) (opt_elmin opt)
                    (opt_snrmask opt) (opt_err opt) (opt_maxgdop opt)
                    (opt_posopt opt))
         sol azel ssat msg
  = pntpos u obs n nav opt sol azel ssat msg
  /\ opt_ionoopt (pntpos_opt opt) = IONOOPT_BRDC
  /\ opt_tropopt (pntpos_opt opt) = TROPOPT_SAAS.
Proof.
  intros Hmode.
  assert (Ho : pntpos_opt (mk_prcopt (opt_mode opt) io tr (opt_sateph opt)
                             (opt_elmin opt) (opt_snrmask opt) (opt_err opt)
                             (opt_maxgdop opt) (opt_posopt opt))
               = pntpos_opt opt).
  { unfold pntpos_opt. cbn [opt_mode opt_sateph opt_elmin opt_snrmask opt_err
                            opt_maxgdop opt_posopt].
    destruct (decide (opt_mode opt = PMODE_SINGLE)); [contradiction|reflexivity]. }
  split.
  - unfold pntpos, pntpos_position. rewrite Ho. reflexivity.
  - unfold pntpos_opt.
    destruct (decide (opt_mode opt = PMODE_SINGLE)); [contradiction|now split].
Qed.

End PntPosContract.

(** ** The satellite status array *)

Section SsatProps.
Context `{rtk : RtkLib}.

Variables (obs : list obsd_t) (n : nat) (azel_ : list double) (vsat : list Z)
          (resp : list double) (ssat : list ssat_t).

Hypothesis Hlen : (MAXSAT <= length ssat)%nat.
Hypothesis Hsat : forall i, (i < n)%nat ->
                    (1 <= obs_sat (obs !!! i) <= Z.of_nat MAXSAT)%Z.




End SsatProps.

Section PntPosSsat.
Context `{rtk : RtkLib}.

Variables (u : pntpos_indet) (obs : list obsd_t) (n : Z) (nav : nav_t)
          (opt : prcopt_t) (sol : sol_t) (azel : option (list double))
          (ss : list ssat_t) (msg : string).

Hypothesis Hlen : (MAXSAT <= length ss)%nat.
Hypothesis Hsat : forall i, (i < Z.to_nat n)%nat ->
                    (1 <= obs_sat (obs !!! i) <= Z.of_nat MAXSAT)%Z.


End PntPosSsat.

(** ** The correction models *)

Section ModelProps.
Context `{rtk : RtkLib}.

(** X17. [tropcorr] reports success for every option, so the test of its
    status in [rescode] never drops a satellite. Without a model the delay is
    0 with the variance [ERR_TROP] squared. *)
Theorem tropcorr_never_fails (time : gtime_t) (nav : nav_t)
    (pos azel : list double) (tropopt : tropopt_t) :
  (tropcorr time nav pos azel tropopt).1.1 = 1%Z
  /\ tropcorr time nav pos azel TROPOPT_OFF = (1%Z, 0.0, SQR ERR_TROP).
Proof.
  split; [|reflexivity].
  unfold tropcorr. destruct tropopt; cbn; try reflexivity.
  now destruct (sbstropcorr time pos azel).
Qed.

(** X18. [ionocorr] can report a failure only for the SBAS and the TEC
    options, where the status is that of [sbsioncorr] and [iontec]. For the
    other options it reports success: the broadcast model with the variance
    of [ERR_BRDCI] times the delay, no delay with the variance [ERR_ION]
    squared when the correction is off, and no delay with no variance for
    the ionosphere-free combination and for the QZSS option without QZSS
    parameters. *)
Theorem ionocorr_status (time : gtime_t) (nav : nav_t) (sat : Z)
    (pos azel : list double) (ionoopt : ionoopt_t) :
  let r := ionocorr time nav sat pos azel ionoopt in
  (r.1.1 = 1%Z
   \/ (ionoopt = IONOOPT_SBAS /\ r = sbsioncorr time nav pos azel)
   \/ (ionoopt = IONOOPT_TEC /\ r = iontec time nav pos azel 1))
  /\ ionocorr time nav sat pos azel IONOOPT_OFF = (1%Z, 0.0, SQR ERR_ION)
  /\ ionocorr time nav sat pos azel IONOOPT_IFLC = (1%Z, 0.0, 0.0)
  /\ ionocorr time nav sat pos azel IONOOPT_BRDC
     = (1%Z, ionmodel time (nav_ion_gps nav) pos azel,
        SQR (ionmodel time (nav_ion_gps nav) pos azel * ERR_BRDCI))
  /\ ((0.0 <? norm (nav_ion_qzs nav) 8) = false ->
      ionocorr time nav sat pos azel IONOOPT_QZS = (1%Z, 0.0, 0.0)).
Proof.
  intros r. subst r. split; [|split; [|split; [|split]]]; try reflexivity.
  - unfold ionocorr. destruct ionoopt; cbn; auto.
    destruct (0.0 <? norm (nav_ion_qzs nav) 8); auto.
  - intros Hq. unfold ionocorr. cbn. now rewrite Hq.
Qed.

(** X19. The variance [prange] reports does not depend on the constellation:
    it is 0 when the pseudorange is missing and for the ionosphere-free
    combination, and [ERR_CBIAS] squared for a single frequency. A missing
    pseudorange gives the range 0. *)
Theorem prange_variance (obs : obsd_t) (nav : nav_t) (opt : prcopt_t) :
  let missing := (obs_P obs !!! 0%nat =? 0.0)
                 || (bool_decide (opt_ionoopt opt = IONOOPT_IFLC)
                     && (obs_P obs !!! 1%nat =? 0.0)) in
  (prange obs nav opt).2
  = (if missing || bool_decide (opt_ionoopt opt = IONOOPT_IFLC)
     then 0.0 else SQR ERR_CBIAS)
  /\ (missing = true -> (prange obs nav opt).1 = 0.0).
Proof.
  intros missing. subst missing. unfold prange.
  destruct ((obs_P obs !!! 0%nat =? 0.0)
            || (bool_decide (opt_ionoopt opt = IONOOPT_IFLC)
                && (obs_P obs !!! 1%nat =? 0.0))); cbn [orb fst snd].
  - split; reflexivity.
  - split; [|discriminate].
    destruct (decide (opt_ionoopt opt = IONOOPT_IFLC)) as [Hi|Hi].
    + rewrite (bool_decide_eq_true_2 _ Hi).
      repeat case_match; reflexivity.
    + rewrite (bool_decide_eq_false_2 _ Hi).
      repeat case_match; reflexivity.
Qed.

(** X20. [gettgd] looks a satellite up by its number alone, in the GLONASS
    ephemerides for a GLONASS satellite and in the others otherwise: the
    first record of the satellite in the list is used, and without one the
    delay is 0. *)
Theorem gettgd_first_record (sat : Z) (nav : nav_t) (type : nat) :
  (satsys sat <> SYS_GLO ->
   ((forall e, e ∈ nav_eph nav -> eph_sat e <> sat) ->
    gettgd sat nav type = 0.0)
   /\ (forall l1 e l2,
         nav_eph nav = l1 ++ e :: l2 ->
         (forall e', e' ∈ l1 -> eph_sat e' <> sat) -> eph_sat e = sat ->
         gettgd sat nav type = (eph_tgd e !!! type) * CLIGHT))
  /\ (satsys sat = SYS_GLO ->
      ((forall g, g ∈ nav_geph nav -> geph_sat g <> sat) ->
       gettgd sat nav type = 0.0)
      /\ (forall l1 g l2,
            nav_geph nav = l1 ++ g :: l2 ->
            (forall g', g' ∈ l1 -> geph_sat g' <> sat) -> geph_sat g = sat ->
            gettgd sat nav type = - geph_dtaun g * CLIGHT)).
Proof.
  assert (Hfind : forall {A} (key : A -> Z) (l : list A),
            ((forall a, a ∈ l -> key a <> sat) ->
             find (fun a => (key a =? sat)%Z) l = None)
            /\ (forall l1 a l2, l = l1 ++ a :: l2 ->
                  (forall a', a' ∈ l1 -> key a' <> sat) -> key a = sat ->
                  find (fun a => (key a =? sat)%Z) l = Some a)).
  { intros A key l. split.
    - induction l as [|a l IH]; intros Hall; [reflexivity|]. simpl.
      destruct (Z.eqb_spec (key a) sat) as [He|_].
      + exfalso. apply (Hall a); [left|assumption].
      + apply IH. intros a' Ha'. apply Hall. now right.
    - intros l1 a l2 -> Hall Ha. induction l1 as [|b l1 IH]; simpl.
      + now rewrite (proj2 (Z.eqb_eq _ _) Ha).
      + destruct (Z.eqb_spec (key b) sat) as [He|_].
        * exfalso. apply (Hall b); [left|assumption].
        * apply IH. intros a' Ha'. apply Hall. now right. }
  unfold gettgd. split; intros Hsys.
  - rewrite decide_False by assumption.
    destruct (Hfind _ eph_sat (nav_eph nav)) as [Hn Hs]. split.
    + intros Hall. now rewrite Hn.
    + intros l1 e l2 Hl Hall He. now rewrite (Hs l1 e l2).
  - rewrite decide_True by assumption.
    destruct (Hfind _ geph_sat (nav_geph nav)) as [Hn Hs]. split.
    + intros Hall. now rewrite Hn.
    + intros l1 g l2 Hl Hall Hg. now rewrite (Hs l1 g l2).
Qed.

End ModelProps.

(** ** The residuals of the flagged records *)

Section ResidualProps.
Context `{rtk : RtkLib}.

Variables (iter : nat) (obs : list obsd_t) (n : nat)
          (rs dts vare : list double) (svh : list Z) (nav : nav_t)
          (x : list double) (opt : prcopt_t) (lc0 : rescode_locals).

Lemma flagged_succ (vsat : list Z) (m : nat) :
  flagged vsat (S m)
  = flagged vsat m ++ (if decide (vsat !!! m <> 0%Z) then [m] else []).
Proof.
  unfold flagged. rewrite seq_S, filter_app. simpl.
  rewrite filter_cons, filter_nil. now case_decide.
Qed.

Lemma flagged_ext (vs vs' : list Z) (m : nat) :
  (forall j, (j < m)%nat -> vs !!! j = vs' !!! j) ->
  flagged vs m = flagged vs' m.
Proof.
  induction m as [|m IH]; intros Heq; [reflexivity|].
  rewrite !flagged_succ, IH, (Heq m) by (intros; auto with lia).
  reflexivity.
Qed.

Lemma flagged_below (vsat : list Z) (m j : nat) :
  j ∈ flagged vsat m -> (j < m)%nat /\ vsat !!! j <> 0%Z.
Proof.
  unfold flagged. intros Hin. apply list_elem_of_filter in Hin as [Hnz Hin].
  apply elem_of_seq in Hin. split; [lia|assumption].
Qed.

Lemma flagged_zero_tail (vs : list Z) (i m : nat) :
  (i <= m)%nat -> (forall j, (i <= j < m)%nat -> vs !!! j = 0%Z) ->
  flagged vs m = flagged vs i.
Proof.
  induction m as [|m IH]; intros Hle Hz.
  - now replace i with 0%nat by lia.
  - destruct (decide (i = S m)) as [->|Hne]; [reflexivity|].
    rewrite flagged_succ, IH by (try lia; intros; apply Hz; lia).
    rewrite decide_False; [now rewrite app_nil_r|].
    intros Hnz. apply Hnz, Hz. lia.
Qed.

Lemma map_resp_ext (rp rp' : list double) (l : list nat) :
  (forall j, j ∈ l -> rp !!! j = rp' !!! j) ->
  map (fun j => rp !!! j) l = map (fun j => rp' !!! j) l.
Proof.
  induction l as [|a l IH]; intros Heq; [reflexivity|]. simpl.
  rewrite (Heq a) by left. f_equal. apply IH. intros j Hj. apply Heq. now right.
Qed.

(** The residual that a row is formed with is the one stored for the
    record. *)
Lemma rescode_row_resp i sys r e lc st :
  let st' := rescode_row obs dts vare nav x opt i sys r e lc st in
  st' = st
  \/ exists vi, r_v st' = r_v st ++ [vi]
                /\ r_resp st' = <[i := vi]> (r_resp st)
                /\ r_vsat st' = <[i := 1%Z]> (r_vsat st).
Proof.
  intros st'. subst st'. unfold rescode_row.
  destruct (prange (obs !!! i) nav opt) as [P vmeas].
  destruct (P =? 0.0); [now left|]. right.
  repeat case_match; simplify_eq; simpl; eexists; repeat split; reflexivity.
Qed.

Lemma rescode_obs_resp i st :
  let st' := (rescode_obs iter obs n rs dts vare svh nav x opt lc0 i st).2 in
  (r_v st' = r_v st /\ r_vsat st' = <[i := 0%Z]> (r_vsat st)
   /\ r_resp st' = <[i := 0.0]> (r_resp st))
  \/ exists vi, r_v st' = r_v st ++ [vi]
                /\ r_vsat st' = <[i := 1%Z]> (<[i := 0%Z]> (r_vsat st))
                /\ r_resp st' = <[i := vi]> (<[i := 0.0]> (r_resp st)).
Proof.
  intros st'. subst st'. unfold rescode_obs.
  repeat case_match; simpl;
    try (left; repeat split; reflexivity);
    match goal with
    | |- context [rescode_row _ _ _ _ _ _ _ ?sys ?r ?e ?lc ?s] =>
        destruct (rescode_row_resp i sys r e lc s)
          as [-> | (vi & Hv & Hr & Hvs)]
    end;
    try (left; repeat split; reflexivity);
    right; exists vi; rewrite Hv, Hr, Hvs; repeat split; reflexivity.
Qed.

(** The satellite rows against the flags. *)
Lemma rescode_loop_residuals fuel : forall i st,
  (n - i <= fuel)%nat -> (i <= n)%nat -> (n <= length (r_vsat st))%nat ->
  (n <= length (r_resp st))%nat ->
  (forall j, (i <= j < n)%nat -> j ∉ visits obs n fuel i -> r_vsat st !!! j = 0%Z) ->
  r_v st = map (fun j => r_resp st !!! j) (flagged (r_vsat st) i) ->
  let out := rescode_loop iter obs n rs dts vare svh nav x opt lc0 fuel i st in
  r_v out = map (fun j => r_resp out !!! j) (flagged (r_vsat out) n).
Proof.
  induction fuel as [|fuel IH]; intros i st Hfuel Hin Hlen Hlr Hz Hv; simpl.
  - now replace n with i by lia.
  - destruct (Nat.ltb_spec i n) as [Hi|Hi]; simpl.
    2:{ now replace n with i by lia. }
    simpl in Hz. apply Nat.ltb_lt in Hi as Hi'. rewrite Hi' in Hz. simpl in Hz.
    destruct (Nat.ltb_spec i MAXOBS) as [Hm|Hm].
    2:{ rewrite Hv. f_equal. symmetry. apply flagged_zero_tail; [lia|].
        intros j Hj. apply Hz; [lia|]. intros H'. now apply elem_of_nil in H'. }
    pose proof (rescode_obs_resp i st) as Heff.
    pose proof (rescode_obs_flag iter obs n rs dts vare svh nav x opt lc0 i st)
      as [Hflag Hskip].
    destruct (rescode_obs iter obs n rs dts vare svh nav x opt lc0 i st)
      as [dup st']. simpl in *. subst dup.
    assert (Hd2 : dup_at obs n i = true -> (i + 2 <= n)%nat).
    { unfold dup_at. rewrite !andb_true_iff, Nat.ltb_lt. lia. }
    assert (Hnext : S i ∉ visits obs n fuel (i + 2)%nat).
    { intros H'. apply visits_bounds in H'. lia. }
    assert (Hbelow : forall (vs : list Z) (b : Z), flagged (<[i := b]> vs) i = flagged vs i).
    { intros vs b. apply flagged_ext. intros j Hj.
      apply list_lookup_total_insert_ne. lia. }
    assert (Hmap : forall (rp : list double) (b : double) (vs : list Z),
              map (fun j => <[i := b]> rp !!! j) (flagged vs i)
              = map (fun j => rp !!! j) (flagged vs i)).
    { intros rp b vs. apply map_resp_ext. intros j Hj.
      apply flagged_below in Hj as [Hj _].
      apply list_lookup_total_insert_ne. lia. }
    apply IH.
    + destruct (dup_at obs n i); lia.
    + destruct (dup_at obs n i); [apply Hd2; reflexivity | lia].
    + destruct Heff as [(_ & -> & _) | (? & _ & -> & _)];
        now rewrite ?length_insert.
    + destruct Heff as [(_ & _ & ->) | (? & _ & _ & ->)];
        now rewrite ?length_insert.
    + intros j Hj Hnv.
      assert (Hji : j <> i) by (destruct (dup_at obs n i); lia).
      assert (Hold : r_vsat st !!! j = 0%Z).
      { apply Hz; [destruct (dup_at obs n i); lia|].
        apply not_elem_of_cons. split; assumption. }
      destruct Heff as [(_ & -> & _) | (? & _ & -> & _)];
        now rewrite ?list_lookup_total_insert_ne by congruence.
    + destruct (dup_at obs n i) eqn:Hd.
      * destruct (Hskip eq_refl) as (Hv' & _ & _ & _ & _ & Hvs & Hr).
        rewrite Hv', Hvs, Hr. replace (i + 2)%nat with (S (S i)) by lia.
        rewrite !flagged_succ, Hbelow.
        rewrite list_lookup_total_insert_eq by lia.
        rewrite list_lookup_total_insert_ne by lia.
        rewrite (Hz (S i)).
        -- rewrite !decide_False by (intros H'; now apply H').
           rewrite !app_nil_r, Hmap. assumption.
        -- specialize (Hd2 eq_refl). lia.
        -- apply not_elem_of_cons. split; [lia|assumption].
      * replace (i + 1)%nat with (S i) by lia. rewrite flagged_succ.
        destruct Heff as [(Hv' & Hvs & Hr) | (vi & Hv' & Hvs & Hr)];
          rewrite Hv', Hvs, Hr.
        -- rewrite Hbelow, list_lookup_total_insert_eq by lia.
           rewrite decide_False by (intros H'; now apply H').
           rewrite app_nil_r, Hmap. assumption.
        -- rewrite !Hbelow, list_lookup_total_insert_eq
             by (rewrite length_insert; lia).
           rewrite decide_True by discriminate.
           rewrite map_app, !Hmap. cbn [map].
           rewrite list_lookup_total_insert_eq by (rewrite length_insert; lia).
           now rewrite Hv.
Qed.

Variables (azel : list double) (vsat : list Z) (resp : list double).

(** X21. The residuals [rescode] returns in [v] are, in order, the entries of
    [resp] of the records whose flag it has set, followed by a 0 for each
    constraint row; this is for flags and residuals given for all [n]
    observations, with the flags of the records it does not look at being 0.
    The sum that [raim_fde] forms over [resp] of the flagged records is the
    sum over the satellite rows. *)
Theorem rescode_residuals_of_flagged :
  (n <= length vsat)%nat -> (n <= length resp)%nat ->
  (forall j, (j < n)%nat -> j ∉ visits obs n n 0 -> vsat !!! j = 0%Z) ->
  let st := rescode_sats iter obs n rs dts vare svh nav x opt lc0 azel vsat resp in
  let out := rescode iter obs n rs dts vare svh nav x opt lc0 azel vsat resp in
  r_v out = map (fun j => r_resp out !!! j) (flagged (r_vsat out) n)
            ++ replicate (length (unseen (r_mask st))) 0.0
  /\ length (flagged (r_vsat out) n) = r_ns out.
Proof.
  intros Hlen Hlr Hz st out.
  pose proof (rescode_constraint_fold (seq 0 (NX - 3)) st)
    as (Hv & _ & _ & _ & Hvs & _ & Hr & Hns).
  change (foldl rescode_constraint st (seq 0 (NX - 3))) with out
    in Hv, Hvs, Hr, Hns.
  change (filter _ (seq 0 (NX - 3))) with (unseen (r_mask st)) in Hv.
  assert (Hst : r_v st = map (fun j => r_resp st !!! j) (flagged (r_vsat st) n)).
  { subst st. unfold rescode_sats.
    apply rescode_loop_residuals; simpl; try lia; try reflexivity.
    intros j Hj. apply Hz. lia. }
  split.
  - rewrite Hv, Hvs, Hr, Hst. f_equal.
    generalize (unseen (r_mask st)). intros l.
    induction l as [|a l IH]; [reflexivity|].
    simpl. now rewrite IH.
  - rewrite Hvs, Hns. change (length (flagged (r_vsat st) n))
      with (flag_count (r_vsat st) n).
    symmetry. subst st. unfold rescode_sats.
    apply rescode_loop_flag_count; simpl; try lia; try reflexivity.
    intros j Hj. apply Hz. lia.
Qed.

End ResidualProps.

(** ** The records [rescode] does not look at *)

Section FrameProps.
Context `{rtk : RtkLib}.

Variables (obs : list obsd_t) (n : nat)
          (rs dts vare : list double) (svh : list Z) (nav : nav_t)
          (opt : prcopt_t) (lc0 : rescode_locals).

(** The loop writes [resp] at the indices of its passes only. *)
Lemma rescode_loop_resp iter x fuel : forall i st,
  let out := rescode_loop iter obs n rs dts vare svh nav x opt lc0 fuel i st in
  length (r_resp out) = length (r_resp st)
  /\ (forall j, j ∉ visits obs n fuel i -> r_resp out !!! j = r_resp st !!! j).
Proof.
  induction fuel as [|fuel IH]; intros i st; simpl.
  - split; reflexivity.
  - destruct ((i <? n)%nat && (i <? MAXOBS)%nat); [|split; reflexivity].
    pose proof (rescode_obs_resp iter obs n rs dts vare svh nav x opt lc0 i st)
      as Heff.
    pose proof (rescode_obs_flag iter obs n rs dts vare svh nav x opt lc0 i st)
      as [Hflag _].
    destruct (rescode_obs iter obs n rs dts vare svh nav x opt lc0 i st)
      as [dup st']. simpl in *. subst dup.
    destruct (IH (if dup_at obs n i then i + 2 else i + 1)%nat st')
      as (Hlen & Hout).
    split.
    + rewrite Hlen.
      destruct Heff as [(_ & _ & ->) | (? & _ & _ & ->)];
        now rewrite ?length_insert.
    + intros j Hj. apply not_elem_of_cons in Hj as [Hne Hj].
      rewrite Hout by assumption.
      destruct Heff as [(_ & _ & ->) | (? & _ & _ & ->)];
        now rewrite ?list_lookup_total_insert_ne by congruence.
Qed.

(** [rescode] keeps the length of [vsat] and [resp], and the entries of the
    records it does not look at. *)
Lemma rescode_frame iter x azel vsat resp :
  let out := rescode iter obs n rs dts vare svh nav x opt lc0 azel vsat resp in
  (length (r_vsat out) = length vsat /\ length (r_resp out) = length resp)
  /\ forall j, j ∉ visits obs n n 0 ->
       r_vsat out !!! j = vsat !!! j /\ r_resp out !!! j = resp !!! j.
Proof.
  intros out.
  pose proof (rescode_constraint_fold (seq 0 (NX - 3))
                (rescode_sats iter obs n rs dts vare svh nav x opt lc0 azel
                              vsat resp)) as (_ & _ & _ & _ & Hvs & _ & Hr & _).
  change (foldl rescode_constraint _ (seq 0 (NX - 3))) with out in Hvs, Hr.
  rewrite Hvs, Hr. unfold rescode_sats.
  destruct (rescode_loop_flags iter obs n rs dts vare svh nav x opt lc0 n 0
              (mk_rst [] [] [] azel vsat resp 0 (replicate (NX - 3) 0%Z)))
    as (Hlv & Hv & _).
  destruct (rescode_loop_resp iter x n 0
              (mk_rst [] [] [] azel vsat resp 0 (replicate (NX - 3) 0%Z)))
    as (Hlr & Hrp).
  split; [split; assumption|].
  intros j Hj. split; [now apply Hv | now apply Hrp].
Qed.

Variables (sol : sol_t) (msg : string).

(** X22. [estpos] writes the flag and the residual of a record only when
    [rescode] looks at it: the entries of the record that follows a
    duplicated satellite, and of the records from [MAXOBS] on, are on return
    what they were on entry, and the arrays keep their lengths. *)
Theorem estpos_unvisited_kept (azel : list double) (vsat : list Z)
    (resp : list double) :
  let r := estpos obs n rs dts vare svh nav opt lc0 sol azel vsat resp msg in
  length (e_vsat r) = length vsat /\ length (e_resp r) = length resp
  /\ forall j, j ∉ visits obs n n 0 ->
       e_vsat r !!! j = vsat !!! j /\ e_resp r !!! j = resp !!! j.
Proof.
  intros r. subst r. unfold estpos.
  destruct (estpos_loop_outcome obs n rs dts vare svh nav opt lc0 sol msg
              (fun v rp =>
                 (length v = length vsat /\ length rp = length resp)
                 /\ forall j, j ∉ visits obs n n 0 ->
                      v !!! j = vsat !!! j /\ rp !!! j = resp !!! j))
    with (k := MAXITR) (i := 0%nat) (x := estpos_x0 sol) (azel := azel)
         (vsat := vsat) (resp := resp) as ([[Hlv Hlr] Hfr] & _).
  - intros i x a v rp [[Hlv Hlr] Hfr].
    destruct (rescode_frame i x a v rp) as [[Hlv' Hlr'] Hfr'].
    cbn zeta. split; [split; congruence|].
    intros j Hj. destruct (Hfr' j Hj) as [-> ->]. now apply Hfr.
  - split; [split; reflexivity|]. intros j _. split; reflexivity.
  - split; [assumption|]. split; assumption.
Qed.

End FrameProps.

Section RaimUnset.
Context `{rtk : RtkLib}.

Variables (obs : list obsd_t) (n : nat)
          (rs dts vare : list double) (svh : list Z) (nav : nav_t)
          (opt : prcopt_t) (lcs : nat -> rescode_locals).

(** The work arrays after a candidate are those [estpos] left for it. *)
Lemma raim_step_work (st : raim_st) (i : nat) :
  let r := estpos (exclude n obs i) (n - 1) (exclude_blocks n 6 rs i)
                  (exclude_blocks n 2 dts i) (exclude n vare i)
                  (exclude n svh i) nav opt (lcs i) (ra_sol_e st) (ra_azel_e st)
                  (ra_vsat_e st) (ra_resp_e st) (ra_msg_e st) in
  let st' := raim_step obs n rs dts vare svh nav opt lcs st i in
  ra_vsat_e st' = e_vsat r /\ ra_resp_e st' = e_resp r.
Proof.
  intros r st'. subst st'. unfold raim_step, raim_candidate. fold r.
  destruct (e_stat r =? 0)%Z.
  - split; reflexivity.
  - destruct (raim_sumsq n (e_vsat r) (e_resp r)) as [sumsq nvsat].
    destruct (nvsat <? 5)%nat; [split; reflexivity|].
    destruct (_ >? ra_rms st); [split; reflexivity|].
    destruct (raim_save n i _ _ _ _ _ _) as [[a v] rp]. split; reflexivity.
Qed.

(** X23. [raim_fde] does not initialise [vsat_e] and [resp_e], and a pass
    over a candidate writes only the slots of the records that [rescode]
    looks at. The slot that follows a duplicated satellite in the reduced
    arrays holds after the pass what it held before, which for the first
    candidate is the indeterminate content of the arrays. *)
Theorem raim_unvisited_slots_unset (st : raim_st) (i : nat)
    (vsat_e0 : list Z) (resp_e0 : list double) (msg_e0 : string)
    (sol : sol_t) (azel : list double) (vsat : list Z) (resp : list double)
    (msg : string) :
  let st' := raim_step obs n rs dts vare svh nav opt lcs st i in
  let st1 := raim_scan obs n rs dts vare svh nav opt lcs
               (raim_init n sol azel vsat resp msg vsat_e0 resp_e0 msg_e0) 1 in
  (forall k, k ∉ visits (exclude n obs i) (n - 1) (n - 1) 0 ->
     ra_vsat_e st' !!! k = ra_vsat_e st !!! k
     /\ ra_resp_e st' !!! k = ra_resp_e st !!! k)
  /\ (forall k, k ∉ visits (exclude n obs 0) (n - 1) (n - 1) 0 ->
        ra_vsat_e st1 !!! k = vsat_e0 !!! k
        /\ ra_resp_e st1 !!! k = resp_e0 !!! k).
Proof.
  assert (Hstep : forall st i k,
            k ∉ visits (exclude n obs i) (n - 1) (n - 1) 0 ->
            ra_vsat_e (raim_step obs n rs dts vare svh nav opt lcs st i) !!! k
            = ra_vsat_e st !!! k
            /\ ra_resp_e (raim_step obs n rs dts vare svh nav opt lcs st i) !!! k
               = ra_resp_e st !!! k).
  { intros st0 i0 k Hk.
    destruct (raim_step_work st0 i0) as [-> ->].
    unfold estpos.
    destruct (estpos_loop_outcome (exclude n obs i0) (n - 1)
                (exclude_blocks n 6 rs i0) (exclude_blocks n 2 dts i0)
                (exclude n vare i0) (exclude n svh i0) nav opt (lcs i0)
                (ra_sol_e st0) (ra_msg_e st0)
                (fun v rp =>
                   forall j, j ∉ visits (exclude n obs i0) (n - 1) (n - 1) 0 ->
                     v !!! j = ra_vsat_e st0 !!! j
                     /\ rp !!! j = ra_resp_e st0 !!! j))
      with (k := MAXITR) (i := 0%nat) (x := estpos_x0 (ra_sol_e st0))
           (azel := ra_azel_e st0) (vsat := ra_vsat_e st0)
           (resp := ra_resp_e st0) as (Hfr & _).
    - intros i1 x a v rp Hfr.
      destruct (rescode_frame (exclude n obs i0) (n - 1)
                  (exclude_blocks n 6 rs i0) (exclude_blocks n 2 dts i0)
                  (exclude n vare i0) (exclude n svh i0) nav opt (lcs i0)
                  i1 x a v rp) as [_ Hfr'].
      cbn zeta. intros j Hj. destruct (Hfr' j Hj) as [-> ->]. now apply Hfr.
    - intros j _. split; reflexivity.
    - now apply Hfr. }
  intros st' st1. split; [intros k Hk; now apply Hstep|].
  intros k Hk. subst st1. unfold raim_scan. cbn [seq foldl].
  now apply Hstep.
Qed.

End RaimUnset.

(** ** What a set flag tells *)

Section KeptProps.
Context `{rtk : RtkLib}.

Variables (iter : nat) (obs : list obsd_t) (n : nat)
          (rs dts vare : list double) (svh : list Z) (nav : nav_t)
          (x : list double) (opt : prcopt_t) (lc0 : rescode_locals).

Lemma rescode_row_kept i sys r e lc st :
  (i < length (r_vsat st))%nat -> r_vsat st !!! i = 0%Z ->
  r_vsat (rescode_row obs dts vare nav x opt i sys r e lc st) !!! i <> 0%Z ->
  ((prange (obs !!! i) nav opt).1 =? 0.0) = false.
Proof.
  intros Hi Hz. unfold rescode_row.
  destruct (prange (obs !!! i) nav opt) as [P vmeas]. cbn [fst].
  destruct (P =? 0.0); [|reflexivity].
  intros Hnz. now rewrite Hz in Hnz.
Qed.

(** A pass that leaves the flag of its record set has passed the tests. *)
Lemma rescode_obs_kept i st :
  (i < length (r_vsat st))%nat ->
  r_vsat (rescode_obs iter obs n rs dts vare svh nav x opt lc0 i st).2 !!! i
  <> 0%Z ->
  passes_tests iter obs n rs vare svh nav x opt i.
Proof.
  intros Hi. unfold rescode_obs, passes_tests, dup_at.
  assert (Hreset : r_vsat (rescode_reset i st) !!! i = 0%Z).
  { cbn [rescode_reset r_vsat]. now apply list_lookup_total_insert_eq. }
  assert (Hlen : (i < length (r_vsat (rescode_reset i st)))%nat).
  { cbn [rescode_reset r_vsat]. now rewrite length_insert. }
  destruct (decide (satsys (obs_sat (obs !!! i)) = SYS_NONE)) as [Es|Es];
    [cbn [snd]; intros Hnz; now rewrite Hreset in Hnz|].
  rewrite (bool_decide_eq_false_2 _ Es). cbn [negb andb].
  destruct ((i <? n - 1)%nat && (i <? MAXOBS - 1)%nat
            && (obs_sat (obs !!! i) =? obs_sat (obs !!! (i + 1)%nat))%Z);
    [cbn [snd]; intros Hnz; now rewrite Hreset in Hnz|].
  destruct (satexclude _ _ _ _);
    [cbn [snd]; intros Hnz; now rewrite Hreset in Hnz|].
  cbn zeta.
  destruct (geodist _ _) as [r e]. cbn [fst snd].
  destruct (r <=? 0.0);
    [cbn [snd]; intros Hnz; now rewrite Hreset in Hnz|].
  destruct (Nat.ltb_spec 0 iter) as [Hit|Hit].
  - destruct (satazel _ e) as [el az]. cbn [fst].
    destruct (el <? opt_elmin opt);
      [cbn [snd r_vsat]; intros Hnz; now rewrite Hreset in Hnz|].
    intros Hnz.
    split; [assumption|]. split; [reflexivity|]. split; [reflexivity|].
    split; [reflexivity|]. split; [|reflexivity].
    revert Hnz. repeat case_match; cbn [snd r_vsat];
      try (intros Hnz; now rewrite Hreset in Hnz).
    apply rescode_row_kept; assumption.
  - cbn [snd]. intros Hnz.
    split; [assumption|]. split; [reflexivity|]. split; [reflexivity|].
    split; [reflexivity|]. split; [|intros; lia].
    revert Hnz. apply rescode_row_kept; assumption.
Qed.

Lemma rescode_loop_kept fuel : forall i st,
  let out := rescode_loop iter obs n rs dts vare svh nav x opt lc0 fuel i st in
  forall j, j ∈ visits obs n fuel i -> (j < length (r_vsat st))%nat ->
    r_vsat out !!! j <> 0%Z ->
    passes_tests iter obs n rs vare svh nav x opt j.
Proof.
  induction fuel as [|fuel IH]; intros i st; simpl.
  - intros j Hin. now apply elem_of_nil in Hin.
  - destruct ((i <? n)%nat && (i <? MAXOBS)%nat);
      [|intros j Hin; now apply elem_of_nil in Hin].
    pose proof (rescode_obs_kept i st) as Hkept.
    pose proof (rescode_obs_effect iter obs n rs dts vare svh nav x opt lc0 i st)
      as Heff.
    pose proof (rescode_obs_flag iter obs n rs dts vare svh nav x opt lc0 i st)
      as [Hflag _].
    destruct (rescode_obs iter obs n rs dts vare svh nav x opt lc0 i st)
      as [dup st']. simpl in *. subst dup.
    assert (Hlen' : length (r_vsat st') = length (r_vsat st)).
    { destruct Heff as [(_ & _ & _ & _ & _ & -> & _)
                       |(? & ? & ? & _ & _ & _ & _ & _ & -> & _)];
        now rewrite ?length_insert. }
    assert (Hnot : i ∉ visits obs n fuel (if dup_at obs n i then i + 2 else i + 1)%nat).
    { intros Hi. apply visits_bounds in Hi. destruct (dup_at obs n i); lia. }
    destruct (rescode_loop_flags iter obs n rs dts vare svh nav x opt lc0 fuel
                (if dup_at obs n i then i + 2 else i + 1)%nat st')
      as (_ & Hout & _).
    intros j Hj Hjl Hnz. apply elem_of_cons in Hj as [->|Hj].
    + apply Hkept; [assumption|]. now rewrite <- (Hout i Hnot).
    + apply (IH _ st' j Hj); [lia|assumption].
Qed.

(** X24. A flag that [rescode] leaves set on a record it has looked at tells
    that the record has passed the tests: its satellite is of a known
    constellation, the next record is not of the same satellite, [satexclude]
    has not excluded it, the geometric distance is positive and the
    pseudorange is not 0; after the first iteration the elevation is not below
    [elmin] either. [rescode] never flags a record that fails one of these. *)
Theorem rescode_flag_needs (azel : list double) (vsat : list Z)
    (resp : list double) :
  let out := rescode iter obs n rs dts vare svh nav x opt lc0 azel vsat resp in
  forall j, j ∈ visits obs n n 0 -> (j < length vsat)%nat ->
    r_vsat out !!! j <> 0%Z ->
    r_vsat out !!! j = 1%Z /\ passes_tests iter obs n rs vare svh nav x opt j.
Proof.
  intros out j Hj Hjl Hnz.
  pose proof (rescode_constraint_fold (seq 0 (NX - 3))
                (rescode_sats iter obs n rs dts vare svh nav x opt lc0 azel
                              vsat resp)) as (_ & _ & _ & _ & Hvs & _).
  change (foldl rescode_constraint _ (seq 0 (NX - 3))) with out in Hvs.
  rewrite Hvs in Hnz |- *. unfold rescode_sats in *.
  split.
  - destruct (rescode_loop_flags iter obs n rs dts vare svh nav x opt lc0 n 0
                (mk_rst [] [] [] azel vsat resp 0 (replicate (NX - 3) 0%Z)))
      as (_ & _ & Hin).
    destruct (Hin j Hj Hjl) as [[H0 | H1] _]; [contradiction|assumption].
  - apply (rescode_loop_kept n 0
             (mk_rst [] [] [] azel vsat resp 0 (replicate (NX - 3) 0%Z)) j Hj Hjl Hnz).
Qed.

End KeptProps.

(** ** Runs on the simulated collaborators *)

Import Sim.



(** A run of C2: on [obs5] the position part fails ([valsol] rejects the
    pass, with too few satellites for RAIM), and [estvel] still runs. Its
    first pass takes the five rows of [resdop] at the position that the
    position part has left, here the one of the caller, converges and
    overwrites the velocity covariance of the solution it was handed. With a
    caller's position 1000 km off, the position part leaves that position and
    the residuals of [resdop] are other ones. *)
Lemma pntpos_always_runs_estvel_witness :
  let sol1 := set_time (set_stat sol9 SOLQ_NONE) (obs_time (obs5 !!! 0%nat)) in
  let sat := satposs (sol_time sol1) obs5 5 nav0 (opt_sateph (pntpos_opt opt0)) in
  let ps := pntpos_position u0 obs5 5 nav0 opt0 sol1 EmptyString in
  let first := resdop obs5 5 sat.1.1.1 sat.1.1.2 nav0 (pi_e u0)
                      (sol_rr (ps_sol ps)) (replicate 4 0.0) (ps_azel ps)
                      (ps_vsat ps) (opt_err (pntpos_opt opt0) !!! 4%nat) in
  let sol1' := set_time (set_stat sol9_far SOLQ_NONE)
                        (obs_time (obs5 !!! 0%nat)) in
  let ps' := pntpos_position u0 obs5 5 nav0 opt0 sol1' EmptyString in
  let first' := resdop obs5 5 sat.1.1.1 sat.1.1.2 nav0 (pi_e u0)
                       (sol_rr (ps_sol ps')) (replicate 4 0.0) (ps_azel ps')
                       (ps_vsat ps') (opt_err (pntpos_opt opt0) !!! 4%nat) in
  exists r,
    pntpos u0 obs5 5 nav0 opt0 sol9 None None EmptyString = Some r
    /\ p_stat r = 0%Z /\ ps_stat ps = 0%Z
    /\ sol_rr (ps_sol ps) = replicate 6 0.0
    /\ first.1 = replicate 5 (-15865.106405712182)
    /\ p_sol r = estvel_commit (ps_sol ps)
                   (add_dx 4 (replicate 4 0.0) (replicate 4 0.0))
                   (replicate 16 0.0)
    /\ sol_qv (ps_sol ps) = replicate 6 9.0
    /\ sol_qv (p_sol r) = replicate 6 0.0
    /\ ps_stat ps' = 0%Z
    /\ sol_rr (ps_sol ps') = [1000000.0; 0.0; 0.0; 0.0; 0.0; 0.0]
    /\ first'.1 = replicate 5 (-15865.110240397418).
Proof.
  intros sol1 sat ps first sol1' ps' first'.
  pose proof (pntpos_always_runs_estvel u0 obs5 nav0 opt0 sol9 None None
                EmptyString 5 ltac:(lia)) as Hw.
  cbv zeta in Hw.
  destruct (pntpos u0 obs5 5 nav0 opt0 sol9 None None EmptyString) as [r|];
    [|discriminate Hw].
  destruct Hw as (_ & Hstat & _ & _ & _ & Hfirst & _).
  assert (Hps : ps_stat ps = 0%Z) by (vm_compute; reflexivity).
  destruct (Hfirst 0%Z (replicate 4 0.0) (replicate 16 0.0)) as [_ Hc];
    [vm_compute; lia | vm_compute; reflexivity|].
  specialize (Hc eq_refl ltac:(vm_compute; reflexivity)).
  exists r. split; [reflexivity|].
  split; [rewrite Hstat; exact Hps|]. split; [exact Hps|].
  split; [vm_compute; reflexivity|]. split; [vm_compute; reflexivity|].
  split; [exact Hc|]. split; [vm_compute; reflexivity|].
  split; [rewrite Hc; vm_compute; reflexivity|].
  vm_compute. repeat split.
Defined.

(** A run of C5: three satellites give 7 rows in the first pass. *)
Lemma estpos_lack_of_valid_sats_witness :
  let r := estpos obs3 3 (epoch_rs 3) (epoch_dts 3) (epoch_vare 3) (epoch_svh 3)
                  nav0 opt0 lc_zero sol9 (zeros 2 3) (replicate 3 0%Z)
                  (replicate 3 0.0) EmptyString in
  e_stat r = 0%Z /\ e_msg r = "lack of valid sats ns=7"%string /\ e_sol r = sol9.
Proof.
  assert (Hnv : Nat.lt (r_nv (rescode 0 obs3 3 (epoch_rs 3) (epoch_dts 3)
                                 (epoch_vare 3) (epoch_svh 3) nav0
                                 (estpos_x0 sol9) opt0 lc_zero (zeros 2 3)
                                 (replicate 3 0%Z) (replicate 3 0.0)))
                       NX) by (vm_compute; lia).
  pose proof (estpos_lack_of_valid_sats obs3 3 (epoch_rs 3) (epoch_dts 3)
                (epoch_vare 3) (epoch_svh 3) nav0 opt0 lc_zero sol9 (zeros 2 3)
                (replicate 3 0%Z) (replicate 3 0.0) EmptyString
                0 (estpos_x0 sol9) (zeros 2 3) (replicate 3 0%Z)
                (replicate 3 0.0)
                (estpos_reaches_first _ _ _ _ _ _ _ _ _ _ _ _ _ _) Hnv) as Hw.
  vm_compute in Hw. vm_compute. exact Hw.
Defined.

(** A run of C6, with [n = 0]: on an [obs] without a record the call has no
    result, and on the one record of [obs1] it returns 0 with the message. *)
Lemma pntpos_no_observation_data_witness :
  pntpos u0 [] 0 nav0 opt0 sol9 None None EmptyString = None
  /\ match pntpos u0 obs1 0 nav0 opt0 sol9 None None EmptyString with
     | None => obs1 = []
     | Some r =>
         obs1 <> []
         /\ p_stat r = 0%Z
         /\ p_msg r = "no observation data"%string
         /\ sol_stat (p_sol r) = SOLQ_NONE
         /\ p_sol r = set_stat sol9 SOLQ_NONE
         /\ p_azel r = None /\ p_ssat r = None
     end.
Proof.
  split.
  - pose proof (pntpos_no_observation_data u0 [] nav0 opt0 sol9 None None
                  EmptyString 0 ltac:(lia)) as Hw.
    destruct (pntpos u0 [] 0 nav0 opt0 sol9 None None EmptyString) as [r|];
      [|reflexivity].
    destruct Hw as [Hne _]. now contradiction Hne.
  - apply (pntpos_no_observation_data u0 obs1 nav0 opt0 sol9 None None
             EmptyString 0).
    lia.
Defined.

(** A run of C7: a record without a pseudorange. *)
Lemma prange_missing_data_dropped_witness :
  let st := mk_rst [] [] [] (zeros 2 1) [0%Z] [0.0] 0 (replicate 5 0%Z) in
  prange (obs_nop !!! 0%nat) nav0 opt0 = (0.0, 0.0)
  /\ pass_skips 0 st
       (rescode_obs 1 obs_nop 1 (epoch_rs 1) (epoch_dts 1) (epoch_vare 1)
                    (epoch_svh 1) nav0 (replicate 8 0.0) opt0 lc_zero 0 st).2.
Proof.
  apply (prange_missing_data_dropped 1 obs_nop 1 (epoch_rs 1) (epoch_dts 1)
           (epoch_vare 1) (epoch_svh 1) nav0 (replicate 8 0.0) opt0 lc_zero 0).
  left. reflexivity.
Defined.

(** A run of C10: four GLONASS satellites and nothing else. *)
Lemma rescode_clock_constraint_witness :
  let st := rescode_sats 0 obs_glo 4 (epoch_rs 4) (epoch_dts 4) (epoch_vare 4)
              (epoch_svh 4) nav0 (replicate 8 0.0) opt0 lc_zero (zeros 2 4)
              (replicate 4 0%Z) (replicate 4 0.0) in
  let out := first_rescode obs_glo 4 lc_zero in
  r_ns st = 4%nat
  /\ r_mask st !!! 0%nat = 0%Z
  /\ (r_nv st < r_nv out)%nat
  /\ r_v out !!! r_nv st = 0.0
  /\ r_H out !!! r_nv st = [0.0; 0.0; 0.0; 1.0; 0.0; 0.0; 0.0; 0.0]
  /\ r_var out !!! r_nv st = 0.01.
Proof.
  split; [vm_compute; reflexivity|].
  apply (rescode_clock_constraint 0 obs_glo 4 (epoch_rs 4) (epoch_dts 4)
           (epoch_vare 4) (epoch_svh 4) nav0 (replicate 8 0.0) opt0 lc_zero
           (zeros 2 4) (replicate 4 0%Z) (replicate 4 0.0)).
  - simpl. lia.
  - intros j Hj _ Hg.
    do 4 (destruct j as [|j];
          [vm_compute in Hg; destruct Hg as [Hg|[Hg|Hg]]; discriminate|]).
    lia.
Defined.

(** C4, a counterexample to the statement of the specification. A record without a pseudorange forms no
    row: the design matrix is the five constraint rows, and the position
    columns 0, 1, 2 hold no nonzero entry. With the seven satellites of
    [obs7], all in one direction, seven rows are formed, the 11 rows are
    enough for [estpos] to go on to the least-squares solve, and the columns
    1 and 2 still hold zeros only. *)
Lemma rescode_position_columns_empty :
  let out := first_rescode obs_nop 1 lc_zero in
  let out7 := first_rescode obs7 7 lc_zero in
  r_ns out = 0%nat
  /\ r_H out = [[0.0; 0.0; 0.0; 1.0; 0.0; 0.0; 0.0; 0.0];
                [0.0; 0.0; 0.0; 0.0; 1.0; 0.0; 0.0; 0.0];
                [0.0; 0.0; 0.0; 0.0; 0.0; 1.0; 0.0; 0.0];
                [0.0; 0.0; 0.0; 0.0; 0.0; 0.0; 1.0; 0.0];
                [0.0; 0.0; 0.0; 0.0; 0.0; 0.0; 0.0; 1.0]]
  /\ map (col_nonzero (r_H out)) (seq 0 NX)
     = [false; false; false; true; true; true; true; true]
  /\ r_ns out7 = 7%nat /\ r_nv out7 = 11%nat
  /\ map (col_nonzero (r_H out7)) (seq 0 NX)
     = [true; false; false; true; true; true; true; true].
Proof. vm_compute. repeat split. Qed.

(** C9, the code at a failing input. In the first iteration the locals
    [dion], [dtrp], [vion], [vtrp] are read without having been written. For
    one GPS satellite whose pseudorange is 1 m longer than its range, the
    residual is 1 and the variance that of the measurement when the locals
    happen to hold zeros; when they hold 5, 2, 0.5 and 0.25 the residual is
    1 - 5 - 2 = -6 and the variance is larger by 0.75. *)
Theorem rescode_first_iteration_reads_unset_locals :
  r_v (first_rescode obs1 1 lc_zero) = [1.0; 0.0; 0.0; 0.0; 0.0]
  /\ r_var (first_rescode obs1 1 lc_zero)
     = [1.2126341920196919; 0.01; 0.01; 0.01; 0.01]
  /\ r_v (first_rescode obs1 1 (mk_locals 5.0 2.0 0.5 0.25))
     = [-6.0; 0.0; 0.0; 0.0; 0.0]
  /\ r_var (first_rescode obs1 1 (mk_locals 5.0 2.0 0.5 0.25))
     = [1.9626341920196919; 0.01; 0.01; 0.01; 0.01].
Proof. vm_compute. repeat split. Qed.

(** A run of the first iteration on [obs1]: no gate is consulted. *)
Lemma rescode_obs_first_iteration_witness :
  let st := mk_rst [] [] [] (zeros 2 1) [0%Z] [0.0] 0 (replicate 5 0%Z) in
  let x0 := replicate 8 0.0 in
  let g := geodist (drop (0 * 6) (epoch_rs 1))
                   [x0 !!! 0%nat; x0 !!! 1%nat; x0 !!! 2%nat] in
  rescode_obs 0 obs1 1 (epoch_rs 1) (epoch_dts 1) (epoch_vare 1) (epoch_svh 1)
              nav0 x0 opt0 (mk_locals 5.0 2.0 0.5 0.25) 0 st
  = (false, rescode_row obs1 (epoch_dts 1) (epoch_vare 1) nav0 x0 opt0 0
              (satsys (obs_sat (obs1 !!! 0%nat))) g.1 g.2
              (mk_locals 5.0 2.0 0.5 0.25) (rescode_reset 0 st)).
Proof.
  intros st x0 g.
  apply (rescode_obs_first_iteration obs1 1 (epoch_rs 1) (epoch_dts 1)
           (epoch_vare 1) (epoch_svh 1) nav0 x0 opt0
           (mk_locals 5.0 2.0 0.5 0.25) 0 st g.1 g.2).
  - vm_compute. discriminate.
  - reflexivity.
  - reflexivity.
  - subst g. apply surjective_pairing.
  - vm_compute. reflexivity.
Defined.

(** A run of the second iteration on [obs1]: the content of the locals on
    entry makes no difference. *)
Lemma rescode_later_iterations_witness :
  rescode 1 obs1 1 (epoch_rs 1) (epoch_dts 1) (epoch_vare 1) (epoch_svh 1) nav0
          (replicate 8 0.0) opt0 lc_zero (zeros 2 1) [0%Z] [0.0]
  = rescode 1 obs1 1 (epoch_rs 1) (epoch_dts 1) (epoch_vare 1) (epoch_svh 1) nav0
            (replicate 8 0.0) opt0 (mk_locals 5.0 2.0 0.5 0.25) (zeros 2 1)
            [0%Z] [0.0].
Proof.
  apply (rescode_later_iterations obs1 1 (epoch_rs 1) (epoch_dts 1)
           (epoch_vare 1) (epoch_svh 1) nav0 (replicate 8 0.0) opt0 1).
  lia.
Defined.

(** A run of the second iteration on [obs1]: the satellite passes every gate
    and its row is formed with the scaled model values. *)
Lemma rescode_obs_later_iteration_gates_witness :
  let st := mk_rst [] [] [] (zeros 2 1) [0%Z] [0.0] 0 (replicate 5 0%Z) in
  let x0 := replicate 8 0.0 in
  let pos := ecef2pos [x0 !!! 0%nat; x0 !!! 1%nat; x0 !!! 2%nat] in
  let g := geodist (drop (0 * 6) (epoch_rs 1))
                   [x0 !!! 0%nat; x0 !!! 1%nat; x0 !!! 2%nat] in
  let a := satazel pos g.2 in
  let st0 := rescode_reset 0 st in
  let st1 := mk_rst (r_v st0) (r_H st0) (r_var st0)
               (<[(0 * 2)%nat := a.2 !!! 0%nat]>
                  (<[(1 + 0 * 2)%nat := a.2 !!! 1%nat]> (r_azel st0)))
               (r_vsat st0) (r_resp st0) (r_ns st0) (r_mask st0) in
  let az_i := azel_at (r_azel st1) 0 in
  let ion := ionocorr (obs_time (obs1 !!! 0%nat)) nav0 (obs_sat (obs1 !!! 0%nat))
                      pos az_i (opt_ionoopt opt0) in
  let freq := sat2freq (obs_sat (obs1 !!! 0%nat))
                       (obs_code (obs1 !!! 0%nat) !!! 0%nat) nav0 in
  let trp := tropcorr (obs_time (obs1 !!! 0%nat)) nav0 pos az_i
                      (opt_tropopt opt0) in
  rescode_obs 1 obs1 1 (epoch_rs 1) (epoch_dts 1) (epoch_vare 1) (epoch_svh 1)
              nav0 x0 opt0 (mk_locals 5.0 2.0 0.5 0.25) 0 st
  = (false,
     if (a.1 <? opt_elmin opt0) || negb (snrmask (obs1 !!! 0%nat) az_i opt0)
        || (ion.1.1 =? 0)%Z || (freq =? 0.0) || (trp.1.1 =? 0)%Z
     then st1
     else rescode_row obs1 (epoch_dts 1) (epoch_vare 1) nav0 x0 opt0 0
            (satsys (obs_sat (obs1 !!! 0%nat))) g.1 g.2
            (mk_locals (ion.1.2 * SQR (FREQ1 / freq)) trp.1.2
                       (ion.2 * SQR (FREQ1 / freq)) trp.2) st1).
Proof.
  intros st x0 pos g a.
  apply (rescode_obs_later_iteration_gates obs1 1 (epoch_rs 1) (epoch_dts 1)
           (epoch_vare 1) (epoch_svh 1) nav0 x0 opt0 1
           (mk_locals 5.0 2.0 0.5 0.25) 0 st g.1 g.2 a.1 a.2).
  - lia.
  - vm_compute. discriminate.
  - reflexivity.
  - reflexivity.
  - subst g. apply surjective_pairing.
  - vm_compute. reflexivity.
  - subst a. apply surjective_pairing.
Defined.

(** A run of X7: the six satellites of [obs6] are all kept. *)
Lemma estpos_ns_counts_flags_witness :
  e_stat est6 = 1%Z
  /\ sol_ns (e_sol est6) = (Z.of_nat (flag_count (e_vsat est6) 6) mod 256)%Z
  /\ sol_ns (e_sol est6) = 6%Z.
Proof.
  split; [vm_compute; reflexivity|]. split; [|vm_compute; reflexivity].
  apply (estpos_ns_counts_flags obs6 6 (epoch_rs 6) (epoch_dts 6) (epoch_vare 6)
           (epoch_svh 6) nav0 opt0 lc_zero sol_zero EmptyString (zeros 2 6)
           (replicate 6 0%Z) (replicate 6 0.0)).
  - simpl. lia.
  - intros j Hj _. apply lookup_total_replicate_2. lia.
  - vm_compute. reflexivity.
Defined.

(** A run of X8: [obs7] without its record 2. *)
Lemma exclude_slots_witness :
  length (exclude 7 obs7 2) = (7 - 1)%nat
  /\ length (exclude_blocks 7 6 (epoch_rs 7) 2) = (6 * (7 - 1))%nat
  /\ forall k, (k < 7 - 1)%nat ->
       exclude 7 obs7 2 !!! k = obs7 !!! record_of 2 k
       /\ forall t, (t < 6)%nat ->
            exclude_blocks 7 6 (epoch_rs 7) 2 !!! (6 * k + t)%nat
            = epoch_rs 7 !!! (6 * record_of 2 k + t)%nat.
Proof.
  apply (exclude_slots 7 2). lia.
Defined.

(** A run of X9: the copy back for candidate 2 of seven records. *)
Lemma raim_save_slots_witness :
  let azel := zeros 2 7 in
  let vsat := replicate 7 0%Z in
  let resp := replicate 7 0.0 in
  let azel_e := replicate 12 1.5 in
  let vsat_e := replicate 6 1%Z in
  let resp_e := replicate 6 3.0 in
  let '(azel', vsat', resp') :=
    raim_save 7 2 azel vsat resp azel_e vsat_e resp_e in
  length azel' = length azel /\ length vsat' = length vsat
  /\ length resp' = length resp
  /\ vsat' !!! 2%nat = vsat !!! 2%nat /\ resp' !!! 2%nat = resp !!! 2%nat
  /\ azel' !!! (2 * 2)%nat = azel !!! (2 * 2)%nat
  /\ azel' !!! (2 * 2 + 1)%nat = azel !!! (2 * 2 + 1)%nat
  /\ forall j, (j < 7)%nat -> j <> 2%nat ->
       exclude 7 obs7 2 !!! slot_of 2 j = obs7 !!! j
       /\ ((j < length vsat)%nat -> vsat' !!! j = vsat_e !!! slot_of 2 j)
       /\ ((j < length resp)%nat -> resp' !!! j = resp_e !!! slot_of 2 j)
       /\ ((2 * j + 1 < length azel)%nat ->
           azel' !!! (2 * j)%nat = azel_e !!! (2 * slot_of 2 j)%nat
           /\ azel' !!! (2 * j + 1)%nat = azel_e !!! (2 * slot_of 2 j + 1)%nat).
Proof.
  intros azel vsat resp azel_e vsat_e resp_e.
  apply (raim_save_slots 7 2 azel azel_e vsat vsat_e resp resp_e obs7).
  lia.
Defined.

(** A run of X12: three flags are too few for a velocity. *)
Lemma estvel_needs_four_flags_witness :
  estvel obs3 3 (epoch_rs 3) (epoch_dts 3) nav0 (replicate 3 0.0) opt0 sol9
         (zeros 2 3) [1%Z; 1%Z; 1%Z]
  = sol9.
Proof.
  apply (estvel_needs_four_flags obs3 3 (epoch_rs 3) (epoch_dts 3) nav0
           (replicate 3 0.0) opt0 sol9 (zeros 2 3) [1%Z; 1%Z; 1%Z]).
  vm_compute. lia.
Defined.

(** A run of X14: the three satellites of [obs3]. *)
Lemma pntpos_needs_four_observations_witness :
  let sol1 := set_time (set_stat sol9 SOLQ_NONE) (obs_time (obs3 !!! 0%nat)) in
  let sat := satposs (sol_time sol1) obs3 (Z.to_nat 3) nav0
                     (opt_sateph (pntpos_opt opt0)) in
  let nv := r_nv (rescode 0 obs3 (Z.to_nat 3) sat.1.1.1 sat.1.1.2 sat.1.2 sat.2
                          nav0 (estpos_x0 sol1) (pntpos_opt opt0) (pi_lc u0)
                          (zeros 2 (Z.to_nat 3)) (replicate MAXOBS 0%Z)
                          (pi_resp u0)) in
  match pntpos u0 obs3 3 nav0 opt0 sol9 None None EmptyString with
  | None => obs3 = []
  | Some r =>
      obs3 <> []
      /\ p_stat r = 0%Z
      /\ p_sol r = sol1
      /\ (5 <= nv <= 7)%nat
      /\ p_msg r = ("lack of valid sats ns=" ++ fmt_d (Z.of_nat nv))%string
  end.
Proof.
  apply (pntpos_needs_four_observations u0 obs3 nav0 opt0 sol9 None None
           EmptyString 3).
  lia.
Defined.

(** A run of X15: [obs7] in a precise mode, with the corrections asked to be
    off and asked to be the SBAS models. *)
Lemma pntpos_precise_options_witness :
  pntpos u0 obs7 7 nav0
         (mk_prcopt (opt_mode opt_precise) IONOOPT_SBAS TROPOPT_SBAS
                    (opt_sateph opt_precise) (opt_elmin opt_precise)
                    (opt_snrmask opt_precise) (opt_err opt_precise)
                    (opt_maxgdop opt_precise) (opt_posopt opt_precise))
         sol9 None None EmptyString
  = pntpos u0 obs7 7 nav0 opt_precise sol9 None None EmptyString
  /\ opt_ionoopt (pntpos_opt opt_precise) = IONOOPT_BRDC
  /\ opt_tropopt (pntpos_opt opt_precise) = TROPOPT_SAAS.
Proof.
  apply (pntpos_precise_options u0 obs7 nav0 opt_precise sol9 None None
           EmptyString 7 IONOOPT_SBAS TROPOPT_SBAS).
  discriminate.
Defined.


(** A run of X21: the seven residuals of [obs7] and the four constraint
    rows. *)
Lemma rescode_residuals_of_flagged_witness :
  let st := rescode_sats 0 obs7 7 (epoch_rs 7) (epoch_dts 7) (epoch_vare 7)
              (epoch_svh 7) nav0 (replicate 8 0.0) opt0 lc_zero (zeros 2 7)
              (replicate 7 0%Z) (replicate 7 0.0) in
  let out := rescode 0 obs7 7 (epoch_rs 7) (epoch_dts 7) (epoch_vare 7)
               (epoch_svh 7) nav0 (replicate 8 0.0) opt0 lc_zero (zeros 2 7)
               (replicate 7 0%Z) (replicate 7 0.0) in
  (r_v out = map (fun j => r_resp out !!! j) (flagged (r_vsat out) 7)
             ++ replicate (length (unseen (r_mask st))) 0.0
   /\ length (flagged (r_vsat out) 7) = r_ns out)
  /\ r_v out = [3.0; 3.0; 1.0; 1.0; 1.0; 1.0; 1.0; 0.0; 0.0; 0.0; 0.0].
Proof.
  split; [|vm_compute; reflexivity].
  apply (rescode_residuals_of_flagged 0 obs7 7 (epoch_rs 7) (epoch_dts 7)
           (epoch_vare 7) (epoch_svh 7) nav0 (replicate 8 0.0) opt0 lc_zero
           (zeros 2 7) (replicate 7 0%Z) (replicate 7 0.0)).
  - simpl. lia.
  - simpl. lia.
  - intros j Hj _. apply lookup_total_replicate_2. lia.
Defined.

(** A run of X24: the first record of [obs7] in the second iteration. *)
Lemma rescode_flag_needs_witness :
  let out := rescode 1 obs7 7 (epoch_rs 7) (epoch_dts 7) (epoch_vare 7)
               (epoch_svh 7) nav0 (replicate 8 0.0) opt0 lc_zero (zeros 2 7)
               (replicate 7 0%Z) (replicate 7 0.0) in
  r_vsat out !!! 0%nat = 1%Z
  /\ passes_tests 1 obs7 7 (epoch_rs 7) (epoch_vare 7) (epoch_svh 7) nav0
                  (replicate 8 0.0) opt0 0.
Proof.
  apply (rescode_flag_needs 1 obs7 7 (epoch_rs 7) (epoch_dts 7) (epoch_vare 7)
           (epoch_svh 7) nav0 (replicate 8 0.0) opt0 lc_zero (zeros 2 7)
           (replicate 7 0%Z) (replicate 7 0.0) 0).
  - vm_compute. left.
  - simpl. lia.
  - vm_compute. discriminate.
Defined.
